(** * AtoyanMikhail/auth: the JWT support cache and the refresh-token repository

    A shallow embedding of [internal/cache] (the key-value cache adapter
    [redisCache] and the facade [jwtCache]) and of [internal/repository]
    (the refresh-token repository [refreshTokenRepo]), followed by the
    properties proved about them.

    Go code that threads a store, a clock and a logger is written in a state
    monad [State S].  A struct holding interface values ([jwtCache] holds a
    [Cache] and a [Logger]) is a record holding records of operations.  The
    two backing engines are outside the repository; they are modelled at the
    level of the client contract the code consumes:
    - the key-value store as a map from keys to a text and an optional
      deadline, with one reply per command; a duration reaches it as the
      client library sends it, in whole milliseconds or whole seconds;
    - the relational store as a catalog of tables holding rows, with the
      statements of the repository as a small SQL syntax tree.
    Both carry a script of transport faults, so that every error path of the
    code can be exercised. *)

From Stdlib Require Import ZArith Ascii String List Bool Lia.
From stdpp Require Import gmap strings list fin_maps pretty sorting.

Open Scope string_scope.
Open Scope list_scope.
Open Scope Z_scope.

(* ===================================================================== *)
(** * Part I: the program                                                 *)
(* ===================================================================== *)

(** ** The state monad the embedded code lives in *)

Definition State (S A : Type) : Type := S -> A * S.

Definition ret {S A} (a : A) : State S A := fun s => (a, s).

Definition bind {S A B} (m : State S A) (k : A -> State S B) : State S B :=
  fun s => let (a, s') := m s in k a s'.

Declare Scope go_scope.
Delimit Scope go_scope with go.
Notation "'let*' p := m 'in' k" := (bind m (fun p => k))
  (at level 10, p pattern, m at level 100, k at level 200) : go_scope.
Notation "m ;; k" := (bind m (fun _ => k))
  (at level 100, k at level 200, right associativity) : go_scope.
Open Scope go_scope.

(** ** Go values shared by both packages *)

(** [time.Time] is an instant in nanoseconds; [time.Duration] is an int64
    count of nanoseconds. *)
Module time.

Definition Time := Z.
Definition Duration := Z.

Definition Nanosecond : Duration := 1.
Definition Millisecond : Duration := 1000000.
Definition Second : Duration := 1000000000.
Definition Hour : Duration := 3600 * Second.

Definition minDuration : Duration := - 2 ^ 63.
Definition maxDuration : Duration := 2 ^ 63 - 1.

(** [t.Sub(u)]: the difference, saturated to what a Duration can hold. *)
Definition Sub (t u : Time) : Duration :=
  let d := t - u in
  if d <? minDuration then minDuration
  else if maxDuration <? d then maxDuration
  else d.

(** [time.Until(t)] is [t.Sub(time.Now())]. *)
Definition Until (now t : Time) : Duration := Sub t now.

(** The process clock, read by [time.Now()]. *)
Class Clock (S : Type) := Now : S -> Time.

End time.

(** Go's [error] values.  [nil] is [None].  The sentinels the code compares
    against with [==] are constructors of their own; an error built by
    [fmt.Errorf] carries its rendered text and the error it wraps. *)
Module errors.

Inductive strconvErr := ErrSyntax | ErrRange.

#[warnings="-register-all"]
Inductive err : Type :=
| New (text : string)
    (* an opaque error value of a driver or of the transport *)
| RedisError (text : string)
    (* proto.RedisError: an error reply of the key-value server *)
| ErrNoRows
    (* database/sql.ErrNoRows *)
| ErrNoChange
    (* migrate.ErrNoChange *)
| NumError (func num : string) (e : strconvErr)
    (* strconv.NumError *)
| Errorf (text : string) (wrapped : option err).
    (* fmt.Errorf: the formatted text, and the operand of %w if any *)

Definition quote : string := String (ascii_of_nat 34) EmptyString.

(** [err.Error()].  The text of a NumError quotes the input with plain
    double quotes (the escapes of strconv.Quote are not rendered). *)
Definition Error (e : err) : string :=
  match e with
  | New text => text
  | RedisError text => text
  | ErrNoRows => "sql: no rows in result set"
  | ErrNoChange => "no change"
  | NumError func num ErrSyntax =>
      "strconv." +:+ func +:+ ": parsing " +:+ quote +:+ num +:+ quote +:+ ": invalid syntax"
  | NumError func num ErrRange =>
      "strconv." +:+ func +:+ ": parsing " +:+ quote +:+ num +:+ quote +:+ ": value out of range"
  | Errorf text _ => text
  end.

(** [fmt.Errorf(prefix + "%w", e)] *)
Definition Wrap (prefix : string) (e : err) : err :=
  Errorf (prefix +:+ Error e) (Some e).

(** [err == redis.Nil]: a RedisError is a string, compared by its text. *)
Definition eq_redis_Nil (e : err) : bool :=
  match e with
  | RedisError text => String.eqb text "redis: nil"
  | _ => false
  end.

(** [err == sql.ErrNoRows]: a pointer, equal only to itself. *)
Definition eq_ErrNoRows (e : err) : bool :=
  match e with ErrNoRows => true | _ => false end.

(** [err != migrate.ErrNoChange] is the negation of this. *)
Definition eq_ErrNoChange (e : err) : bool :=
  match e with ErrNoChange => true | _ => false end.

End errors.

Abbreviation error := (option errors.err).

(** [redis.Nil], the reply for an absent key. *)
Definition redis_Nil : errors.err := errors.RedisError "redis: nil".

(** ** internal/logger: the Logger interface *)

Module logger.

Inductive Level := DebugLevel | InfoLevel | WarnLevel | ErrorLevel | PanicLevel | FatalLevel.

(** The [Value interface{}] of a Field: the values the two packages log.
    [DurationString d] stands for the text [d.String()]. *)
Inductive FieldValue :=
| StringValue (s : string)
| IntValue (n : Z)
| DurationString (d : time.Duration).

Record Field := { Key : string; Value : FieldValue }.

Definition String (key value : string) : Field :=
  {| Key := key; Value := StringValue value |}.

Definition Int (key : string) (value : Z) : Field :=
  {| Key := key; Value := IntValue value |}.

Definition Error (e : errors.err) : Field :=
  {| Key := "error"; Value := StringValue (errors.Error e) |}.

(** One line written by a logger. *)
Record Entry := { level : Level; msg : string; fields : list Field }.

(** The methods of [Logger] the two packages call. *)
Module Logger.
Record t (S : Type) := {
  Debug : string -> list Field -> State S unit;
  Info : string -> list Field -> State S unit;
  Warn : string -> list Field -> State S unit;
  Error : string -> list Field -> State S unit
}.
Arguments Debug {S} _ _ _.
Arguments Info {S} _ _ _.
Arguments Warn {S} _ _ _.
Arguments Error {S} _ _ _.
End Logger.

(** The logger of the test files: every method returns at once. *)
Definition mockLogger {S : Type} : Logger.t S :=
  {| Logger.Debug := fun _ _ => ret tt;
     Logger.Info := fun _ _ => ret tt;
     Logger.Warn := fun _ _ => ret tt;
     Logger.Error := fun _ _ => ret tt |}.

(** A logger that appends its lines to a sink kept in the state. *)
Definition sink {S : Type} (write : Entry -> S -> S) : Logger.t S :=
  {| Logger.Debug := fun m fs s => (tt, write {| level := DebugLevel; msg := m; fields := fs |} s);
     Logger.Info := fun m fs s => (tt, write {| level := InfoLevel; msg := m; fields := fs |} s);
     Logger.Warn := fun m fs s => (tt, write {| level := WarnLevel; msg := m; fields := fs |} s);
     Logger.Error := fun m fs s => (tt, write {| level := ErrorLevel; msg := m; fields := fs |} s) |}.

End logger.

(** ** strconv.ParseInt(s, 10, 64) *)

Module strconv.

Definition is_digit (c : ascii) : bool :=
  (48 <=? Z.of_nat (nat_of_ascii c)) && (Z.of_nat (nat_of_ascii c) <=? 57).

Definition digit (c : ascii) : Z := Z.of_nat (nat_of_ascii c) - 48.

Definition maxUint64 : Z := 2 ^ 64 - 1.

(** The loop of [ParseUint] for base 10 and 64 bits, [n] being the value
    accumulated so far.  A byte that is no decimal digit is a syntax error
    (a letter is a digit of value 10 or more, which base 10 refuses).
    [inl] is the value, [inr] the error kind. *)
Fixpoint ParseUint_loop (s : string) (n : Z) : Z + errors.strconvErr :=
  match s with
  | EmptyString => inl n
  | String c rest =>
      if negb (is_digit c) then inr errors.ErrSyntax
      else
        let cutoff := maxUint64 / 10 + 1 in
        if cutoff <=? n then inr errors.ErrRange
        else
          let n10 := n * 10 in
          let n1 := (n10 + digit c) mod 2 ^ 64 in
          if (n1 <? n10) || (maxUint64 <? n1) then inr errors.ErrRange
          else ParseUint_loop rest n1
  end.

Definition ParseUint (s : string) : Z + errors.strconvErr :=
  match s with
  | EmptyString => inr errors.ErrSyntax
  | _ => ParseUint_loop s 0
  end.

(** [strconv.ParseInt(s, 10, 64)]: the value and the error. *)
Definition ParseInt (s0 : string) : Z * error :=
  match s0 with
  | EmptyString => (0, Some (errors.NumError "ParseInt" s0 errors.ErrSyntax))
  | String c rest =>
      let neg := Ascii.eqb c "-" in
      let s := if Ascii.eqb c "+" || neg then rest else s0 in
      let cutoff := 2 ^ 63 in
      match ParseUint s with
      | inr errors.ErrSyntax => (0, Some (errors.NumError "ParseInt" s0 errors.ErrSyntax))
      | inr errors.ErrRange =>
          (* ParseUint returns maxVal with its range error *)
          if neg then (- cutoff, Some (errors.NumError "ParseInt" s0 errors.ErrRange))
          else (cutoff - 1, Some (errors.NumError "ParseInt" s0 errors.ErrRange))
      | inl un =>
          if negb neg && (cutoff <=? un)
          then (cutoff - 1, Some (errors.NumError "ParseInt" s0 errors.ErrRange))
          else if neg && (cutoff <? un)
          then (- cutoff, Some (errors.NumError "ParseInt" s0 errors.ErrRange))
          else (if neg then - un else un, None)
      end
  end.

End strconv.

(** ** internal/cache/cache.go: the Cache interface *)

(** The [value interface{}] argument of Set and SetNX, by the cases of the
    type switch: a string, a byte slice, or any other value, which carries
    what [json.Marshal] makes of it. *)
Inductive any :=
| any_string (v : string)
| any_bytes (v : string)
| any_other (jsonData : string) (marshalErr : error).

Module Cache.
Record t (S : Type) := {
  Set_ : string -> any -> time.Duration -> State S error;
  Get : string -> State S (string * error);
  Delete : string -> State S error;
  Exists : string -> State S (bool * error);
  SetNX : string -> any -> time.Duration -> State S (bool * error);
  Increment : string -> State S (Z * error);
  IncrementWithTTL : string -> time.Duration -> State S (Z * error);
  Close : State S error;
  Ping : State S error
}.
Arguments Set_ {S} _ _ _ _.
Arguments Get {S} _ _.
Arguments Delete {S} _ _.
Arguments Exists {S} _ _.
Arguments SetNX {S} _ _ _ _.
Arguments Increment {S} _ _.
Arguments IncrementWithTTL {S} _ _ _.
Arguments Close {S} _.
Arguments Ping {S} _.
End Cache.

(** ** The client of the key-value store (github.com/redis/go-redis/v9)

    One method per command the adapter issues; each returns what the
    command's [Result()] returns.  [Exec2] is a pipeline of two queued
    commands.  The library documents [Pipeline.Exec] so: it executes all
    previously queued commands using one client-server roundtrip, and always
    returns the list of commands and the error of the first failed command
    if any.  Each queued command keeps its own value and error, read
    afterwards through [Result()] and [Err()].

    A duration does not travel as it is: [Set] and [SetNX] send a whole
    number of seconds as EX and any other duration as PX, in whole
    milliseconds, and [Expire] sends whole seconds; a positive duration
    below the unit is sent as 1 ([usePrecise], [formatMs], [formatSec]). *)

Module redis.

Record Client (S : Type) := {
  Set_ : string -> string -> time.Duration -> State S (string * error);
  Get : string -> State S (string * error);
  Del : string -> State S (Z * error);
  Exists : string -> State S (Z * error);
  SetNX : string -> string -> time.Duration -> State S (bool * error);
  Incr : string -> State S (Z * error);
  Expire : string -> time.Duration -> State S (bool * error);
  Ping : State S (string * error);
  Close : State S error
}.
Arguments Set_ {S} _ _ _ _.
Arguments Get {S} _ _.
Arguments Del {S} _ _.
Arguments Exists {S} _ _.
Arguments SetNX {S} _ _ _ _.
Arguments Incr {S} _ _.
Arguments Expire {S} _ _ _.
Arguments Ping {S} _.
Arguments Close {S} _.

(** [cmd.Err()] and [cmd.Result()] of an executed command. *)
Definition Err {A} (cmd : A * error) : error := snd cmd.
Definition Result {A} (cmd : A * error) : A * error := cmd.

Definition cmdsFirstErr (errs : list error) : error :=
  match List.find (fun e : error => match e with Some _ => true | None => false end) errs with
  | Some e => e
  | None => None
  end.

Definition Exec2 {S A B} (c1 : State S (A * error)) (c2 : State S (B * error))
  : State S ((A * error) * (B * error) * error) :=
  let* cmd1 := c1 in
  let* cmd2 := c2 in
  ret (cmd1, cmd2, cmdsFirstErr [Err cmd1; Err cmd2]).

(** How the client puts a duration on the wire.  Go's [/] and [%] on
    integers truncate towards zero. *)

(** [KeepTTL], the expiration with which SET keeps the deadline of the key. *)
Definition KeepTTL : time.Duration := -1.

Definition usePrecise (dur : time.Duration) : bool :=
  (dur <? time.Second) || negb (Z.rem dur time.Second =? 0).

Definition formatMs (dur : time.Duration) : Z :=
  if (0 <? dur) && (dur <? time.Millisecond) then 1
  else Z.quot dur time.Millisecond.

Definition formatSec (dur : time.Duration) : Z :=
  if (0 <? dur) && (dur <? time.Second) then 1
  else Z.quot dur time.Second.

(** The expiry a SET command carries: [PX] milliseconds, [EX] seconds,
    [KEEPTTL], or none. *)
Inductive expiry :=
| PX (milliseconds : Z)
| EX (seconds : Z)
| KEEPTTL
| persistent.

(** The expiry [Set] sends for its [expiration]. *)
Definition Set_expiry (expiration : time.Duration) : expiry :=
  if 0 <? expiration then
    if usePrecise expiration then PX (formatMs expiration)
    else EX (formatSec expiration)
  else if expiration =? KeepTTL then KEEPTTL
  else persistent.

(** The expiry [SetNX] sends: the plain SETNX for 0, else SET ... NX. *)
Definition SetNX_expiry (expiration : time.Duration) : expiry :=
  if expiration =? 0 then persistent
  else if expiration =? KeepTTL then KEEPTTL
  else if usePrecise expiration then PX (formatMs expiration)
  else EX (formatSec expiration).

End redis.

(** ** The adapter: redisCache *)

Definition TokenBlacklistPrefix : string := "blacklist:token:".
Definition UserBlacklistPrefix : string := "blacklist:user:".
Definition IPAttemptPrefix : string := "ip_attempt:".

Module redisCache.

(** The struct; its [cfg] field is read by no method and is left out. *)
Record t (S : Type) := {
  client : redis.Client S;
  logger : logger.Logger.t S
}.
Arguments client {S} _.
Arguments logger {S} _.

Section Methods.
Context {S : Type} (r : t S).

(** The type switch of Set and SetNX: the text to store, or the error of
    [json.Marshal]. *)
Definition marshal (value : any) : string * error :=
  match value with
  | any_string v => (v, None)
  | any_bytes v => (v, None)
  | any_other jsonData err => (jsonData, err)
  end.

Definition Set_ (key : string) (value : any) (ttl : time.Duration) : State S error :=
  match marshal value with
  | (_, Some err) => ret (Some (errors.Wrap "failed to marshal value: " err))
  | (data, None) =>
      let* cmd := redis.Set_ (client r) key data ttl in
      match redis.Err cmd with
      | Some err =>
          logger.Logger.Error (logger r) "Failed to set cache value"
            [logger.String "key" key; logger.Error err] ;;
          ret (Some (errors.Wrap "failed to set cache value: " err))
      | None => ret None
      end
  end.

Definition Get (key : string) : State S (string * error) :=
  let* (val, err) := redis.Get (client r) key in
  match err with
  | Some err =>
      if errors.eq_redis_Nil err
      then ret ("", Some (errors.Errorf ("key not found: " +:+ key) None))
      else
        logger.Logger.Error (logger r) "Failed to get cache value"
          [logger.String "key" key; logger.Error err] ;;
        ret ("", Some (errors.Wrap "failed to get cache value: " err))
  | None => ret (val, None)
  end.

Definition Delete (key : string) : State S error :=
  let* cmd := redis.Del (client r) key in
  match redis.Err cmd with
  | Some err =>
      logger.Logger.Error (logger r) "Failed to delete cache value"
        [logger.String "key" key; logger.Error err] ;;
      ret (Some (errors.Wrap "failed to delete cache value: " err))
  | None => ret None
  end.

Definition Exists (key : string) : State S (bool * error) :=
  let* (count, err) := redis.Exists (client r) key in
  match err with
  | Some err =>
      logger.Logger.Error (logger r) "Failed to check key existence"
        [logger.String "key" key; logger.Error err] ;;
      ret (false, Some (errors.Wrap "failed to check key existence: " err))
  | None => ret (0 <? count, None)
  end.

Definition SetNX (key : string) (value : any) (ttl : time.Duration) : State S (bool * error) :=
  match marshal value with
  | (_, Some err) => ret (false, Some (errors.Wrap "failed to marshal value: " err))
  | (data, None) =>
      let* (success, err) := redis.SetNX (client r) key data ttl in
      match err with
      | Some err =>
          logger.Logger.Error (logger r) "Failed to set cache value with SetNX"
            [logger.String "key" key; logger.Error err] ;;
          ret (false, Some (errors.Wrap "failed to set cache value with SetNX: " err))
      | None => ret (success, None)
      end
  end.

Definition Increment (key : string) : State S (Z * error) :=
  let* (val, err) := redis.Incr (client r) key in
  match err with
  | Some err =>
      logger.Logger.Error (logger r) "Failed to increment cache value"
        [logger.String "key" key; logger.Error err] ;;
      ret (0, Some (errors.Wrap "failed to increment cache value: " err))
  | None => ret (val, None)
  end.

Definition IncrementWithTTL (key : string) (ttl : time.Duration) : State S (Z * error) :=
  let* (incrCmd, expireCmd, err) :=
    redis.Exec2 (redis.Incr (client r) key) (redis.Expire (client r) key ttl) in
  match err with
  | Some err =>
      logger.Logger.Error (logger r) "Failed to increment with TTL"
        [logger.String "key" key; logger.Error err] ;;
      ret (0, Some (errors.Wrap "failed to increment with TTL: " err))
  | None =>
      let '(val, err) := redis.Result incrCmd in
      match err with
      | Some err => ret (0, Some (errors.Wrap "failed to get increment result: " err))
      | None =>
          (match redis.Err expireCmd with
           | Some err =>
               logger.Logger.Warn (logger r) "Failed to set TTL after increment"
                 [logger.String "key" key; logger.Error err]
           | None => ret tt
           end) ;;
          ret (val, None)
      end
  end.

Definition Close : State S error :=
  let* err := redis.Close (client r) in
  match err with
  | Some err =>
      logger.Logger.Error (logger r) "Failed to close Redis connection" [logger.Error err] ;;
      ret (Some (errors.Wrap "failed to close Redis connection: " err))
  | None =>
      logger.Logger.Info (logger r) "Redis connection closed" [] ;;
      ret None
  end.

Definition Ping : State S error :=
  let* cmd := redis.Ping (client r) in
  match redis.Err cmd with
  | Some err =>
      logger.Logger.Error (logger r) "Redis ping failed" [logger.Error err] ;;
      ret (Some (errors.Wrap "Redis ping failed: " err))
  | None => ret None
  end.

End Methods.

(** [*redisCache] implements [Cache]. *)
Definition as_Cache {S} (r : t S) : Cache.t S :=
  {| Cache.Set_ := Set_ r;
     Cache.Get := Get r;
     Cache.Delete := Delete r;
     Cache.Exists := Exists r;
     Cache.SetNX := SetNX r;
     Cache.Increment := Increment r;
     Cache.IncrementWithTTL := IncrementWithTTL r;
     Cache.Close := Close r;
     Cache.Ping := Ping r |}.

End redisCache.

(** ** The facade: jwtCache (internal/cache/jwt.go) *)

Module jwtCache.

Record t (S : Type) := {
  cache : Cache.t S;
  logger : logger.Logger.t S
}.
Arguments cache {S} _.
Arguments logger {S} _.

Definition NewJWTCache {S} (cache : Cache.t S) (l : logger.Logger.t S) : t S :=
  {| cache := cache; logger := l |}.

Section Methods.
Context {S : Type} `{time.Clock S} (j : t S).

(** [time.Until(expiresAt)], reading the process clock. *)
Definition time_Until (expiresAt : time.Time) : State S time.Duration :=
  fun s => (time.Until (time.Now s) expiresAt, s).

Definition BlacklistToken (tokenID : string) (expiresAt : time.Time) : State S error :=
  let key := TokenBlacklistPrefix +:+ tokenID in
  let* ttl := time_Until expiresAt in
  if ttl <=? 0 then
    logger.Logger.Debug (logger j) "Token already expired, not adding to blacklist"
      [logger.String "token_id" tokenID] ;;
    ret None
  else
    let* err := Cache.Set_ (cache j) key (any_string "blacklisted") ttl in
    match err with
    | Some err =>
        logger.Logger.Error (logger j) "Failed to blacklist token"
          [logger.String "token_id" tokenID; logger.Error err] ;;
        ret (Some (errors.Wrap "failed to blacklist token: " err))
    | None =>
        logger.Logger.Info (logger j) "Token blacklisted"
          [logger.String "token_id" tokenID;
           {| logger.Key := "ttl"; logger.Value := logger.DurationString ttl |}] ;;
        ret None
    end.

Definition IsTokenBlacklisted (tokenID : string) : State S (bool * error) :=
  let key := TokenBlacklistPrefix +:+ tokenID in
  let* (exists_, err) := Cache.Exists (cache j) key in
  match err with
  | Some err =>
      logger.Logger.Error (logger j) "Failed to check token blacklist status"
        [logger.String "token_id" tokenID; logger.Error err] ;;
      ret (false, Some (errors.Wrap "failed to check token blacklist status: " err))
  | None => ret (exists_, None)
  end.

Definition LogIPAttempt (userID ipAddress : string) : State S error :=
  let key := IPAttemptPrefix +:+ userID +:+ ":" +:+ ipAddress in
  let ttl := 24 * time.Hour in
  let* (count, err) := Cache.IncrementWithTTL (cache j) key ttl in
  match err with
  | Some err =>
      logger.Logger.Error (logger j) "Failed to log IP attempt"
        [logger.String "user_id" userID; logger.String "ip" ipAddress; logger.Error err] ;;
      ret (Some (errors.Wrap "failed to log IP attempt: " err))
  | None =>
      logger.Logger.Info (logger j) "IP attempt logged"
        [logger.String "user_id" userID; logger.String "ip" ipAddress;
         logger.Int "attempts" count] ;;
      ret None
  end.

Definition GetIPAttempts (userID ipAddress : string) : State S (Z * error) :=
  let key := IPAttemptPrefix +:+ userID +:+ ":" +:+ ipAddress in
  let* (val, err) := Cache.Get (cache j) key in
  match err with
  | Some err =>
      if String.eqb (errors.Error err) ("key not found: " +:+ key)
      then ret (0, None)
      else
        logger.Logger.Error (logger j) "Failed to get IP attempts"
          [logger.String "user_id" userID; logger.String "ip" ipAddress; logger.Error err] ;;
        ret (0, Some (errors.Wrap "failed to get IP attempts: " err))
  | None =>
      let (count, err) := strconv.ParseInt val in
      match err with
      | Some err =>
          logger.Logger.Error (logger j) "Failed to parse IP attempts count"
            [logger.String "value" val; logger.Error err] ;;
          ret (0, Some (errors.Wrap "failed to parse IP attempts count: " err))
      | None => ret (count, None)
      end
  end.

Definition BlacklistUser (userID : string) (duration : time.Duration) : State S error :=
  let key := UserBlacklistPrefix +:+ userID in
  let* err := Cache.Set_ (cache j) key (any_string "blacklisted") duration in
  match err with
  | Some err =>
      logger.Logger.Error (logger j) "Failed to blacklist user"
        [logger.String "user_id" userID; logger.Error err] ;;
      ret (Some (errors.Wrap "failed to blacklist user: " err))
  | None =>
      logger.Logger.Info (logger j) "User blacklisted"
        [logger.String "user_id" userID;
         {| logger.Key := "duration"; logger.Value := logger.DurationString duration |}] ;;
      ret None
  end.

Definition IsUserBlacklisted (userID : string) : State S (bool * error) :=
  let key := UserBlacklistPrefix +:+ userID in
  let* (exists_, err) := Cache.Exists (cache j) key in
  match err with
  | Some err =>
      logger.Logger.Error (logger j) "Failed to check user blacklist status"
        [logger.String "user_id" userID; logger.Error err] ;;
      ret (false, Some (errors.Wrap "failed to check user blacklist status: " err))
  | None => ret (exists_, None)
  end.

End Methods.

End jwtCache.

(** ** An in-memory key-value server

    The store the adapter talks to, in the manner of the server the
    adapter's tests run against: keys holding a text and an optional
    deadline, a clock that can be moved forward, and a script [wire] giving,
    for each coming command, whether the transport loses it ([Some err]) or
    delivers it ([None]; an exhausted script delivers everything).  A
    command carries its time to live in the unit the client sent it in. *)

Module miniredis.

Record Entry := { data : string; deadline : option time.Time }.

Record World := {
  clock : time.Time;
  keys : gmap string Entry;
  wire : list error;
  log : list logger.Entry
}.

Definition set_keys (ks : gmap string Entry) (w : World) : World :=
  {| clock := clock w; keys := ks; wire := wire w; log := log w |}.

Definition set_wire (wr : list error) (w : World) : World :=
  {| clock := clock w; keys := keys w; wire := wr; log := log w |}.

Definition write_log (e : logger.Entry) (w : World) : World :=
  {| clock := clock w; keys := keys w; wire := wire w; log := log w ++ [e] |}.

(** [FastForward]: time passes. *)
Definition FastForward (d : time.Duration) (w : World) : World :=
  {| clock := clock w + d; keys := keys w; wire := wire w; log := log w |}.

#[global] Instance World_Clock : time.Clock World := clock.

(** An entry is gone once the clock has reached its deadline. *)
Definition expired (now : time.Time) (e : Entry) : bool :=
  match deadline e with
  | Some d => d <=? now
  | None => false
  end.

(** The entry a command finds under a key. *)
Definition live (w : World) (key : string) : option Entry :=
  match keys w !! key with
  | Some e => if expired (clock w) e then None else Some e
  | None => None
  end.

(** One round trip: the transport fails the command, or the server runs it. *)
Definition roundtrip {A} (zero : A) (serve : State World (A * error)) : State World (A * error) :=
  fun w =>
    match wire w with
    | Some err :: rest => ((zero, Some err), set_wire rest w)
    | None :: rest => serve (set_wire rest w)
    | [] => serve w
    end.

(** The integer a stored text denotes for INCR: a 64-bit integer in its
    canonical decimal form (no plus sign, no leading zero). *)
Definition string2ll (s : string) : option Z :=
  match strconv.ParseInt s with
  | (n, None) => if String.eqb (pretty n) s then Some n else None
  | (_, Some _) => None
  end.

(** The reply to an expiry that is not positive, in the wording of the
    current server. *)
Definition invalid_expire_time : errors.err :=
  errors.RedisError "ERR invalid expire time in 'set' command".

(** The deadline an expiry of SET gives the key [key]; the server refuses
    a time that is not positive. *)
Definition deadline_of (ex : redis.expiry) (key : string) (w : World)
  : option time.Time + errors.err :=
  match ex with
  | redis.PX ms =>
      if ms <=? 0 then inr invalid_expire_time
      else inl (Some (clock w + ms * time.Millisecond))
  | redis.EX s =>
      if s <=? 0 then inr invalid_expire_time
      else inl (Some (clock w + s * time.Second))
  | redis.KEEPTTL => inl (match live w key with Some e => deadline e | None => None end)
  | redis.persistent => inl None
  end.

(** SET key value [PX ms | EX s | KEEPTTL]. *)
Definition SET (key value : string) (ex : redis.expiry) : State World (string * error) :=
  fun w =>
    match deadline_of ex key w with
    | inr e => (("", Some e), w)
    | inl dl =>
        (("OK", None), set_keys (<[key := {| data := value; deadline := dl |}]> (keys w)) w)
    end.

Definition GET (key : string) : State World (string * error) :=
  fun w =>
    match live w key with
    | Some e => ((data e, None), w)
    | None => (("", Some redis_Nil), w)
    end.

Definition DEL (key : string) : State World (Z * error) :=
  fun w =>
    match live w key with
    | Some _ => ((1, None), set_keys (delete key (keys w)) w)
    | None => ((0, None), set_keys (delete key (keys w)) w)
    end.

Definition EXISTS (key : string) : State World (Z * error) :=
  fun w =>
    match live w key with
    | Some _ => ((1, None), w)
    | None => ((0, None), w)
    end.

(** SETNX key value, and SET key value [PX ms | EX s | KEEPTTL] NX: the
    expiry is checked before the key is looked at. *)
Definition SETNX (key value : string) (ex : redis.expiry) : State World (bool * error) :=
  fun w =>
    match deadline_of ex key w with
    | inr e => ((false, Some e), w)
    | inl dl =>
        match live w key with
        | Some _ => ((false, None), w)
        | None =>
            ((true, None), set_keys (<[key := {| data := value; deadline := dl |}]> (keys w)) w)
        end
    end.

Definition INCR (key : string) : State World (Z * error) :=
  fun w =>
    match live w key with
    | None =>
        ((1, None), set_keys (<[key := {| data := "1"; deadline := None |}]> (keys w)) w)
    | Some e =>
        match string2ll (data e) with
        | None => ((0, Some (errors.RedisError "ERR value is not an integer or out of range")), w)
        | Some n =>
            if 2 ^ 63 - 1 <=? n
            then ((0, Some (errors.RedisError "ERR increment or decrement would overflow")), w)
            else ((n + 1, None),
                  set_keys (<[key := {| data := pretty (n + 1); deadline := deadline e |}]> (keys w)) w)
        end
    end.

(** EXPIRE key seconds: a time that is not positive removes the key. *)
Definition EXPIRE (key : string) (seconds : Z) : State World (bool * error) :=
  fun w =>
    match live w key with
    | Some e =>
        if seconds <=? 0 then ((true, None), set_keys (delete key (keys w)) w)
        else
          ((true, None),
           set_keys (<[key := {| data := data e;
                                 deadline := Some (clock w + seconds * time.Second) |}]>
                       (keys w)) w)
    | None => ((false, None), w)
    end.

Definition PING : State World (string * error) := ret ("PONG", None).

(** The client connected to this server: [Set] and [SetNX] send their
    expiration as PX or EX, [Expire] sends whole seconds. *)
Definition client : redis.Client World :=
  {| redis.Set_ := fun key value ttl => roundtrip "" (SET key value (redis.Set_expiry ttl));
     redis.Get := fun key => roundtrip "" (GET key);
     redis.Del := fun key => roundtrip 0 (DEL key);
     redis.Exists := fun key => roundtrip 0 (EXISTS key);
     redis.SetNX := fun key value ttl =>
       roundtrip false (SETNX key value (redis.SetNX_expiry ttl));
     redis.Incr := fun key => roundtrip 0 (INCR key);
     redis.Expire := fun key ttl => roundtrip false (EXPIRE key (redis.formatSec ttl));
     redis.Ping := roundtrip "" PING;
     redis.Close := ret None |}.

Definition logger : logger.Logger.t World := logger.sink write_log.

(** The adapter and the facade wired as in production: the facade over the
    adapter over the client. *)
Definition cache : redisCache.t World :=
  {| redisCache.client := client; redisCache.logger := logger |}.

Definition jwt : jwtCache.t World :=
  jwtCache.NewJWTCache (redisCache.as_Cache cache) logger.

(** A server just started, at time [now]. *)
Definition start (now : time.Time) : World :=
  {| clock := now; keys := ∅; wire := []; log := [] |}.

End miniredis.

(** ** The recording cache of the facade's tests

    [mockCache] answers every call with the value configured for it ([On])
    and records the call. *)

Module mockCache.

Inductive Call :=
| Set_ (key : string) (value : any) (ttl : time.Duration)
| Get (key : string)
| Delete (key : string)
| Exists (key : string)
| SetNX (key : string) (value : any) (ttl : time.Duration)
| Increment (key : string)
| IncrementWithTTL (key : string) (ttl : time.Duration)
| Close
| Ping.

(** What a configured call returns: the values of [args.String(0)],
    [args.Bool(0)], [args.Get(0).(int64)] and the error. *)
Record Return := { String_ : string; Bool_ : bool; Int64_ : Z; Error_ : error }.

Record Mock := { now : time.Time; Calls : list Call }.

#[global] Instance Mock_Clock : time.Clock Mock := now.

Definition Called (c : Call) : State Mock unit :=
  fun m => (tt, {| now := now m; Calls := Calls m ++ [c] |}).

Definition cache (On : Call -> Return) : Cache.t Mock :=
  {| Cache.Set_ := fun key value ttl =>
       Called (Set_ key value ttl) ;; ret (Error_ (On (Set_ key value ttl)));
     Cache.Get := fun key =>
       Called (Get key) ;; ret (String_ (On (Get key)), Error_ (On (Get key)));
     Cache.Delete := fun key =>
       Called (Delete key) ;; ret (Error_ (On (Delete key)));
     Cache.Exists := fun key =>
       Called (Exists key) ;; ret (Bool_ (On (Exists key)), Error_ (On (Exists key)));
     Cache.SetNX := fun key value ttl =>
       Called (SetNX key value ttl) ;;
       ret (Bool_ (On (SetNX key value ttl)), Error_ (On (SetNX key value ttl)));
     Cache.Increment := fun key =>
       Called (Increment key) ;; ret (Int64_ (On (Increment key)), Error_ (On (Increment key)));
     Cache.IncrementWithTTL := fun key ttl =>
       Called (IncrementWithTTL key ttl) ;;
       ret (Int64_ (On (IncrementWithTTL key ttl)), Error_ (On (IncrementWithTTL key ttl)));
     Cache.Close := Called Close ;; ret (Error_ (On Close));
     Cache.Ping := Called Ping ;; ret (Error_ (On Ping)) |}.

(** [SetupJWTCache]: the facade over the mock, with the silent logger. *)
Definition SetupJWTCache (On : Call -> Return) : jwtCache.t Mock :=
  {| jwtCache.cache := cache On; jwtCache.logger := logger.mockLogger |}.

(** The key a recorded call addresses. *)
Definition key_of (c : Call) : option string :=
  match c with
  | Set_ key _ _ | Get key | Delete key | Exists key | SetNX key _ _
  | Increment key | IncrementWithTTL key _ => Some key
  | Close | Ping => None
  end.

End mockCache.

(** ** internal/repository/models: RefreshToken *)

Module models.

Record RefreshToken := {
  ID : Z;
  UserID : string;
  TokenHash : string;
  UserAgent : string;
  IPAddress : string;
  CreatedAt : time.Time;
  ExpiresAt : time.Time;
  IsUsed : bool;
  UpdatedAt : time.Time
}.

(** [&models.RefreshToken{}] *)
Definition zero : RefreshToken :=
  {| ID := 0; UserID := ""; TokenHash := ""; UserAgent := ""; IPAddress := "";
     CreatedAt := 0; ExpiresAt := 0; IsUsed := false; UpdatedAt := 0 |}.

End models.

(** ** The statements of the repository, as SQL syntax

    The query texts of [refreshTokenRepo] are constants of this syntax.  A
    row is the image of the struct under its [db] tags, so a column is one
    of the nine tags. *)

Module sql.

Inductive column :=
| id | user_id | token_hash | user_agent | ip_address
| created_at | expires_at | is_used | updated_at.

Definition name (c : column) : string :=
  match c with
  | id => "id" | user_id => "user_id" | token_hash => "token_hash"
  | user_agent => "user_agent" | ip_address => "ip_address"
  | created_at => "created_at" | expires_at => "expires_at"
  | is_used => "is_used" | updated_at => "updated_at"
  end.

Definition all_columns : list column :=
  [id; user_id; token_hash; user_agent; ip_address; created_at; expires_at; is_used; updated_at].

Inductive value :=
| Int (n : Z)
| Text (s : string)
| Timestamp (t : time.Time)
| Boolean (b : bool).

Abbreviation Row := models.RefreshToken.

(** The field of a row a column names. *)
Definition get (c : column) (r : Row) : value :=
  match c with
  | id => Int (models.ID r)
  | user_id => Text (models.UserID r)
  | token_hash => Text (models.TokenHash r)
  | user_agent => Text (models.UserAgent r)
  | ip_address => Text (models.IPAddress r)
  | created_at => Timestamp (models.CreatedAt r)
  | expires_at => Timestamp (models.ExpiresAt r)
  | is_used => Boolean (models.IsUsed r)
  | updated_at => Timestamp (models.UpdatedAt r)
  end.

(** Storing a value in a column; [None] when the value is not of the
    column's type. *)
Definition assign (c : column) (v : value) (r : Row) : option Row :=
  let '(models.Build_RefreshToken i u th ua ip ca ea iu upd) := r in
  match c, v with
  | id, Int n => Some (models.Build_RefreshToken n u th ua ip ca ea iu upd)
  | user_id, Text s => Some (models.Build_RefreshToken i s th ua ip ca ea iu upd)
  | token_hash, Text s => Some (models.Build_RefreshToken i u s ua ip ca ea iu upd)
  | user_agent, Text s => Some (models.Build_RefreshToken i u th s ip ca ea iu upd)
  | ip_address, Text s => Some (models.Build_RefreshToken i u th ua s ca ea iu upd)
  | created_at, Timestamp t => Some (models.Build_RefreshToken i u th ua ip t ea iu upd)
  | expires_at, Timestamp t => Some (models.Build_RefreshToken i u th ua ip ca t iu upd)
  | is_used, Boolean b => Some (models.Build_RefreshToken i u th ua ip ca ea b upd)
  | updated_at, Timestamp t => Some (models.Build_RefreshToken i u th ua ip ca ea iu t)
  | _, _ => None
  end.

Inductive expr :=
| Col (c : column)          (* a column of the row at hand *)
| Arg (n : nat)             (* $1, $2, ...: the n-th bound argument *)
| Named (c : column)        (* :user_id, ...: a field of the bound struct *)
| NOW                       (* NOW(): the clock of the store *)
| Const (v : value).        (* true, false *)

Inductive cond :=
| Eq (a b : expr)
| Gt (a b : expr)
| Lt (a b : expr)
| And (p q : cond).

Inductive direction := ASC | DESC.

Inductive stmt :=
| INSERT_INTO (table : string) (cols : list column) (VALUES : list expr) (RETURNING : list column)
| SELECT (cols : list column) (FROM : string) (WHERE : cond)
         (ORDER_BY : option (column * direction)) (LIMIT : option nat)
| UPDATE (table : string) (SET : list (column * expr)) (WHERE : cond)
| DELETE_FROM (table : string) (WHERE : cond).

(** What a statement is bound with: the positional arguments and, for a
    named statement, the struct. *)
Record binding := { args : list value; named : Row }.

Definition eval (now : time.Time) (b : binding) (r : Row) (e : expr) : option value :=
  match e with
  | Col c => Some (get c r)
  | Arg n => args b !! Nat.pred n
  | Named c => Some (get c (named b))
  | NOW => Some (Timestamp now)
  | Const v => Some v
  end.

Definition value_eqb (x y : value) : bool :=
  match x, y with
  | Int a, Int b => a =? b
  | Text a, Text b => String.eqb a b
  | Timestamp a, Timestamp b => a =? b
  | Boolean a, Boolean b => Bool.eqb a b
  | _, _ => false
  end.

Definition value_ltb (x y : value) : bool :=
  match x, y with
  | Int a, Int b => a <? b
  | Text a, Text b => String.ltb a b
  | Timestamp a, Timestamp b => a <? b
  | Boolean a, Boolean b => negb a && b
  | _, _ => false
  end.

Definition compare2 (f : value -> value -> bool) (x y : option value) : bool :=
  match x, y with
  | Some a, Some b => f a b
  | _, _ => false
  end.

(** Whether a row satisfies a WHERE clause. *)
Fixpoint holds (now : time.Time) (b : binding) (w : cond) (r : Row) : bool :=
  match w with
  | Eq x y => compare2 value_eqb (eval now b r x) (eval now b r y)
  | Gt x y => compare2 value_ltb (eval now b r y) (eval now b r x)
  | Lt x y => compare2 value_ltb (eval now b r x) (eval now b r y)
  | And p q => holds now b p r && holds now b q r
  end.

(** ORDER BY: [comes_first d c x y] when row [x] may precede row [y]. *)
Definition comes_first (d : direction) (c : column) (x y : Row) : bool :=
  match d with
  | ASC => negb (value_ltb (get c y) (get c x))
  | DESC => negb (value_ltb (get c x) (get c y))
  end.

Definition precedes (d : direction) (c : column) : relation Row :=
  fun x y => comes_first d c x y = true.

#[global] Instance precedes_dec d c x y : Decision (precedes d c x y).
Proof. unfold precedes. apply _. Defined.

Definition order_by (o : option (column * direction)) (rs : list Row) : list Row :=
  match o with
  | Some (c, d) => merge_sort (precedes d c) rs
  | None => rs
  end.

Definition limit (l : option nat) (rs : list Row) : list Row :=
  match l with
  | Some n => take n rs
  | None => rs
  end.

(** The columns and the table a statement mentions. *)
Definition expr_columns (e : expr) : list column :=
  match e with Col c => [c] | _ => [] end.

Fixpoint cond_columns (w : cond) : list column :=
  match w with
  | Eq a b | Gt a b | Lt a b => expr_columns a ++ expr_columns b
  | And p q => cond_columns p ++ cond_columns q
  end.

Definition stmt_columns (q : stmt) : list column :=
  match q with
  | INSERT_INTO _ cols _ returning => cols ++ returning
  | SELECT cols _ w o _ =>
      cols ++ cond_columns w ++ match o with Some (c, _) => [c] | None => [] end
  | UPDATE _ sets w => map fst sets ++ flat_map (fun s => expr_columns (snd s)) sets ++ cond_columns w
  | DELETE_FROM _ w => cond_columns w
  end.

Definition stmt_table (q : stmt) : string :=
  match q with
  | INSERT_INTO t _ _ _ | SELECT _ t _ _ _ | UPDATE t _ _ | DELETE_FROM t _ => t
  end.

(** Data definition: a column of CREATE TABLE. *)
Inductive default := NoDefault | SERIAL | DEFAULT_NOW | DEFAULT_FALSE.

Record ColumnDef := { col_name : string; col_type : string; col_default : default }.

Record CreateTable := { table_name : string; table_columns : list ColumnDef }.

End sql.

(** ** The database handle (github.com/jmoiron/sqlx, golang-migrate)

    What [refreshTokenRepo] calls on its [*sqlx.DB]: each method takes the
    statement and what it is bound with, and returns what the Go method
    returns (for GetContext and SelectContext, the destination after the
    scan). *)

Module sqlx.

(** [sql.Result]: only RowsAffected is read. *)
Record Result := { RowsAffected : Z * error }.

(** [*sqlx.Row]: the row a query returned under its column names, or the
    error met in getting it. *)
Record Row := { columns : list sql.column; values : sql.Row; err : error }.

(** The errors of [rows.Scan].  The text the conversion itself reports
    depends on the Go types at hand and is kept short. *)
Definition wrong_destinations (columns dest : nat) : errors.err :=
  errors.New ("sql: expected " +:+ pretty columns +:+ " destination arguments in Scan, not "
              +:+ pretty dest).

Definition conversion_error : errors.err := errors.New "unsupported Scan".

Definition scan_error (i : nat) (c : sql.column) : errors.err :=
  errors.Errorf ("sql: Scan error on column index " +:+ pretty i +:+ ", name "
                 +:+ errors.quote +:+ sql.name c +:+ errors.quote +:+ ": "
                 +:+ errors.Error conversion_error)
    (Some conversion_error).

(** The loop of [rows.Scan]: the i-th returned column goes to the i-th
    destination, each destination being the field of [token] that the given
    tag names.  The first value that does not convert ends the loop with an
    error; the destinations before it keep what they were given. *)
Fixpoint scan (i : nat) (cols dest : list sql.column) (src token : sql.Row)
  : sql.Row * error :=
  match cols, dest with
  | c :: cols', d :: dest' =>
      match sql.assign d (sql.get c src) token with
      | Some token' => scan (S i) cols' dest' src token'
      | None => (token, Some (scan_error i c))
      end
  | _, _ => (token, None)
  end.

(** [row.Scan(dest...)]: the error the row carries, else [rows.Scan], which
    refuses a wrong number of destinations before it assigns anything. *)
Definition Scan (row : Row) (dest : list sql.column) (token : sql.Row) : sql.Row * error :=
  match err row with
  | Some e => (token, Some e)
  | None =>
      if negb (length dest =? length (columns row))%nat
      then (token, Some (wrong_destinations (length (columns row)) (length dest)))
      else scan 0 (columns row) dest (values row) token
  end.

(** [StructScan]: every returned column goes to the field carrying its tag. *)
Definition StructScan (row : Row) (token : sql.Row) : sql.Row * error :=
  Scan row (columns row) token.

Record NamedStmt (S : Type) := {
  QueryRowxContext : sql.Row -> State S Row
}.
Arguments QueryRowxContext {S} _ _.

Record DB (S : Type) := {
  PrepareNamedContext : sql.stmt -> State S (NamedStmt S * error);
  GetContext : sql.Row -> sql.stmt -> list sql.value -> State S (sql.Row * error);
  SelectContext : sql.stmt -> list sql.value -> State S (list sql.Row * error);
  ExecContext : sql.stmt -> list sql.value -> State S (Result * error);
  Close : State S error;
  (* golang-migrate, reached through the handle *)
  postgres_WithInstance : State S error;
  migrate_NewWithDatabaseInstance : string -> State S error;
  migrate_Up : State S error
}.
Arguments PrepareNamedContext {S} _ _.
Arguments GetContext {S} _ _ _ _.
Arguments SelectContext {S} _ _ _.
Arguments ExecContext {S} _ _ _.
Arguments Close {S} _.
Arguments postgres_WithInstance {S} _.
Arguments migrate_NewWithDatabaseInstance {S} _ _.
Arguments migrate_Up {S} _.

End sqlx.

(** ** The repository: refreshTokenRepo *)

Module refreshTokenRepo.

Import sql.

(** The struct; its [cfg] field is read by no method and is left out. *)
Record t (S : Type) := {
  db : sqlx.DB S;
  l : logger.Logger.t S
}.
Arguments db {S} _.
Arguments l {S} _.

(** The query texts. *)

Definition Create_query : stmt :=
  INSERT_INTO "refresh_tokens" [user_id; token_hash; user_agent; ip_address; expires_at]
    [Named user_id; Named token_hash; Named user_agent; Named ip_address; Named expires_at]
    [id; created_at; updated_at].

Definition GetActiveByUserID_query : stmt :=
  SELECT [id; user_id; token_hash; user_agent; ip_address; created_at; expires_at; is_used; updated_at]
    "refresh_tokens"
    (And (And (Eq (Col user_id) (Arg 1)) (Gt (Col expires_at) NOW))
         (Eq (Col is_used) (Const (Boolean false))))
    (Some (created_at, DESC))
    (Some 1%nat).

Definition GetByID_query : stmt :=
  SELECT [id; user_id; token_hash; user_agent; ip_address; created_at; expires_at; is_used; updated_at]
    "refresh_tokens"
    (Eq (Col id) (Arg 1))
    None None.

Definition MarkAsUsed_query : stmt :=
  UPDATE "refresh_tokens"
    [(is_used, Const (Boolean true)); (updated_at, NOW)]
    (Eq (Col id) (Arg 1)).

Definition DeleteAllByUserID_query : stmt :=
  DELETE_FROM "refresh_tokens" (Eq (Col user_id) (Arg 1)).

Definition Delete_query : stmt :=
  DELETE_FROM "refresh_tokens" (Eq (Col id) (Arg 1)).

Definition CleanExpired_query : stmt :=
  DELETE_FROM "refresh_tokens" (Lt (Col expires_at) NOW).

Definition GetAllActiveByUserID_query : stmt :=
  SELECT [id; user_id; token_hash; user_agent; ip_address; created_at; expires_at; is_used; updated_at]
    "refresh_tokens"
    (And (And (Eq (Col user_id) (Arg 1)) (Gt (Col expires_at) NOW))
         (Eq (Col is_used) (Const (Boolean false))))
    (Some (created_at, DESC))
    None.

(** Every statement the repository issues. *)
Definition queries : list stmt :=
  [Create_query; GetActiveByUserID_query; GetByID_query; MarkAsUsed_query;
   DeleteAllByUserID_query; Delete_query; CleanExpired_query; GetAllActiveByUserID_query].

Section Methods.
Context {S : Type} (r : t S).

Definition Close : State S error := sqlx.Close (db r).

Definition RunMigrations (migrationsPath : string) : State S error :=
  let* err := sqlx.postgres_WithInstance (db r) in
  match err with
  | Some err => ret (Some err)
  | None =>
      let* err := sqlx.migrate_NewWithDatabaseInstance (db r) ("file://" +:+ migrationsPath) in
      match err with
      | Some err => ret (Some err)
      | None =>
          let* err := sqlx.migrate_Up (db r) in
          match err with
          | Some err => if errors.eq_ErrNoChange err then ret None else ret (Some err)
          | None => ret None
          end
      end
  end.

(** [Create] writes the identifier and the two timestamps the store
    assigned into the caller's token: the token is returned with the
    error. *)
Definition Create (token : models.RefreshToken) : State S (models.RefreshToken * error) :=
  let* (stmt, err) := sqlx.PrepareNamedContext (db r) Create_query in
  match err with
  | Some err =>
      logger.Logger.Error (l r) "Failed to prepare query" [logger.Error err] ;;
      ret (token, Some (errors.Wrap "failed to prepare query: " err))
  | None =>
      let* row := sqlx.QueryRowxContext stmt token in
      let (token, err) := sqlx.Scan row [id; created_at; updated_at] token in
      match err with
      | Some err =>
          logger.Logger.Error (l r) "Failed to execute insert query" [logger.Error err] ;;
          ret (token, Some err)
      | None =>
          logger.Logger.Info (l r) "Refresh token created"
            [logger.Int "id" (models.ID token); logger.String "user_id" (models.UserID token)] ;;
          ret (token, None)
      end
  end.

(** The methods returning [*models.RefreshToken] return [None] for nil. *)
Definition GetActiveByUserID (userID : string) : State S (option models.RefreshToken * error) :=
  let* (token, err) := sqlx.GetContext (db r) models.zero GetActiveByUserID_query [Text userID] in
  match err with
  | Some err =>
      if errors.eq_ErrNoRows err
      then ret (None, Some (errors.Errorf ("no active refresh token found for user " +:+ userID) None))
      else ret (None, Some (errors.Wrap "failed to get refresh token: " err))
  | None => ret (Some token, None)
  end.

Definition GetByID (id : Z) : State S (option models.RefreshToken * error) :=
  let* (token, err) := sqlx.GetContext (db r) models.zero GetByID_query [Int id] in
  match err with
  | Some err =>
      if errors.eq_ErrNoRows err
      then ret (None, Some (errors.Errorf ("refresh token with id " +:+ pretty id +:+ " not found") None))
      else ret (None, Some (errors.Wrap "failed to get refresh token: " err))
  | None => ret (Some token, None)
  end.

Definition MarkAsUsed (tokenID : Z) : State S error :=
  let* (result, err) := sqlx.ExecContext (db r) MarkAsUsed_query [Int tokenID] in
  match err with
  | Some err =>
      logger.Logger.Error (l r) "Failed to mark token as used"
        [logger.Error err; logger.Int "token_id" tokenID] ;;
      ret (Some (errors.Wrap "failed to mark token as used: " err))
  | None =>
      let (rowsAffected, err) := sqlx.RowsAffected result in
      match err with
      | Some err =>
          logger.Logger.Error (l r) "Failed to get rows affected after mark as used"
            [logger.Error err] ;;
          ret (Some (errors.Wrap "failed to get rows affected: " err))
      | None =>
          if rowsAffected =? 0 then
            logger.Logger.Warn (l r) "Token not found for mark as used"
              [logger.Int "token_id" tokenID] ;;
            ret (Some (errors.Errorf ("token with id " +:+ pretty tokenID +:+ " not found") None))
          else
            logger.Logger.Info (l r) "Refresh token marked as used"
              [logger.Int "token_id" tokenID] ;;
            ret None
      end
  end.

Definition DeleteAllByUserID (userID : string) : State S error :=
  let* (_, err) := sqlx.ExecContext (db r) DeleteAllByUserID_query [Text userID] in
  match err with
  | Some err =>
      ret (Some (errors.Errorf ("failed to delete tokens for user " +:+ userID +:+ ": "
                                +:+ errors.Error err) (Some err)))
  | None => ret None
  end.

Definition Delete (tokenID : Z) : State S error :=
  let* (result, err) := sqlx.ExecContext (db r) Delete_query [Int tokenID] in
  match err with
  | Some err =>
      logger.Logger.Error (l r) "Failed to delete token"
        [logger.Error err; logger.Int "token_id" tokenID] ;;
      ret (Some (errors.Wrap "failed to delete token: " err))
  | None =>
      let (rowsAffected, err) := sqlx.RowsAffected result in
      match err with
      | Some err =>
          logger.Logger.Error (l r) "Failed to get rows affected after delete"
            [logger.Error err] ;;
          ret (Some (errors.Wrap "failed to get rows affected: " err))
      | None =>
          if rowsAffected =? 0 then
            logger.Logger.Warn (l r) "Token not found for delete"
              [logger.Int "token_id" tokenID] ;;
            ret (Some (errors.Errorf ("token with id " +:+ pretty tokenID +:+ " not found") None))
          else
            logger.Logger.Info (l r) "Refresh token deleted"
              [logger.Int "token_id" tokenID] ;;
            ret None
      end
  end.

Definition CleanExpired : State S (Z * error) :=
  let* (result, err) := sqlx.ExecContext (db r) CleanExpired_query [] in
  match err with
  | Some err => ret (0, Some (errors.Wrap "failed to clean expired tokens: " err))
  | None =>
      let (rowsAffected, err) := sqlx.RowsAffected result in
      match err with
      | Some err => ret (0, Some (errors.Wrap "failed to get rows affected: " err))
      | None => ret (rowsAffected, None)
      end
  end.

Definition GetAllActiveByUserID (userID : string) : State S (list models.RefreshToken * error) :=
  let* (tokens, err) := sqlx.SelectContext (db r) GetAllActiveByUserID_query [Text userID] in
  match err with
  | Some err =>
      ret ([], Some (errors.Errorf ("failed to get active tokens for user " +:+ userID +:+ ": "
                                    +:+ errors.Error err) (Some err)))
  | None => ret (tokens, None)
  end.

End Methods.

End refreshTokenRepo.

(** ** The migration shipped with the repository *)

Module migrations.

Import sql.

(** [CREATE TABLE jwt (...)], the one migration file. *)
Definition create_jwt : CreateTable :=
  {| table_name := "jwt";
     table_columns :=
       [ {| col_name := "id"; col_type := "SERIAL PRIMARY KEY"; col_default := SERIAL |};
         {| col_name := "user_id"; col_type := "UUID NOT NULL"; col_default := NoDefault |};
         {| col_name := "token_hash"; col_type := "VARCHAR(255) NOT NULL"; col_default := NoDefault |};
         {| col_name := "user_agent"; col_type := "VARCHAR(500) NOT NULL"; col_default := NoDefault |};
         {| col_name := "ip_address"; col_type := "INET NOT NULL"; col_default := NoDefault |};
         {| col_name := "created_at"; col_type := "TIMESTAMP"; col_default := DEFAULT_NOW |};
         {| col_name := "expires_at"; col_type := "TIMESTAMP NOT NULL"; col_default := NoDefault |};
         {| col_name := "is_used"; col_type := "BOOLEAN"; col_default := DEFAULT_FALSE |} ] |}.

(** Modelled from the spec: the declaration of the table [refresh_tokens]
    that the statements of the repository address is in no source file.
    The spec gives its columns: id (auto-incrementing primary key), user_id,
    token_hash, user_agent, ip_address, created_at (default: insertion
    time), expires_at, is_used (default false), updated_at; and says of
    Create that the store assigns the identifier and the creation and
    update timestamps, so updated_at defaults to the insertion time too. *)
Definition create_refresh_tokens : CreateTable :=
  {| table_name := "refresh_tokens";
     table_columns :=
       [ {| col_name := "id"; col_type := "SERIAL PRIMARY KEY"; col_default := SERIAL |};
         {| col_name := "user_id"; col_type := "UUID NOT NULL"; col_default := NoDefault |};
         {| col_name := "token_hash"; col_type := "VARCHAR(255) NOT NULL"; col_default := NoDefault |};
         {| col_name := "user_agent"; col_type := "VARCHAR(500) NOT NULL"; col_default := NoDefault |};
         {| col_name := "ip_address"; col_type := "INET NOT NULL"; col_default := NoDefault |};
         {| col_name := "created_at"; col_type := "TIMESTAMP"; col_default := DEFAULT_NOW |};
         {| col_name := "expires_at"; col_type := "TIMESTAMP NOT NULL"; col_default := NoDefault |};
         {| col_name := "is_used"; col_type := "BOOLEAN"; col_default := DEFAULT_FALSE |};
         {| col_name := "updated_at"; col_type := "TIMESTAMP"; col_default := DEFAULT_NOW |} ] |}.

End migrations.

(** ** An in-memory relational store

    The store the repository talks to: a clock, a catalog of tables with
    their rows, the migrations not yet applied, and a script [wire] of
    transport faults as for the key-value server.  A row is typed by the
    struct, which has no NULL: a column given neither a value nor a default
    is refused on insertion. *)

Module postgres.

Import sql.

Record Table := { columns : list ColumnDef; rows : list Row; serial : Z }.

Record DB := {
  now : time.Time;
  tables : gmap string Table;
  pending : list CreateTable;
  wire : list error;
  log : list logger.Entry
}.

Definition set_tables (ts : gmap string Table) (d : DB) : DB :=
  {| now := now d; tables := ts; pending := pending d; wire := wire d; log := log d |}.

Definition set_pending (p : list CreateTable) (d : DB) : DB :=
  {| now := now d; tables := tables d; pending := p; wire := wire d; log := log d |}.

Definition set_wire (wr : list error) (d : DB) : DB :=
  {| now := now d; tables := tables d; pending := pending d; wire := wr; log := log d |}.

Definition write_log (e : logger.Entry) (d : DB) : DB :=
  {| now := now d; tables := tables d; pending := pending d; wire := wire d; log := log d ++ [e] |}.

(** Time passes. *)
Definition tick (dt : time.Duration) (d : DB) : DB :=
  {| now := now d + dt; tables := tables d; pending := pending d; wire := wire d; log := log d |}.

Definition roundtrip {A} (zero : A) (serve : State DB (A * error)) : State DB (A * error) :=
  fun d =>
    match wire d with
    | Some err :: rest => ((zero, Some err), set_wire rest d)
    | None :: rest => serve (set_wire rest d)
    | [] => serve d
    end.

Definition undefined_table (t : string) : errors.err :=
  errors.New ("pq: relation " +:+ errors.quote +:+ t +:+ errors.quote +:+ " does not exist").

Definition undefined_column (c : column) : errors.err :=
  errors.New ("pq: column " +:+ errors.quote +:+ name c +:+ errors.quote +:+ " does not exist").

Definition has_column (t : Table) (c : column) : bool :=
  existsb (fun d => String.eqb (col_name d) (name c)) (columns t).

(** Name resolution: the table of the statement with every column it
    mentions, or the error of the first name that does not resolve. *)
Definition resolve (q : stmt) (d : DB) : Table + errors.err :=
  match tables d !! stmt_table q with
  | None => inr (undefined_table (stmt_table q))
  | Some t =>
      match List.find (fun c => negb (has_column t c)) (stmt_columns q) with
      | Some c => inr (undefined_column c)
      | None => inl t
      end
  end.

Definition column_of (n : string) : option column :=
  List.find (fun c => String.eqb (name c) n) all_columns.

Definition column_eqb (a b : column) : bool := String.eqb (name a) (name b).

Definition given (c : column) (vals : list (column * option value)) : option (option value) :=
  match List.find (fun cv => column_eqb (fst cv) c) vals with
  | Some cv => Some (snd cv)
  | None => None
  end.

(** The row INSERT stores: for each column of the table the value given
    for it, else its default. *)
Fixpoint fill (defs : list ColumnDef) (vals : list (column * option value))
              (now : time.Time) (serial : Z) (r : Row) : option Row :=
  match defs with
  | [] => Some r
  | def :: defs' =>
      match column_of (col_name def) with
      | None => fill defs' vals now serial r
      | Some c =>
          let v :=
            match given c vals with
            | Some v => v
            | None =>
                match col_default def with
                | SERIAL => Some (Int serial)
                | DEFAULT_NOW => Some (Timestamp now)
                | DEFAULT_FALSE => Some (Boolean false)
                | NoDefault => None
                end
            end in
          match v with
          | Some v =>
              match assign c v r with
              | Some r' => fill defs' vals now serial r'
              | None => None
              end
          | None => None
          end
      end
  end.

(** The columns of a row a statement returns; the others stay zero. *)
Fixpoint project (cols : list column) (r acc : Row) : Row :=
  match cols with
  | [] => acc
  | c :: cols' =>
      match assign c (get c r) acc with
      | Some acc' => project cols' r acc'
      | None => project cols' r acc
      end
  end.

(** SET col = expr, ...: every right-hand side is read in the old row. *)
Fixpoint apply_set (now : time.Time) (b : binding) (sets : list (column * expr))
                   (old r : Row) : option Row :=
  match sets with
  | [] => Some r
  | (c, e) :: sets' =>
      match eval now b old e with
      | Some v =>
          match assign c v r with
          | Some r' => apply_set now b sets' old r'
          | None => None
          end
      | None => None
      end
  end.

Fixpoint update_rows (now : time.Time) (b : binding) (sets : list (column * expr))
                     (w : cond) (rs : list Row) : option (list Row * Z) :=
  match rs with
  | [] => Some ([], 0)
  | r :: rs' =>
      match update_rows now b sets w rs' with
      | None => None
      | Some (out, n) =>
          if holds now b w r then
            match apply_set now b sets r r with
            | Some r' => Some (r' :: out, n + 1)
            | None => None
            end
          else Some (r :: out, n)
      end
  end.

Definition with_rows (t : Table) (rs : list Row) : Table :=
  {| columns := columns t; rows := rs; serial := serial t |}.

Definition bad_value : errors.err := errors.New "pq: invalid input value".

(** Running a resolved statement on its table: the rows returned, the
    number of rows affected and the table afterwards. *)
Definition run (now : time.Time) (b : binding) (q : stmt) (t : Table)
  : (list Row * Z * Table) + errors.err :=
  match q with
  | SELECT cols _ w o l =>
      let found := limit l (order_by o (List.filter (holds now b w) (rows t))) in
      inl (map (fun r => project cols r models.zero) found, Z.of_nat (length found), t)
  | INSERT_INTO _ cols vals returning =>
      if negb (length cols =? length vals)%nat then inr bad_value
      else
        match fill (columns t) (zip cols (map (eval now b models.zero) vals))
                   now (serial t) models.zero with
        | Some r =>
            inl ([project returning r models.zero], 1,
                 {| columns := columns t; rows := rows t ++ [r]; serial := serial t + 1 |})
        | None => inr bad_value
        end
  | UPDATE _ sets w =>
      match update_rows now b sets w (rows t) with
      | Some (rs, n) => inl ([], n, with_rows t rs)
      | None => inr bad_value
      end
  | DELETE_FROM _ w =>
      inl ([], Z.of_nat (length (List.filter (holds now b w) (rows t))),
           with_rows t (List.filter (fun r => negb (holds now b w r)) (rows t)))
  end.

(** One statement sent to the store. *)
Definition statement (q : stmt) (b : binding) : State DB ((list Row * Z) * error) :=
  roundtrip ([], 0)
    (fun d =>
       match resolve q d with
       | inr e => (([], 0, Some e), d)
       | inl t =>
           match run (now d) b q t with
           | inr e => (([], 0, Some e), d)
           | inl (out, n, t') => ((out, n, None), set_tables (<[stmt_table q := t']> (tables d)) d)
           end
       end).

Definition returned_columns (q : stmt) : list column :=
  match q with
  | SELECT cols _ _ _ _ => cols
  | INSERT_INTO _ _ _ returning => returning
  | _ => []
  end.

(** The first row of a result as a [*sqlx.Row]. *)
Definition first_row (q : stmt) (res : (list Row * Z) * error) : sqlx.Row :=
  match res with
  | (_, Some e) => {| sqlx.columns := []; sqlx.values := models.zero; sqlx.err := Some e |}
  | ([], _, None) => {| sqlx.columns := []; sqlx.values := models.zero; sqlx.err := Some errors.ErrNoRows |}
  | (r :: _, _, None) => {| sqlx.columns := returned_columns q; sqlx.values := r; sqlx.err := None |}
  end.

(** PREPARE: the store resolves the names of the statement. *)
Definition prepare (q : stmt) : State DB (unit * error) :=
  roundtrip tt
    (fun d => match resolve q d with
              | inr e => ((tt, Some e), d)
              | inl _ => ((tt, None), d)
              end).

Definition create_table (c : CreateTable) (d : DB) : DB + errors.err :=
  match tables d !! table_name c with
  | Some _ =>
      inr (errors.New ("pq: relation " +:+ errors.quote +:+ table_name c +:+ errors.quote
                       +:+ " already exists"))
  | None =>
      inl (set_tables (<[table_name c := {| columns := table_columns c; rows := []; serial := 1 |}]>
                         (tables d)) d)
  end.

Fixpoint create_tables (cs : list CreateTable) (d : DB) : DB + errors.err :=
  match cs with
  | [] => inl d
  | c :: cs' =>
      match create_table c d with
      | inl d' => create_tables cs' d'
      | inr e => inr e
      end
  end.

(** [m.Up()] on the source directory the store was set up with, which
    holds the migrations of [pending] after those already applied: applies
    the pending migrations; ErrNoChange when there is none. *)
Definition Up : State DB (unit * error) :=
  roundtrip tt
    (fun d =>
       match pending d with
       | [] => ((tt, Some errors.ErrNoChange), d)
       | cs =>
           match create_tables cs d with
           | inl d' => ((tt, None), set_pending [] d')
           | inr e => ((tt, Some e), d)
           end
       end).

(** The handle connected to this store. *)
Definition handle : sqlx.DB DB :=
  {| sqlx.PrepareNamedContext := fun q =>
       let* (_, err) := prepare q in
       ret ({| sqlx.QueryRowxContext := fun arg =>
                 let* res := statement q {| args := []; named := arg |} in
                 ret (first_row q res) |}, err);
     sqlx.GetContext := fun dest q a =>
       let* res := statement q {| args := a; named := models.zero |} in
       ret (sqlx.StructScan (first_row q res) dest);
     sqlx.SelectContext := fun q a =>
       let* (res, err) := statement q {| args := a; named := models.zero |} in
       match err with
       | Some e => ret ([], Some e)
       | None => ret (fst res, None)
       end;
     sqlx.ExecContext := fun q a =>
       let* (res, err) := statement q {| args := a; named := models.zero |} in
       ret ({| sqlx.RowsAffected := (snd res, None) |}, err);
     sqlx.Close := ret None;
     sqlx.postgres_WithInstance := ret None;
     sqlx.migrate_NewWithDatabaseInstance := fun _ => ret None;
     sqlx.migrate_Up := let* (_, err) := Up in ret err |}.

Definition logger : logger.Logger.t DB := logger.sink write_log.

Definition repo : refreshTokenRepo.t DB :=
  {| refreshTokenRepo.db := handle; refreshTokenRepo.l := logger |}.

(** An empty database at time [t0], with the given migrations to apply. *)
Definition empty (t0 : time.Time) (migrations : list CreateTable) : DB :=
  {| now := t0; tables := ∅; pending := migrations; wire := []; log := [] |}.

(** The rows of [refresh_tokens], if the table exists. *)
Definition refresh_tokens (d : DB) : option (list Row) :=
  rows <$> tables d !! "refresh_tokens".

End postgres.

(** ** The logger over zap: loggerImpl

    The implementation of [Logger].  Of zap the model keeps what the
    methods rely on: a level is an integer, a core writes an entry when the
    level of the entry is at least the level its [AtomicLevel] holds at
    that moment, a tee of cores writes to each of its cores in turn, and
    [With] adds fields in front of those of every later entry.  An
    [AtomicLevel] is a pointer: it is modelled as an address into the
    levels of the state.  A writer is named by a number.  [Fatal] and
    [Panic], which end the program, and [Sync] are left out. *)

Module zapcore.

Definition Level := Z.

Definition DebugLevel : Level := -1.
Definition InfoLevel : Level := 0.
Definition WarnLevel : Level := 1.
Definition ErrorLevel : Level := 2.
Definition DPanicLevel : Level := 3.
Definition PanicLevel : Level := 4.
Definition FatalLevel : Level := 5.

(** [l.Enabled(lvl)]: [lvl >= l]. *)
Definition Enabled (l lvl : Level) : bool := l <=? lvl.

End zapcore.

Module loggerImpl.

(** An [io.Writer]. *)
Definition Writer := nat.

Definition os_Stdout : Writer := 1%nat.

(** One entry as a writer received it. *)
Record Line := {
  writer : Writer;
  lvl : zapcore.Level;
  text : string;
  fields : list logger.Field
}.

(** The struct: [level] is the address of the AtomicLevel, [cores] are the
    writers of the teed core, [context] the fields [With] has added to the
    zap logger. *)
Record t := {
  level : nat;
  cores : list Writer;
  context : list logger.Field
}.

(** The levels the AtomicLevels hold, what has been written, and the two
    package variables. *)
Record World := {
  levels : list zapcore.Level;
  output : list Line;
  globalLogger : option t;
  initOnce : bool
}.

Definition set_levels (ls : list zapcore.Level) (w : World) : World :=
  {| levels := ls; output := output w; globalLogger := globalLogger w; initOnce := initOnce w |}.

Definition write (ls : list Line) (w : World) : World :=
  {| levels := levels w; output := output w ++ ls; globalLogger := globalLogger w;
     initOnce := initOnce w |}.

Definition set_global (l : option t) (once : bool) (w : World) : World :=
  {| levels := levels w; output := output w; globalLogger := l; initOnce := once |}.

(** The program at its start. *)
Definition boot : World :=
  {| levels := []; output := []; globalLogger := None; initOnce := false |}.

(** The constants of [Level], an [int]: DebugLevel is 0, FatalLevel 5. *)
Definition code (l : logger.Level) : Z :=
  match l with
  | logger.DebugLevel => 0
  | logger.InfoLevel => 1
  | logger.WarnLevel => 2
  | logger.ErrorLevel => 3
  | logger.PanicLevel => 4
  | logger.FatalLevel => 5
  end.

Definition toZapLevel (level : Z) : zapcore.Level :=
  match level with
  | 0 => zapcore.DebugLevel
  | 1 => zapcore.InfoLevel
  | 2 => zapcore.WarnLevel
  | 3 => zapcore.ErrorLevel
  | 4 => zapcore.PanicLevel
  | 5 => zapcore.FatalLevel
  | _ => zapcore.InfoLevel
  end.

Definition convertFields (fields : list logger.Field) : list logger.Field :=
  map (fun f => {| logger.Key := logger.Key f; logger.Value := logger.Value f |}) fields.

Definition New (writers : list Writer) : State World t :=
  fun w =>
    ({| level := length (levels w); cores := writers; context := [] |},
     set_levels (levels w ++ [zapcore.InfoLevel]) w).

Definition Initialize (writers : list Writer) : State World unit :=
  fun w =>
    if initOnce w then (tt, w)
    else
      let (l, w1) := New writers w in
      (tt, set_global (Some l) true w1).

(** [None] is the nil interface. *)
Definition Global : State World (option t) :=
  fun w =>
    match globalLogger w with
    | None =>
        let (_, w1) := Initialize [os_Stdout] w in
        (globalLogger w1, w1)
    | Some l => (Some l, w)
    end.

(** [l.zapLogger.Debug(msg, ...)] and the like: the entry goes to every
    core whose level enables it. *)
Definition log (at_level : zapcore.Level) (l : t) (msg : string) (fields : list logger.Field)
  : State World unit :=
  fun w =>
    match levels w !! level l with
    | Some threshold =>
        if zapcore.Enabled threshold at_level
        then (tt, write (map (fun wr => {| writer := wr; lvl := at_level; text := msg;
                                           fields := context l ++ fields |}) (cores l)) w)
        else (tt, w)
    | None => (tt, w)
    end.

Definition Debug (l : t) (msg : string) (fields : list logger.Field) : State World unit :=
  log zapcore.DebugLevel l msg (convertFields fields).

Definition Info (l : t) (msg : string) (fields : list logger.Field) : State World unit :=
  log zapcore.InfoLevel l msg (convertFields fields).

Definition Warn (l : t) (msg : string) (fields : list logger.Field) : State World unit :=
  log zapcore.WarnLevel l msg (convertFields fields).

Definition Error (l : t) (msg : string) (fields : list logger.Field) : State World unit :=
  log zapcore.ErrorLevel l msg (convertFields fields).

Definition With (l : t) (fields : list logger.Field) : t :=
  {| level := level l; cores := cores l; context := context l ++ convertFields fields |}.

Definition SetLevel (l : t) (level : Z) : State World unit :=
  fun w => (tt, set_levels (<[loggerImpl.level l := toZapLevel level]> (levels w)) w).

(** [*loggerImpl] implements [Logger]. *)
Definition as_Logger (l : t) : logger.Logger.t World :=
  {| logger.Logger.Debug := Debug l;
     logger.Logger.Info := Info l;
     logger.Logger.Warn := Warn l;
     logger.Logger.Error := Error l |}.

(** The calls a program makes on the package, and a run of them. *)
Inductive call :=
| CallInitialize (writers : list Writer)
| CallGlobal
| CallSetLevel (l : t) (level : Z)
| CallDebug (l : t) (msg : string) (fields : list logger.Field)
| CallInfo (l : t) (msg : string) (fields : list logger.Field)
| CallWarn (l : t) (msg : string) (fields : list logger.Field)
| CallError (l : t) (msg : string) (fields : list logger.Field).

Definition perform (c : call) : State World unit :=
  match c with
  | CallInitialize writers => Initialize writers
  | CallGlobal => Global ;; ret tt
  | CallSetLevel l level => SetLevel l level
  | CallDebug l msg fields => Debug l msg fields
  | CallInfo l msg fields => Info l msg fields
  | CallWarn l msg fields => Warn l msg fields
  | CallError l msg fields => Error l msg fields
  end.

Fixpoint run (cs : list call) : State World unit :=
  match cs with
  | [] => ret tt
  | c :: cs' => perform c ;; run cs'
  end.

End loggerImpl.

(** ** Vocabulary of the properties *)

(** An error of [Cache.Get] that reports the key as not found: the text the
    facade compares against. *)
Definition reports_not_found (key : string) (err : error) : Prop :=
  exists e, err = Some e /\ errors.Error e = "key not found: " +:+ key.

(** What is left of a positive [ttl] once Set or SetNX has sent it: its
    whole milliseconds, and one millisecond when it has none. *)
Definition whole_milliseconds (ttl : time.Duration) : time.Duration :=
  Z.max time.Millisecond (ttl / time.Millisecond * time.Millisecond).

(** What is left of a positive [ttl] once Expire has sent it: its whole
    seconds, and one second when it has none. *)
Definition whole_seconds (ttl : time.Duration) : time.Duration :=
  Z.max time.Second (ttl / time.Second * time.Second).

(** The time a key still has to live on the key-value server. *)
Definition TTL (w : miniredis.World) (key : string) : option time.Duration :=
  match miniredis.keys w !! key with
  | Some e => (fun d => d - miniredis.clock w) <$> miniredis.deadline e
  | None => None
  end.

(** A server holding one counter written by another client. *)
Definition stored_zero : miniredis.World :=
  miniredis.set_keys
    (<["ip_attempt:user-1:192.168.1.1" := {| miniredis.data := "0"; miniredis.deadline := None |}]> ∅)
    (miniredis.start 0).

(** The integer a key counts on the key-value server: 0 while the key is
    absent, else the integer its text denotes. *)
Definition counter (w : miniredis.World) (key : string) : option Z :=
  match miniredis.live w key with
  | None => Some 0
  | Some e => miniredis.string2ll (miniredis.data e)
  end.

(** The not-found error of MarkAsUsed and Delete. *)
Definition token_not_found (tokenID : Z) : errors.err :=
  errors.Errorf ("token with id " +:+ pretty tokenID +:+ " not found") None.

(** The not-found error of GetActiveByUserID. *)
Definition no_active_token (userID : string) : errors.err :=
  errors.Errorf ("no active refresh token found for user " +:+ userID) None.

(** A token is active at [now]: not used, and expiring strictly later. *)
Definition active (now : time.Time) (r : models.RefreshToken) : bool :=
  (now <? models.ExpiresAt r) && negb (models.IsUsed r).

Definition owned_by (userID : string) (r : models.RefreshToken) : bool :=
  String.eqb (models.UserID r) userID.

(** A token is past its expiry at [now]. *)
Definition past_expiry (now : time.Time) (r : models.RefreshToken) : bool :=
  models.ExpiresAt r <? now.

(** What MarkAsUsed makes of a row. *)
Definition mark (now : time.Time) (r : models.RefreshToken) : models.RefreshToken :=
  {| models.ID := models.ID r; models.UserID := models.UserID r;
     models.TokenHash := models.TokenHash r; models.UserAgent := models.UserAgent r;
     models.IPAddress := models.IPAddress r; models.CreatedAt := models.CreatedAt r;
     models.ExpiresAt := models.ExpiresAt r; models.IsUsed := true;
     models.UpdatedAt := now |}.

(** A store at time [now] holding the table [refresh_tokens] with the given
    rows. *)
Definition store_with (now : time.Time) (rs : list models.RefreshToken) : postgres.DB :=
  {| postgres.now := now;
     postgres.tables :=
       {[ "refresh_tokens" :=
            {| postgres.columns := sql.table_columns migrations.create_refresh_tokens;
               postgres.rows := rs;
               postgres.serial := 1 + Z.of_nat (length rs) |} ]};
     postgres.pending := [];
     postgres.wire := [];
     postgres.log := [] |}.

(** An unused token of [userID], created at [created], expiring at
    [expires]. *)
Definition token (id : Z) (userID : string) (created expires : time.Time)
  : models.RefreshToken :=
  {| models.ID := id; models.UserID := userID; models.TokenHash := "hash";
     models.UserAgent := "agent"; models.IPAddress := "192.168.1.1";
     models.CreatedAt := created; models.ExpiresAt := expires; models.IsUsed := false;
     models.UpdatedAt := created |}.

(** The rows the SELECTs of active tokens find, before LIMIT. *)
Definition found_active (now : time.Time) (userID : string) (rs : list models.RefreshToken)
  : list models.RefreshToken :=
  merge_sort (sql.precedes sql.DESC sql.created_at)
    (List.filter (fun r => owned_by userID r && active now r) rs).

(** The database after the shipped migration has run on an empty store. *)
Definition migrated (t0 : time.Time) : postgres.DB :=
  snd (refreshTokenRepo.RunMigrations postgres.repo "migrations"
         (postgres.empty t0 [migrations.create_jwt])).

(** The shipped table under the name the statements use. *)
Definition create_jwt_renamed : sql.CreateTable :=
  {| sql.table_name := "refresh_tokens";
     sql.table_columns := sql.table_columns migrations.create_jwt |}.

(** [frames key w w1]: the state [w1] still has a transport that delivers, and
    every key other than [key] holds in [w1] what it holds in [w]. *)
Definition frames (key : string) (w w1 : miniredis.World) : Prop :=
  miniredis.wire w1 = []
  /\ forall k, k <> key -> miniredis.live w1 k = miniredis.live w k.

(** The row Create stores for [token] at time [now] under the identifier
    [serial]: the five columns of the INSERT come from the token, the
    others from the defaults of the table. *)
Definition inserted (now : time.Time) (serial : Z) (token : models.RefreshToken)
  : models.RefreshToken :=
  {| models.ID := serial; models.UserID := models.UserID token;
     models.TokenHash := models.TokenHash token; models.UserAgent := models.UserAgent token;
     models.IPAddress := models.IPAddress token; models.CreatedAt := now;
     models.ExpiresAt := models.ExpiresAt token; models.IsUsed := false;
     models.UpdatedAt := now |}.

(** The token Create hands back: the caller's token with the three scanned
    fields. *)
Definition returned (now : time.Time) (serial : Z) (token : models.RefreshToken)
  : models.RefreshToken :=
  {| models.ID := serial; models.UserID := models.UserID token;
     models.TokenHash := models.TokenHash token; models.UserAgent := models.UserAgent token;
     models.IPAddress := models.IPAddress token; models.CreatedAt := now;
     models.ExpiresAt := models.ExpiresAt token; models.IsUsed := models.IsUsed token;
     models.UpdatedAt := now |}.

(** The identifiers of a table are distinct and below its serial. *)
Definition ids_fresh (t : postgres.Table) : Prop :=
  Forall (fun r => models.ID r < postgres.serial t) (postgres.rows t)
  /\ NoDup (map models.ID (postgres.rows t)).

(** The store has the table [refresh_tokens] with the columns the spec
    gives and with fresh identifiers. *)
Definition store_ok (d : postgres.DB) : Prop :=
  exists t, postgres.tables d !! "refresh_tokens" = Some t
            /\ postgres.columns t = sql.table_columns migrations.create_refresh_tokens
            /\ ids_fresh t.

(** The not-found error of GetByID. *)
Definition refresh_token_not_found (id : Z) : errors.err :=
  errors.Errorf ("refresh token with id " +:+ pretty id +:+ " not found") None.


(** [leaves d d' t']: the store [d'] is what a delivered statement made of
    [d], with the table [t'] under [refresh_tokens]: the clock has not
    moved and the transport still delivers. *)
Definition leaves (d d' : postgres.DB) (t' : postgres.Table) : Prop :=
  postgres.wire d' = [] /\ postgres.now d' = postgres.now d
  /\ postgres.tables d' !! "refresh_tokens" = Some t'.

(** The rows MarkAsUsed leaves. *)
Definition marked (now : time.Time) (tokenID : Z) (rs : list models.RefreshToken)
  : list models.RefreshToken :=
  map (fun r => if models.ID r =? tokenID then mark now r else r) rs.

(** The rows without the identifier [tokenID]. *)
Definition without (tokenID : Z) (rs : list models.RefreshToken) : list models.RefreshToken :=
  List.filter (fun r => negb (models.ID r =? tokenID)) rs.

(** The lines one entry of the logger [l] makes, one for each of its
    writers. *)
Definition lines (l : loggerImpl.t) (at_level : zapcore.Level) (msg : string)
    (fields : list logger.Field) : list loggerImpl.Line :=
  map (fun wr => {| loggerImpl.writer := wr; loggerImpl.lvl := at_level;
                    loggerImpl.text := msg;
                    loggerImpl.fields := loggerImpl.context l ++ fields |})
    (loggerImpl.cores l).

(** What a call appends to the output. *)
Definition written_if (b : bool) (ls : list loggerImpl.Line) (w : loggerImpl.World)
  : list loggerImpl.Line :=
  loggerImpl.output w ++ (if b then ls else []).
(** A repository over a handle that prepares every statement and answers
    the prepared statement with the row [row], with the logger of the
    tests: what a driver that returns [row] for the INSERT makes of Create. *)
Definition answering (row : sqlx.Row) : refreshTokenRepo.t unit :=
  {| refreshTokenRepo.db :=
       {| sqlx.PrepareNamedContext := fun _ =>
            ret ({| sqlx.QueryRowxContext := fun _ => ret row |}, None);
          sqlx.GetContext := fun dest _ _ => ret (dest, Some errors.ErrNoRows);
          sqlx.SelectContext := fun _ _ => ret ([], None);
          sqlx.ExecContext := fun _ _ => ret ({| sqlx.RowsAffected := (0, None) |}, None);
          sqlx.Close := ret None;
          sqlx.postgres_WithInstance := ret None;
          sqlx.migrate_NewWithDatabaseInstance := fun _ => ret None;
          sqlx.migrate_Up := ret None |};
     refreshTokenRepo.l := logger.mockLogger |}.

(* ===================================================================== *)
(** * Part II: properties                                                 *)
(* ===================================================================== *)

Lemma Until_nonpos now t : time.Until now t <= 0 <-> t <= now.
Proof.
  unfold time.Until, time.Sub, time.minDuration, time.maxDuration.
  repeat case_match; lia.
Qed.

Lemma Until_exact now t :
  time.minDuration <= t - now <= time.maxDuration -> time.Until now t = t - now.
Proof.
  unfold time.Until, time.Sub, time.minDuration, time.maxDuration.
  repeat case_match; lia.
Qed.

Section Facade.
Context {S : Type} `{time.Clock S} (j : jwtCache.t S).

(** C3 (amended): the outcomes of GetIPAttempts, for every cache.  When Get
    reports the key as not found the result is 0 with no error; any other
    failure of Get gives a zero count with a non-nil error; a text that does
    not parse as a base-10 integer gives a zero count with a non-nil error;
    and 0 with no error is returned exactly when Get reports the key as not
    found or Get succeeds with a text that parses to 0. *)
Theorem GetIPAttempts_outcomes (userID ipAddress : string) (s : S) :
  let key := "ip_attempt:" +:+ userID +:+ ":" +:+ ipAddress in
  let got := fst (Cache.Get (jwtCache.cache j) key s) in
  let out := fst (jwtCache.GetIPAttempts j userID ipAddress s) in
  (reports_not_found key (snd got) -> out = (0, None)) /\
  (snd got <> None -> ~ reports_not_found key (snd got) -> fst out = 0 /\ snd out <> None) /\
  (snd got = None -> snd (strconv.ParseInt (fst got)) <> None -> fst out = 0 /\ snd out <> None) /\
  (out = (0, None) <->
     reports_not_found key (snd got) \/
     (snd got = None /\ strconv.ParseInt (fst got) = (0, None))).
Proof.
  cbv zeta. unfold reports_not_found, jwtCache.GetIPAttempts, bind, ret, IPAttemptPrefix.
  destruct (Cache.Get (jwtCache.cache j) _ s) as [[val [e|]] s1]; cbn [fst snd].
  - destruct (String.eqb_spec (errors.Error e)
                ("key not found: " +:+ "ip_attempt:" +:+ userID +:+ ":" +:+ ipAddress)) as [Heq|Hne].
    + cbn [fst snd]. repeat split; try congruence; eauto.
    + destruct (logger.Logger.Error _ _ _ s1) as [[] s2]. cbn [fst snd].
      repeat split; try congruence.
      * intros (e' & [= <-] & He'). congruence.
      * intros [(e' & [= <-] & He') | [? _]]; congruence.
  - destruct (strconv.ParseInt val) as [n [pe|]] eqn:Hp.
    + destruct (logger.Logger.Error _ _ _ s1) as [[] s2]. cbn [fst snd].
      repeat split; try congruence.
      * intros (e' & ? & _); congruence.
      * intros [(e' & ? & _) | [_ ?]]; congruence.
    + cbn [fst snd]. repeat split; try congruence.
      * intros (e' & ? & _); congruence.
      * intros [= ->]. right. split; reflexivity.
      * intros [(e' & ? & _) | [_ ?]]; congruence.
Qed.

End Facade.

(** The adapter reports a key as not found exactly when the client answered
    [redis.Nil]. *)
Lemma redisCache_Get_not_found {S} (r : redisCache.t S) (key : string) (s : S) :
  reports_not_found key (snd (fst (redisCache.Get r key s))) <->
  exists e, snd (fst (redis.Get (redisCache.client r) key s)) = Some e
            /\ errors.eq_redis_Nil e = true.
Proof.
  unfold reports_not_found, redisCache.Get, bind, ret.
  destruct (redis.Get (redisCache.client r) key s) as [[val [e|]] s1]; cbn [fst snd].
  - destruct (errors.eq_redis_Nil e) eqn:Hnil; cbn [fst snd].
    + split; intros _; eauto.
    + destruct (logger.Logger.Error _ _ _ s1) as [[] s2]; cbn [fst snd].
      split.
      * intros (e' & [= <-] & He'). cbn in He'. discriminate.
      * intros (e' & [= <-] & He'). congruence.
  - split; intros (e' & ? & _); discriminate.
Qed.

(** C3, as stated, fails: a counter holding the text 0 is read as 0 with no
    error although Get found the key. *)
Lemma GetIPAttempts_zero_without_not_found :
  ~ (fst (jwtCache.GetIPAttempts miniredis.jwt "user-1" "192.168.1.1" stored_zero) = (0, None)
     <-> reports_not_found "ip_attempt:user-1:192.168.1.1"
           (snd (fst (Cache.Get (jwtCache.cache miniredis.jwt)
                        "ip_attempt:user-1:192.168.1.1" stored_zero)))).
Proof.
  intros [Hzero _].
  destruct (Hzero eq_refl) as (e & He & _).
  vm_compute in He. discriminate.
Qed.

(** On the server: an absent counter reads 0 with no error, a lost command
    is an error, and a text that is no number is an error. *)
Lemma GetIPAttempts_outcomes_witness :
  fst (jwtCache.GetIPAttempts miniredis.jwt "user-1" "192.168.1.1" (miniredis.start 0))
  = (0, None)
  /\ snd (fst (jwtCache.GetIPAttempts miniredis.jwt "user-1" "192.168.1.1"
                 (miniredis.set_wire [Some (errors.New "EOF")] (miniredis.start 0)))) <> None
  /\ snd (fst (jwtCache.GetIPAttempts miniredis.jwt "user-1" "192.168.1.1"
                 (miniredis.set_keys
                    (<["ip_attempt:user-1:192.168.1.1" :=
                         {| miniredis.data := "invalid"; miniredis.deadline := None |}]> ∅)
                    (miniredis.start 0)))) <> None.
Proof.
  split; [| split].
  - pose proof (GetIPAttempts_outcomes miniredis.jwt "user-1" "192.168.1.1"
                  (miniredis.start 0)) as (Habsent & _).
    apply Habsent. exists (errors.Errorf "key not found: ip_attempt:user-1:192.168.1.1" None).
    split; reflexivity.
  - pose proof (GetIPAttempts_outcomes miniredis.jwt "user-1" "192.168.1.1"
                  (miniredis.set_wire [Some (errors.New "EOF")] (miniredis.start 0)))
      as (_ & Hfail & _).
    apply Hfail.
    + discriminate.
    + intros (e & He & Htext). vm_compute in He. injection He as <-. discriminate.
  - pose proof (GetIPAttempts_outcomes miniredis.jwt "user-1" "192.168.1.1"
                  (miniredis.set_keys
                     (<["ip_attempt:user-1:192.168.1.1" :=
                          {| miniredis.data := "invalid"; miniredis.deadline := None |}]> ∅)
                     (miniredis.start 0)))
      as (_ & _ & Hparse & _).
    apply Hparse.
    + reflexivity.
    + vm_compute. discriminate.
Defined.

(** Unfolds the facade over the recording cache. *)
Ltac run_mock :=
  cbv [bind ret jwtCache.BlacklistToken jwtCache.IsTokenBlacklisted jwtCache.LogIPAttempt
       jwtCache.GetIPAttempts jwtCache.BlacklistUser jwtCache.IsUserBlacklisted jwtCache.time_Until
       mockCache.SetupJWTCache mockCache.cache mockCache.Called jwtCache.cache jwtCache.logger
       Cache.Set_ Cache.Get Cache.Exists Cache.IncrementWithTTL time.Now mockCache.Mock_Clock
       logger.mockLogger logger.Logger.Debug logger.Logger.Info logger.Logger.Warn
       logger.Logger.Error];
  cbn [fst snd mockCache.Calls mockCache.now].

Lemma facade_keys_aux_log On m userID ipAddress :
  mockCache.Calls (snd (jwtCache.LogIPAttempt (mockCache.SetupJWTCache On) userID ipAddress m))
  = mockCache.Calls m ++
      [mockCache.IncrementWithTTL ("ip_attempt:" +:+ userID +:+ ":" +:+ ipAddress) (24 * time.Hour)].
Proof. run_mock. destruct (mockCache.Error_ _); reflexivity. Qed.

Lemma facade_keys_aux_get On m userID ipAddress :
  mockCache.Calls (snd (jwtCache.GetIPAttempts (mockCache.SetupJWTCache On) userID ipAddress m))
  = mockCache.Calls m ++ [mockCache.Get ("ip_attempt:" +:+ userID +:+ ":" +:+ ipAddress)].
Proof.
  run_mock. destruct (mockCache.Error_ _).
  - destruct (String.eqb _ _); reflexivity.
  - destruct (strconv.ParseInt _) as [n [e|]]; reflexivity.
Qed.

(** C9: the keys the facade addresses.  Over the recording cache, whatever
    it is configured to answer, each operation makes exactly one call (none
    for an expired token), on the key built from the prefix and the
    identifiers. *)
Theorem facade_keys (On : mockCache.Call -> mockCache.Return) (m : mockCache.Mock)
    (tokenID userID ipAddress : string) (expiresAt : time.Time) (duration : time.Duration) :
  let j := mockCache.SetupJWTCache On in
  let ttl := time.Until (mockCache.now m) expiresAt in
  mockCache.Calls (snd (jwtCache.BlacklistToken j tokenID expiresAt m))
    = mockCache.Calls m ++
        (if ttl <=? 0 then []
         else [mockCache.Set_ ("blacklist:token:" +:+ tokenID) (any_string "blacklisted") ttl])
  /\ mockCache.Calls (snd (jwtCache.IsTokenBlacklisted j tokenID m))
    = mockCache.Calls m ++ [mockCache.Exists ("blacklist:token:" +:+ tokenID)]
  /\ mockCache.Calls (snd (jwtCache.BlacklistUser j userID duration m))
    = mockCache.Calls m ++
        [mockCache.Set_ ("blacklist:user:" +:+ userID) (any_string "blacklisted") duration]
  /\ mockCache.Calls (snd (jwtCache.IsUserBlacklisted j userID m))
    = mockCache.Calls m ++ [mockCache.Exists ("blacklist:user:" +:+ userID)]
  /\ mockCache.Calls (snd (jwtCache.LogIPAttempt j userID ipAddress m))
    = mockCache.Calls m ++
        [mockCache.IncrementWithTTL ("ip_attempt:" +:+ userID +:+ ":" +:+ ipAddress) (24 * time.Hour)]
  /\ mockCache.Calls (snd (jwtCache.GetIPAttempts j userID ipAddress m))
    = mockCache.Calls m ++ [mockCache.Get ("ip_attempt:" +:+ userID +:+ ":" +:+ ipAddress)].
Proof.
  cbv zeta. repeat split; try solve [apply facade_keys_aux_log | apply facade_keys_aux_get]; run_mock.
  - destruct (_ <=? 0); [by rewrite app_nil_r |].
    destruct (mockCache.Error_ _); reflexivity.
  - destruct (mockCache.Error_ _); reflexivity.
  - destruct (mockCache.Error_ _); reflexivity.
  - destruct (mockCache.Error_ _); reflexivity.
Qed.

(** C10: the key of the attempt counter does not determine the pair.  The
    pairs (a:b, c) and (a, b:c) differ, yet both operations address the same
    key for them, and on the server an attempt logged for the one is counted
    for the other. *)
Theorem ip_attempt_key_not_injective :
  ("a:b", "c") <> ("a", "b:c")
  /\ (forall On m,
        mockCache.Calls (snd (jwtCache.LogIPAttempt (mockCache.SetupJWTCache On) "a:b" "c" m))
        = mockCache.Calls (snd (jwtCache.LogIPAttempt (mockCache.SetupJWTCache On) "a" "b:c" m)))
  /\ (forall On m,
        mockCache.Calls (snd (jwtCache.GetIPAttempts (mockCache.SetupJWTCache On) "a:b" "c" m))
        = mockCache.Calls (snd (jwtCache.GetIPAttempts (mockCache.SetupJWTCache On) "a" "b:c" m)))
  /\ (let w0 := miniredis.start 0 in
      let w1 := snd (jwtCache.LogIPAttempt miniredis.jwt "a:b" "c" w0) in
      let w2 := snd (jwtCache.LogIPAttempt miniredis.jwt "a" "b:c" w1) in
      fst (jwtCache.GetIPAttempts miniredis.jwt "a" "b:c" w0) = (0, None)
      /\ fst (jwtCache.GetIPAttempts miniredis.jwt "a" "b:c" w1) = (1, None)
      /\ fst (jwtCache.GetIPAttempts miniredis.jwt "a:b" "c" w2) = (2, None)
      /\ dom (miniredis.keys w2) = {["ip_attempt:a:b:c"]}).
Proof.
  split; [discriminate |].
  split; [intros On m; pose proof (facade_keys_aux_log On m "a:b" "c") as ->;
          by pose proof (facade_keys_aux_log On m "a" "b:c") as -> |].
  split; [intros On m; pose proof (facade_keys_aux_get On m "a:b" "c") as ->;
          by pose proof (facade_keys_aux_get On m "a" "b:c") as -> |].
  cbv zeta. repeat split; vm_compute; reflexivity.
Qed.

(** ** The adapter on a server whose transport delivers *)

Lemma roundtrip_delivers {A} (zero : A) serve (w : miniredis.World) :
  miniredis.wire w = [] -> miniredis.roundtrip zero serve w = serve w.
Proof. intros Hw. unfold miniredis.roundtrip. by rewrite Hw. Qed.

(** *** What the client sends for a duration *)

Lemma whole_milliseconds_bounds ttl :
  0 < ttl ->
  time.Millisecond <= whole_milliseconds ttl
  /\ ttl - time.Millisecond < whole_milliseconds ttl
  /\ whole_milliseconds ttl <= Z.max ttl time.Millisecond
  /\ (ttl < time.Millisecond -> whole_milliseconds ttl = time.Millisecond)
  /\ (ttl mod time.Millisecond = 0 -> whole_milliseconds ttl = ttl).
Proof.
  intros Hpos. unfold whole_milliseconds, time.Millisecond.
  pose proof (Z.div_mod ttl 1000000 ltac:(lia)) as Hdm.
  pose proof (Z.mod_pos_bound ttl 1000000 ltac:(lia)) as Hm.
  assert (ttl < 1000000 -> ttl / 1000000 = 0) by (intros; apply Z.div_small; lia).
  repeat split; try lia.
Qed.

Lemma whole_seconds_bounds ttl :
  0 < ttl ->
  time.Second <= whole_seconds ttl
  /\ ttl - time.Second < whole_seconds ttl
  /\ whole_seconds ttl <= Z.max ttl time.Second
  /\ (ttl < time.Second -> whole_seconds ttl = time.Second)
  /\ (ttl mod time.Second = 0 -> whole_seconds ttl = ttl).
Proof.
  intros Hpos. unfold whole_seconds, time.Second.
  pose proof (Z.div_mod ttl 1000000000 ltac:(lia)) as Hdm.
  pose proof (Z.mod_pos_bound ttl 1000000000 ltac:(lia)) as Hm.
  assert (ttl < 1000000000 -> ttl / 1000000000 = 0) by (intros; apply Z.div_small; lia).
  repeat split; try lia.
Qed.

Lemma formatMs_positive ttl :
  0 < ttl -> 0 < redis.formatMs ttl
  /\ redis.formatMs ttl * time.Millisecond = whole_milliseconds ttl.
Proof.
  intros Hpos. unfold redis.formatMs, whole_milliseconds, time.Millisecond.
  destruct (Z.ltb_spec 0 ttl); [| lia]. cbn [andb].
  destruct (Z.ltb_spec ttl 1000000) as [Hlt | Hge].
  - rewrite (Z.div_small ttl 1000000) by lia. lia.
  - rewrite Z.quot_div_nonneg by lia.
    pose proof (Z.div_le_lower_bound ttl 1000000 1 ltac:(lia) ltac:(lia)). lia.
Qed.

Lemma formatSec_positive ttl :
  0 < ttl -> 0 < redis.formatSec ttl
  /\ redis.formatSec ttl * time.Second = whole_seconds ttl.
Proof.
  intros Hpos. unfold redis.formatSec, whole_seconds, time.Second.
  destruct (Z.ltb_spec 0 ttl); [| lia]. cbn [andb].
  destruct (Z.ltb_spec ttl 1000000000) as [Hlt | Hge].
  - rewrite (Z.div_small ttl 1000000000) by lia. lia.
  - rewrite Z.quot_div_nonneg by lia.
    pose proof (Z.div_le_lower_bound ttl 1000000000 1 ltac:(lia) ltac:(lia)). lia.
Qed.

Lemma formatSec_nonpos ttl : ttl <= 0 -> redis.formatSec ttl <= 0.
Proof.
  intros Hle. unfold redis.formatSec, time.Second.
  destruct (Z.ltb_spec 0 ttl); [lia |]. cbn [andb].
  pose proof (Z.quot_opp_l ttl 1000000000 ltac:(lia)) as Ho.
  pose proof (Z.quot_pos (- ttl) 1000000000 ltac:(lia) ltac:(lia)). lia.
Qed.

Lemma whole_seconds_exact ttl :
  0 < ttl -> ttl mod time.Second = 0 ->
  whole_seconds ttl = ttl /\ whole_milliseconds ttl = ttl.
Proof.
  intros Hpos Hrem. split; [by apply whole_seconds_bounds |].
  apply whole_milliseconds_bounds; [done |].
  unfold time.Second, time.Millisecond in *.
  pose proof (Z.div_mod ttl 1000000000 ltac:(lia)).
  pose proof (Z.div_mod ttl 1000000 ltac:(lia)).
  pose proof (Z.mod_pos_bound ttl 1000000 ltac:(lia)). lia.
Qed.

(** A duration of whole seconds goes out as EX, any other as PX: either
    way the key is given the whole milliseconds of the duration. *)
Lemma deadline_of_sent ttl key (w : miniredis.World) :
  0 < ttl ->
  miniredis.deadline_of
    (if redis.usePrecise ttl then redis.PX (redis.formatMs ttl)
     else redis.EX (redis.formatSec ttl)) key w
  = inl (Some (miniredis.clock w + whole_milliseconds ttl)).
Proof.
  intros Hpos.
  destruct (formatMs_positive ttl Hpos) as [Hmp Hms].
  destruct (formatSec_positive ttl Hpos) as [Hsp Hs].
  destruct (redis.usePrecise ttl) eqn:Hp; cbn [miniredis.deadline_of].
  - destruct (Z.leb_spec (redis.formatMs ttl) 0); [lia |]. by rewrite Hms.
  - destruct (Z.leb_spec (redis.formatSec ttl) 0); [lia |].
    unfold redis.usePrecise in Hp. apply orb_false_iff in Hp as [Hge Hrem].
    apply Z.ltb_ge in Hge. apply negb_false_iff, Z.eqb_eq in Hrem.
    rewrite Z.rem_mod_nonneg in Hrem by (unfold time.Second; lia).
    destruct (whole_seconds_exact ttl Hpos Hrem) as [Hws Hwm].
    by rewrite Hs, Hws, Hwm.
Qed.

Lemma Set_deadline ttl key (w : miniredis.World) :
  0 < ttl ->
  miniredis.deadline_of (redis.Set_expiry ttl) key w
  = inl (Some (miniredis.clock w + whole_milliseconds ttl)).
Proof.
  intros Hpos. unfold redis.Set_expiry.
  destruct (Z.ltb_spec 0 ttl); [| lia]. by apply deadline_of_sent.
Qed.

Lemma SetNX_deadline ttl key (w : miniredis.World) :
  0 < ttl ->
  miniredis.deadline_of (redis.SetNX_expiry ttl) key w
  = inl (Some (miniredis.clock w + whole_milliseconds ttl)).
Proof.
  intros Hpos. unfold redis.SetNX_expiry, redis.KeepTTL.
  destruct (Z.eqb_spec ttl 0); [lia |]. destruct (Z.eqb_spec ttl (-1)); [lia |].
  by apply deadline_of_sent.
Qed.

Lemma SET_positive key v ttl (w : miniredis.World) :
  0 < ttl ->
  miniredis.SET key v (redis.Set_expiry ttl) w
  = (("OK", None),
     miniredis.set_keys
       (<[key := {| miniredis.data := v;
                    miniredis.deadline := Some (miniredis.clock w + whole_milliseconds ttl) |}]>
          (miniredis.keys w)) w).
Proof. intros Hpos. unfold miniredis.SET. by rewrite Set_deadline. Qed.

Lemma SET_zero key v (w : miniredis.World) :
  miniredis.SET key v (redis.Set_expiry 0) w
  = (("OK", None),
     miniredis.set_keys
       (<[key := {| miniredis.data := v; miniredis.deadline := None |}]> (miniredis.keys w)) w).
Proof. reflexivity. Qed.

(** The server refuses no expiry that Set sends. *)
Lemma SET_accepted key v ttl (w : miniredis.World) :
  fst (miniredis.SET key v (redis.Set_expiry ttl) w) = ("OK", None).
Proof.
  destruct (Z.ltb_spec 0 ttl) as [Hpos | Hle].
  - by rewrite SET_positive.
  - unfold redis.Set_expiry. destruct (Z.ltb_spec 0 ttl); [lia |].
    by destruct (ttl =? redis.KeepTTL).
Qed.

Lemma adapter_Set_delivered key v ttl (w : miniredis.World) :
  miniredis.wire w = [] ->
  redisCache.Set_ miniredis.cache key (any_string v) ttl w
  = (None, snd (miniredis.SET key v (redis.Set_expiry ttl) w)).
Proof.
  intros Hw. unfold redisCache.Set_, bind, ret. cbn [redisCache.marshal].
  cbn [redisCache.client miniredis.cache miniredis.client redis.Set_].
  rewrite roundtrip_delivers by done.
  pose proof (SET_accepted key v ttl w) as Hok.
  destruct (miniredis.SET key v (redis.Set_expiry ttl) w) as [[r e] w1].
  cbn [fst snd] in *. by injection Hok as -> ->.
Qed.

Lemma BlacklistToken_calls On m tokenID expiresAt :
  mockCache.Calls (snd (jwtCache.BlacklistToken (mockCache.SetupJWTCache On) tokenID expiresAt m))
  = mockCache.Calls m ++
      (if time.Until (mockCache.now m) expiresAt <=? 0 then []
       else [mockCache.Set_ ("blacklist:token:" +:+ tokenID) (any_string "blacklisted")
               (time.Until (mockCache.now m) expiresAt)]).
Proof.
  run_mock. destruct (_ <=? 0); [by rewrite app_nil_r |].
  destruct (mockCache.Error_ _); reflexivity.
Qed.

Lemma BlacklistToken_expired tokenID expiresAt (w : miniredis.World) :
  expiresAt <= miniredis.clock w ->
  jwtCache.BlacklistToken miniredis.jwt tokenID expiresAt w
  = (None,
     miniredis.write_log
       {| logger.level := logger.DebugLevel;
          logger.msg := "Token already expired, not adding to blacklist";
          logger.fields := [logger.String "token_id" tokenID] |} w).
Proof.
  intros Hle.
  assert (Hu : (time.Until (miniredis.clock w) expiresAt <=? 0) = true)
    by (apply Z.leb_le, Until_nonpos; lia).
  unfold jwtCache.BlacklistToken, bind, ret, jwtCache.time_Until.
  unfold time.Now, miniredis.World_Clock. rewrite Hu. reflexivity.
Qed.

Lemma BlacklistToken_fresh tokenID expiresAt (w : miniredis.World) :
  miniredis.clock w < expiresAt -> miniredis.wire w = [] ->
  jwtCache.BlacklistToken miniredis.jwt tokenID expiresAt w
  = (None,
     miniredis.write_log
       {| logger.level := logger.InfoLevel; logger.msg := "Token blacklisted";
          logger.fields :=
            [logger.String "token_id" tokenID;
             {| logger.Key := "ttl";
                logger.Value := logger.DurationString (time.Until (miniredis.clock w) expiresAt) |}] |}
       (miniredis.set_keys
          (<["blacklist:token:" +:+ tokenID :=
               {| miniredis.data := "blacklisted";
                  miniredis.deadline :=
                    Some (miniredis.clock w
                          + whole_milliseconds (time.Until (miniredis.clock w) expiresAt)) |}]>
             (miniredis.keys w)) w)).
Proof.
  intros Hlt Hw.
  assert (Hu : (time.Until (miniredis.clock w) expiresAt <=? 0) = false).
  { apply Z.leb_gt. pose proof (Until_nonpos (miniredis.clock w) expiresAt). lia. }
  assert (Hpos : (0 <? time.Until (miniredis.clock w) expiresAt) = true)
    by (apply Z.ltb_lt; apply Z.leb_gt in Hu; lia).
  unfold jwtCache.BlacklistToken, bind, ret, jwtCache.time_Until.
  unfold time.Now, miniredis.World_Clock. rewrite Hu.
  cbn [jwtCache.cache miniredis.jwt jwtCache.NewJWTCache redisCache.as_Cache Cache.Set_].
  apply Z.ltb_lt in Hpos.
  rewrite adapter_Set_delivered by done.
  rewrite SET_positive by done. reflexivity.
Qed.

(** C4: blacklisting a token.  With [expiresAt] at or before the clock the
    call returns nil and leaves the store as it was (no cache method is
    called at all).  With [expiresAt] in the future the facade makes the one
    call Set(blacklist:token:<tokenID>, "blacklisted", time.Until(expiresAt)),
    [time.Until] being [expiresAt - now] as far as a Duration can hold it;
    through the adapter, on a transport that delivers, it returns nil and
    the store differs by that one entry, whose time to live is the whole
    milliseconds of [time.Until(expiresAt)], one millisecond when less
    remains: it is the remaining time itself when that is a whole number of
    milliseconds, and less than a millisecond away from it otherwise. *)
Theorem BlacklistToken_effect (tokenID : string) (expiresAt : time.Time) (w : miniredis.World) :
  let key := "blacklist:token:" +:+ tokenID in
  let out := jwtCache.BlacklistToken miniredis.jwt tokenID expiresAt w in
  let remaining := time.Until (miniredis.clock w) expiresAt in
  (expiresAt <= miniredis.clock w ->
     fst out = None
     /\ miniredis.keys (snd out) = miniredis.keys w
     /\ miniredis.clock (snd out) = miniredis.clock w
     /\ miniredis.wire (snd out) = miniredis.wire w
     /\ forall On m, mockCache.now m = miniredis.clock w ->
          mockCache.Calls
            (snd (jwtCache.BlacklistToken (mockCache.SetupJWTCache On) tokenID expiresAt m))
          = mockCache.Calls m)
  /\ (miniredis.clock w < expiresAt ->
      (forall On m, mockCache.now m = miniredis.clock w ->
         mockCache.Calls
           (snd (jwtCache.BlacklistToken (mockCache.SetupJWTCache On) tokenID expiresAt m))
         = mockCache.Calls m ++ [mockCache.Set_ key (any_string "blacklisted") remaining])
      /\ (expiresAt - miniredis.clock w <= time.maxDuration ->
          remaining = expiresAt - miniredis.clock w)
      /\ (miniredis.wire w = [] ->
          fst out = None
          /\ miniredis.keys (snd out)
             = <[key := {| miniredis.data := "blacklisted";
                           miniredis.deadline :=
                             Some (miniredis.clock w + whole_milliseconds remaining) |}]>
                 (miniredis.keys w)
          /\ TTL (snd out) key = Some (whole_milliseconds remaining)
          /\ (remaining mod time.Millisecond = 0 -> TTL (snd out) key = Some remaining)
          /\ (remaining < time.Millisecond -> TTL (snd out) key = Some time.Millisecond)
          /\ remaining - time.Millisecond < whole_milliseconds remaining
          /\ whole_milliseconds remaining <= Z.max remaining time.Millisecond)).
Proof.
  cbv zeta. split.
  - intros Hle. rewrite BlacklistToken_expired by done.
    repeat split.
    intros On m Hm. rewrite BlacklistToken_calls, Hm.
    assert (Hu : (time.Until (miniredis.clock w) expiresAt <=? 0) = true)
      by (apply Z.leb_le, Until_nonpos; lia).
    rewrite Hu. by rewrite app_nil_r.
  - intros Hlt.
    assert (Hu : (time.Until (miniredis.clock w) expiresAt <=? 0) = false).
    { apply Z.leb_gt. pose proof (Until_nonpos (miniredis.clock w) expiresAt). lia. }
    assert (Hpos : 0 < time.Until (miniredis.clock w) expiresAt) by (by apply Z.leb_gt).
    split; [| split].
    + intros On m Hm. rewrite BlacklistToken_calls, Hm, Hu. reflexivity.
    + intros Hr. apply Until_exact. unfold time.minDuration, time.maxDuration in *. lia.
    + intros Hw. rewrite BlacklistToken_fresh by done.
      cbn [fst snd miniredis.keys miniredis.set_keys miniredis.write_log].
      destruct (whole_milliseconds_bounds _ Hpos) as (_ & Hlow & Hhigh & Hsmall & Hexact).
      assert (Httl :
        TTL (miniredis.write_log
               {| logger.level := logger.InfoLevel; logger.msg := "Token blacklisted";
                  logger.fields :=
                    [logger.String "token_id" tokenID;
                     {| logger.Key := "ttl";
                        logger.Value :=
                          logger.DurationString (time.Until (miniredis.clock w) expiresAt) |}] |}
               (miniredis.set_keys
                  (<["blacklist:token:" +:+ tokenID :=
                       {| miniredis.data := "blacklisted";
                          miniredis.deadline :=
                            Some (miniredis.clock w
                                  + whole_milliseconds
                                      (time.Until (miniredis.clock w) expiresAt)) |}]>
                     (miniredis.keys w)) w))
            ("blacklist:token:" +:+ tokenID)
        = Some (whole_milliseconds (time.Until (miniredis.clock w) expiresAt))).
      { unfold TTL.
        cbn [miniredis.keys miniredis.set_keys miniredis.write_log miniredis.clock].
        rewrite lookup_insert_eq. cbn. f_equal. lia. }
      rewrite Httl.
      split; [done |]. split; [done |]. split; [done |].
      split; [intros Hm; f_equal; by apply Hexact |].
      split; [intros Hm; f_equal; by apply Hsmall |].
      split; [exact Hlow | exact Hhigh].
Qed.

(** At time 1000: a token that expired at 500 leaves the store empty; a
    token expiring an hour later is stored for that hour. *)
Lemma BlacklistToken_effect_witness :
  miniredis.keys (snd (jwtCache.BlacklistToken miniredis.jwt "token123" 500
                         (miniredis.start 1000))) = ∅
  /\ TTL (snd (jwtCache.BlacklistToken miniredis.jwt "token123" (1000 + time.Hour)
                 (miniredis.start 1000))) ("blacklist:token:" +:+ "token123")
     = Some time.Hour.
Proof.
  pose proof (BlacklistToken_effect "token123" 500 (miniredis.start 1000)) as [Hexpired _].
  pose proof (BlacklistToken_effect "token123" (1000 + time.Hour) (miniredis.start 1000))
    as [_ Hfresh].
  split.
  - destruct Hexpired as (_ & Hkeys & _); [cbn; lia |]. exact Hkeys.
  - destruct Hfresh as (_ & _ & Hserver);
      [cbn; unfold time.Hour, time.Second; lia |].
    destruct (Hserver eq_refl) as (_ & _ & _ & Hexact & _).
    rewrite Hexact by (vm_compute; reflexivity).
    vm_compute. reflexivity.
Defined.

(** C4, as stated, fails: with 60 nanoseconds left until the expiry the
    entry is stored with a time to live of one millisecond. *)
Lemma BlacklistToken_ttl_is_not_the_remaining_time :
  let w := miniredis.start 1000 in
  let out := jwtCache.BlacklistToken miniredis.jwt "token123" 1060 w in
  time.Until (miniredis.clock w) 1060 = 60
  /\ TTL (snd out) ("blacklist:token:" +:+ "token123") = Some time.Millisecond
  /\ TTL (snd out) ("blacklist:token:" +:+ "token123")
     <> Some (time.Until (miniredis.clock w) 1060).
Proof.
  cbv zeta. split; [reflexivity |].
  assert (H : TTL (snd (jwtCache.BlacklistToken miniredis.jwt "token123" 1060
                          (miniredis.start 1000))) ("blacklist:token:" +:+ "token123")
              = Some time.Millisecond) by (vm_compute; reflexivity).
  split; [exact H |]. rewrite H. vm_compute. discriminate.
Qed.

(** ** Failures of the store reach the caller *)

(** What [Pipeline.Exec] returns is nil only if no queued command failed:
    the branch of IncrementWithTTL that warns about the expire step is
    never entered with an error. *)
Lemma Exec2_nil {S A B} (c1 : State S (A * error)) (c2 : State S (B * error)) (s : S) :
  snd (fst (redis.Exec2 c1 c2 s)) = None ->
  redis.Err (fst (fst (fst (redis.Exec2 c1 c2 s)))) = None
  /\ redis.Err (snd (fst (fst (redis.Exec2 c1 c2 s)))) = None.
Proof.
  unfold redis.Exec2, redis.cmdsFirstErr, redis.Err, bind, ret.
  destruct (c1 s) as [[a [e1|]] s1]; destruct (c2 s1) as [[b [e2|]] s2]; cbn; auto; discriminate.
Qed.

(** Destructs the calls an operation makes, one after the other. *)
Ltac step_calls :=
  repeat match goal with
         | |- context [let (_, _) := ?c in _] =>
             let v := fresh "v" in let e := fresh "e" in let s := fresh "s" in
             first [ destruct c as [[v [e|]] s] | destruct c as [[e|] s] | destruct c as [[] s]
                   | destruct c as [v [e|]] ];
             cbn [fst snd redis.Err redis.Result] in *
         | |- context [if ?b then _ else _] => destruct b; cbn [fst snd] in *
         end.

Section AdapterFailures.
Context {S : Type} (r : redisCache.t S).

Lemma Set_failure key value ttl s :
  snd (redisCache.marshal value) <> None
  \/ snd (fst (redis.Set_ (redisCache.client r) key (fst (redisCache.marshal value)) ttl s)) <> None ->
  fst (redisCache.Set_ r key value ttl s) <> None.
Proof.
  unfold redisCache.Set_, bind, ret.
  destruct (redisCache.marshal value) as [data [me|]]; cbn [fst snd]; [discriminate |].
  intros [? | Hf]; [done |]. revert Hf. step_calls; congruence.
Qed.

Lemma Get_failure key s :
  snd (fst (redis.Get (redisCache.client r) key s)) <> None ->
  snd (fst (redisCache.Get r key s)) <> None.
Proof. unfold redisCache.Get, bind, ret. step_calls; congruence. Qed.

Lemma Delete_failure key s :
  snd (fst (redis.Del (redisCache.client r) key s)) <> None ->
  fst (redisCache.Delete r key s) <> None.
Proof. unfold redisCache.Delete, bind, ret. step_calls; congruence. Qed.

Lemma Exists_failure key s :
  snd (fst (redis.Exists (redisCache.client r) key s)) <> None ->
  snd (fst (redisCache.Exists r key s)) <> None.
Proof. unfold redisCache.Exists, bind, ret. step_calls; congruence. Qed.

Lemma SetNX_failure key value ttl s :
  snd (redisCache.marshal value) <> None
  \/ snd (fst (redis.SetNX (redisCache.client r) key (fst (redisCache.marshal value)) ttl s)) <> None ->
  snd (fst (redisCache.SetNX r key value ttl s)) <> None.
Proof.
  unfold redisCache.SetNX, bind, ret.
  destruct (redisCache.marshal value) as [data [me|]]; cbn [fst snd]; [discriminate |].
  intros [? | Hf]; [done |]. revert Hf. step_calls; congruence.
Qed.

Lemma Increment_failure key s :
  snd (fst (redis.Incr (redisCache.client r) key s)) <> None ->
  snd (fst (redisCache.Increment r key s)) <> None.
Proof. unfold redisCache.Increment, bind, ret. step_calls; congruence. Qed.

Lemma IncrementWithTTL_failure key ttl s :
  let incr := redis.Incr (redisCache.client r) key s in
  let expire := redis.Expire (redisCache.client r) key ttl (snd incr) in
  snd (fst incr) <> None \/ snd (fst expire) <> None ->
  snd (fst (redisCache.IncrementWithTTL r key ttl s)) <> None.
Proof.
  cbv zeta. unfold redisCache.IncrementWithTTL, redis.Exec2, redis.cmdsFirstErr, bind, ret.
  destruct (redis.Incr (redisCache.client r) key s) as [[v [e1|]] s1]; cbn [fst snd].
  - destruct (redis.Expire (redisCache.client r) key ttl s1) as [[b e2] s2].
    cbn [redis.Err List.find snd fst].
    destruct (logger.Logger.Error _ _ _ _) as [[] ?]. cbn. congruence.
  - destruct (redis.Expire (redisCache.client r) key ttl s1) as [[b [e2|]] s2];
      cbn [redis.Err List.find snd fst].
    + destruct (logger.Logger.Error _ _ _ _) as [[] ?]. cbn. congruence.
    + intros [?|?]; congruence.
Qed.

(** The expire step failing after a successful increment: the error
    returned is the one of the expire step. *)
Lemma IncrementWithTTL_expire_failure key ttl s v s1 b e s2 :
  redis.Incr (redisCache.client r) key s = ((v, None), s1) ->
  redis.Expire (redisCache.client r) key ttl s1 = ((b, Some e), s2) ->
  fst (redisCache.IncrementWithTTL r key ttl s)
  = (0, Some (errors.Wrap "failed to increment with TTL: " e)).
Proof.
  intros Hi He.
  unfold redisCache.IncrementWithTTL, redis.Exec2, redis.cmdsFirstErr, bind, ret.
  rewrite Hi, He. cbn [redis.Err List.find snd fst].
  destruct (logger.Logger.Error _ _ _ _) as [[] ?]. reflexivity.
Qed.

Lemma Close_failure s :
  fst (redis.Close (redisCache.client r) s) <> None ->
  fst (redisCache.Close r s) <> None.
Proof. unfold redisCache.Close, bind, ret. step_calls; congruence. Qed.

Lemma Ping_failure s :
  snd (fst (redis.Ping (redisCache.client r) s)) <> None ->
  fst (redisCache.Ping r s) <> None.
Proof. unfold redisCache.Ping, bind, ret. step_calls; congruence. Qed.

End AdapterFailures.

Section FacadeFailures.
Context {S : Type} `{time.Clock S} (j : jwtCache.t S).

Lemma BlacklistToken_failure tokenID expiresAt s :
  0 < time.Until (time.Now s) expiresAt ->
  fst (Cache.Set_ (jwtCache.cache j) ("blacklist:token:" +:+ tokenID) (any_string "blacklisted")
         (time.Until (time.Now s) expiresAt) s) <> None ->
  fst (jwtCache.BlacklistToken j tokenID expiresAt s) <> None.
Proof.
  intros Hpos. unfold jwtCache.BlacklistToken, jwtCache.time_Until, bind, ret, TokenBlacklistPrefix.
  destruct (Z.leb_spec (time.Until (time.Now s) expiresAt) 0); [lia |].
  step_calls; congruence.
Qed.

Lemma BlacklistToken_expired_nil tokenID expiresAt s :
  time.Until (time.Now s) expiresAt <= 0 ->
  fst (jwtCache.BlacklistToken j tokenID expiresAt s) = None.
Proof.
  intros Hle. unfold jwtCache.BlacklistToken, jwtCache.time_Until, bind, ret.
  destruct (Z.leb_spec (time.Until (time.Now s) expiresAt) 0); [| lia].
  step_calls; congruence.
Qed.

Lemma IsTokenBlacklisted_failure tokenID s :
  snd (fst (Cache.Exists (jwtCache.cache j) ("blacklist:token:" +:+ tokenID) s)) <> None ->
  snd (fst (jwtCache.IsTokenBlacklisted j tokenID s)) <> None.
Proof.
  unfold jwtCache.IsTokenBlacklisted, bind, ret, TokenBlacklistPrefix. step_calls; congruence.
Qed.

Lemma BlacklistUser_failure userID duration s :
  fst (Cache.Set_ (jwtCache.cache j) ("blacklist:user:" +:+ userID) (any_string "blacklisted")
         duration s) <> None ->
  fst (jwtCache.BlacklistUser j userID duration s) <> None.
Proof.
  unfold jwtCache.BlacklistUser, bind, ret, UserBlacklistPrefix. step_calls; congruence.
Qed.

Lemma IsUserBlacklisted_failure userID s :
  snd (fst (Cache.Exists (jwtCache.cache j) ("blacklist:user:" +:+ userID) s)) <> None ->
  snd (fst (jwtCache.IsUserBlacklisted j userID s)) <> None.
Proof.
  unfold jwtCache.IsUserBlacklisted, bind, ret, UserBlacklistPrefix. step_calls; congruence.
Qed.

Lemma LogIPAttempt_failure userID ipAddress s :
  snd (fst (Cache.IncrementWithTTL (jwtCache.cache j)
              ("ip_attempt:" +:+ userID +:+ ":" +:+ ipAddress) (24 * time.Hour) s)) <> None ->
  fst (jwtCache.LogIPAttempt j userID ipAddress s) <> None.
Proof.
  unfold jwtCache.LogIPAttempt, bind, ret, IPAttemptPrefix. step_calls; congruence.
Qed.

Lemma GetIPAttempts_failure userID ipAddress s :
  let key := "ip_attempt:" +:+ userID +:+ ":" +:+ ipAddress in
  let got := fst (Cache.Get (jwtCache.cache j) key s) in
  (snd got <> None -> ~ reports_not_found key (snd got) ->
   snd (fst (jwtCache.GetIPAttempts j userID ipAddress s)) <> None)
  /\ (reports_not_found key (snd got) ->
      fst (jwtCache.GetIPAttempts j userID ipAddress s) = (0, None)).
Proof.
  cbv zeta. unfold reports_not_found, jwtCache.GetIPAttempts, bind, ret, IPAttemptPrefix.
  destruct (Cache.Get (jwtCache.cache j) _ s) as [[val [e|]] s1]; cbn [fst snd].
  - destruct (String.eqb_spec (errors.Error e)
                ("key not found: " +:+ "ip_attempt:" +:+ userID +:+ ":" +:+ ipAddress)) as [Heq|Hne].
    + split; [| done]. intros _ Hn. exfalso. apply Hn. eauto.
    + destruct (logger.Logger.Error _ _ _ s1) as [[] s2]. cbn [fst snd].
      split; [congruence |]. intros (e' & [= <-] & He'). congruence.
  - split; [congruence |]. intros (e' & ? & _). discriminate.
Qed.

End FacadeFailures.

(** C5: no failure of a store call is swallowed.  For every client and every
    cache, each operation of the adapter and of the facade returns a non-nil
    error when the call it makes fails; the two exceptions return nil: the
    facade's BlacklistToken for an expired token (which makes no call) and
    its GetIPAttempts when Get reports the key as not found.  In particular
    IncrementWithTTL returns the error of the expire step when that step
    fails after a successful increment. *)
Theorem store_failures_are_returned {S : Type} `{time.Clock S}
    (r : redisCache.t S) (j : jwtCache.t S) (s : S)
    (key tokenID userID ipAddress : string) (value : any)
    (ttl duration : time.Duration) (expiresAt : time.Time) :
  let c := redisCache.client r in
  let data := fst (redisCache.marshal value) in
  let ipkey := "ip_attempt:" +:+ userID +:+ ":" +:+ ipAddress in
  (* the adapter *)
  (snd (redisCache.marshal value) <> None \/ snd (fst (redis.Set_ c key data ttl s)) <> None ->
     fst (redisCache.Set_ r key value ttl s) <> None)
  /\ (snd (fst (redis.Get c key s)) <> None -> snd (fst (redisCache.Get r key s)) <> None)
  /\ (snd (fst (redis.Del c key s)) <> None -> fst (redisCache.Delete r key s) <> None)
  /\ (snd (fst (redis.Exists c key s)) <> None -> snd (fst (redisCache.Exists r key s)) <> None)
  /\ (snd (redisCache.marshal value) <> None \/ snd (fst (redis.SetNX c key data ttl s)) <> None ->
     snd (fst (redisCache.SetNX r key value ttl s)) <> None)
  /\ (snd (fst (redis.Incr c key s)) <> None -> snd (fst (redisCache.Increment r key s)) <> None)
  /\ (snd (fst (redis.Incr c key s)) <> None
      \/ snd (fst (redis.Expire c key ttl (snd (redis.Incr c key s)))) <> None ->
     snd (fst (redisCache.IncrementWithTTL r key ttl s)) <> None)
  /\ (forall v s1 b e s2,
        redis.Incr c key s = ((v, None), s1) ->
        redis.Expire c key ttl s1 = ((b, Some e), s2) ->
        fst (redisCache.IncrementWithTTL r key ttl s)
        = (0, Some (errors.Wrap "failed to increment with TTL: " e)))
  /\ (fst (redis.Close c s) <> None -> fst (redisCache.Close r s) <> None)
  /\ (snd (fst (redis.Ping c s)) <> None -> fst (redisCache.Ping r s) <> None)
  (* the facade *)
  /\ (0 < time.Until (time.Now s) expiresAt ->
      fst (Cache.Set_ (jwtCache.cache j) ("blacklist:token:" +:+ tokenID)
             (any_string "blacklisted") (time.Until (time.Now s) expiresAt) s) <> None ->
      fst (jwtCache.BlacklistToken j tokenID expiresAt s) <> None)
  /\ (snd (fst (Cache.Exists (jwtCache.cache j) ("blacklist:token:" +:+ tokenID) s)) <> None ->
      snd (fst (jwtCache.IsTokenBlacklisted j tokenID s)) <> None)
  /\ (fst (Cache.Set_ (jwtCache.cache j) ("blacklist:user:" +:+ userID)
             (any_string "blacklisted") duration s) <> None ->
      fst (jwtCache.BlacklistUser j userID duration s) <> None)
  /\ (snd (fst (Cache.Exists (jwtCache.cache j) ("blacklist:user:" +:+ userID) s)) <> None ->
      snd (fst (jwtCache.IsUserBlacklisted j userID s)) <> None)
  /\ (snd (fst (Cache.IncrementWithTTL (jwtCache.cache j) ipkey (24 * time.Hour) s)) <> None ->
      fst (jwtCache.LogIPAttempt j userID ipAddress s) <> None)
  /\ (snd (fst (Cache.Get (jwtCache.cache j) ipkey s)) <> None ->
      ~ reports_not_found ipkey (snd (fst (Cache.Get (jwtCache.cache j) ipkey s))) ->
      snd (fst (jwtCache.GetIPAttempts j userID ipAddress s)) <> None)
  (* the two exceptions *)
  /\ (time.Until (time.Now s) expiresAt <= 0 ->
      fst (jwtCache.BlacklistToken j tokenID expiresAt s) = None)
  /\ (reports_not_found ipkey (snd (fst (Cache.Get (jwtCache.cache j) ipkey s))) ->
      fst (jwtCache.GetIPAttempts j userID ipAddress s) = (0, None)).
Proof.
  cbv zeta.
  split; [apply Set_failure |]. split; [apply Get_failure |].
  split; [apply Delete_failure |]. split; [apply Exists_failure |].
  split; [apply SetNX_failure |]. split; [apply Increment_failure |].
  split; [apply IncrementWithTTL_failure |].
  split; [intros *; apply IncrementWithTTL_expire_failure |].
  split; [apply Close_failure |]. split; [apply Ping_failure |].
  split; [apply BlacklistToken_failure |]. split; [apply IsTokenBlacklisted_failure |].
  split; [apply BlacklistUser_failure |]. split; [apply IsUserBlacklisted_failure |].
  split; [apply LogIPAttempt_failure |].
  split; [apply GetIPAttempts_failure |].
  split; [apply BlacklistToken_expired_nil |].
  apply GetIPAttempts_failure.
Qed.

(** On the server: the second command of the pipeline is lost after the
    first was answered. *)
Lemma expire_failure_returned :
  let w := miniredis.set_wire [None; Some (errors.New "EOF")] (miniredis.start 0) in
  fst (redisCache.IncrementWithTTL miniredis.cache "ip_attempt:u:1.1.1.1" (24 * time.Hour) w)
  = (0, Some (errors.Wrap "failed to increment with TTL: " (errors.New "EOF")))
  /\ fst (jwtCache.LogIPAttempt miniredis.jwt "u" "1.1.1.1" w) <> None.
Proof.
  cbv zeta.
  pose proof (store_failures_are_returned miniredis.cache miniredis.jwt
                (miniredis.set_wire [None; Some (errors.New "EOF")] (miniredis.start 0))
                "ip_attempt:u:1.1.1.1" "t" "u" "1.1.1.1" (any_string "") (24 * time.Hour) 0 0)
    as (_ & _ & _ & _ & _ & _ & _ & Hexp & _ & _ & _ & _ & _ & _ & Hlog & _).
  split.
  - eapply Hexp; vm_compute; reflexivity.
  - apply Hlog. vm_compute. discriminate.
Defined.

(** ** Decimal texts: what [pretty] prints, [ParseInt] reads back *)

Lemma pretty_N_char_digit (d : N) :
  (d < 10)%N ->
  strconv.is_digit (pretty_N_char d) = true /\ strconv.digit (pretty_N_char d) = Z.of_N d.
Proof.
  intros Hd.
  assert (Hc : (d = 0 \/ d = 1 \/ d = 2 \/ d = 3 \/ d = 4 \/ d = 5 \/ d = 6 \/ d = 7
               \/ d = 8 \/ d = 9)%N) by lia.
  repeat (destruct Hc as [-> | Hc]; [split; reflexivity |]).
  subst; split; reflexivity.
Qed.

Lemma ParseUint_loop_pretty_go (x : N) : forall (s : string),
  (Z.of_N x <= strconv.maxUint64) ->
  strconv.ParseUint_loop (pretty_N_go x s) 0 = strconv.ParseUint_loop s (Z.of_N x).
Proof.
  induction (N.lt_wf_0 x) as [x _ IH]. intros s Hx.
  destruct (decide (x = 0%N)) as [-> | Hnz].
  - rewrite pretty_N_go_0. reflexivity.
  - rewrite pretty_N_go_step by lia.
    assert (Hdiv : (x `div` 10 < x)%N) by (apply N.div_lt; lia).
    assert (Hmod : (x `mod` 10 < 10)%N) by (apply N.mod_lt; lia).
    rewrite IH; [| done | unfold strconv.maxUint64 in *; lia].
    destruct (pretty_N_char_digit (x `mod` 10)%N Hmod) as [Hd Hv].
    cbn [strconv.ParseUint_loop]. rewrite Hd. cbn [negb].
    pose proof (N.div_mod x 10 ltac:(lia)) as Hdm.
    assert (Hq : Z.of_N (x `div` 10) = Z.of_N x / 10) by (rewrite N2Z.inj_div; reflexivity).
    assert (Hr : Z.of_N (x `mod` 10) = Z.of_N x mod 10) by (rewrite N2Z.inj_mod; reflexivity).
    assert (Hx0 : 0 <= Z.of_N x) by lia.
    pose proof (Z.div_mod (Z.of_N x) 10 ltac:(lia)) as Hzdm.
    pose proof (Z.mod_pos_bound (Z.of_N x) 10 ltac:(lia)) as Hzm.
    unfold strconv.maxUint64 in *.
    rewrite Hv, Hq, Hr.
    change (2 ^ 64 - 1) with 18446744073709551615 in *.
    change (18446744073709551615 / 10 + 1) with 1844674407370955162.
    change (2 ^ 64) with 18446744073709551616.
    assert (Hsum : Z.of_N x / 10 * 10 + Z.of_N x mod 10 = Z.of_N x) by lia.
    rewrite Hsum.
    rewrite (Z.mod_small (Z.of_N x)) by lia.
    destruct (Z.leb_spec 1844674407370955162 (Z.of_N x / 10)); [lia |].
    destruct (Z.ltb_spec (Z.of_N x) (Z.of_N x / 10 * 10)); [lia |].
    destruct (Z.ltb_spec 18446744073709551615 (Z.of_N x)); [lia |].
    reflexivity.
Qed.

Lemma ParseUint_loop_digits s n v :
  strconv.ParseUint_loop s n = inl v ->
  match s with String c _ => strconv.is_digit c = true | EmptyString => True end.
Proof.
  destruct s as [|c rest]; [done |]. cbn [strconv.ParseUint_loop].
  destruct (strconv.is_digit c); [done | discriminate].
Qed.

Lemma ParseUint_pretty_pos (p : positive) :
  Z.pos p <= strconv.maxUint64 ->
  exists c rest, pretty p = String c rest
                 /\ strconv.is_digit c = true
                 /\ strconv.ParseUint (pretty p) = inl (Z.pos p).
Proof.
  intros Hp.
  assert (Heq : pretty p = pretty_N_go (N.pos p) "").
  { unfold pretty, pretty_positive, pretty, pretty_N.
    destruct (decide (N.pos p = 0%N)) as [|_]; done. }
  rewrite Heq.
  pose proof (ParseUint_loop_pretty_go (N.pos p) "" Hp) as Hloop.
  cbn [strconv.ParseUint_loop] in Hloop. change (Z.of_N (N.pos p)) with (Z.pos p) in Hloop.
  pose proof (ParseUint_loop_digits _ _ _ Hloop) as Hdig.
  destruct (pretty_N_go (N.pos p) "") as [|c rest] eqn:Hs.
  - cbn in Hloop. discriminate.
  - exists c, rest. repeat split; [done |]. unfold strconv.ParseUint. exact Hloop.
Qed.

(** [strconv.ParseInt] reads back the decimal text of a 64-bit integer. *)
Lemma ParseInt_pretty (n : Z) :
  - 2 ^ 63 <= n < 2 ^ 63 -> strconv.ParseInt (pretty n) = (n, None).
Proof.
  intros Hn. unfold pretty, pretty_Z. destruct n as [|p|p].
  - reflexivity.
  - destruct (ParseUint_pretty_pos p) as (c & rest & Hs & Hd & Hp);
      [unfold strconv.maxUint64; lia |].
    unfold strconv.ParseInt. rewrite Hs in *.
    assert (Hplus : Ascii.eqb c "+" = false).
    { destruct (Ascii.eqb_spec c "+") as [-> |]; [discriminate | done]. }
    assert (Hminus : Ascii.eqb c "-" = false).
    { destruct (Ascii.eqb_spec c "-") as [-> |]; [discriminate | done]. }
    rewrite Hplus, Hminus. cbn [orb]. rewrite Hp. cbn [negb andb].
    destruct (Z.leb_spec (2 ^ 63) (Z.pos p)); [lia | reflexivity].
  - destruct (ParseUint_pretty_pos p) as (c & rest & Hs & Hd & Hp);
      [unfold strconv.maxUint64; lia |].
    unfold strconv.ParseInt. change ("-" +:+ pretty p) with (String "-" (pretty p)).
    cbn [Ascii.eqb Bool.eqb orb andb negb]. rewrite Hp.
    destruct (Z.ltb_spec (2 ^ 63) (Z.pos p)); [lia | reflexivity].
Qed.

(** The text INCR stores is one INCR reads. *)
Lemma string2ll_pretty (n : Z) :
  - 2 ^ 63 <= n < 2 ^ 63 -> miniredis.string2ll (pretty n) = Some n.
Proof.
  intros Hn. unfold miniredis.string2ll. rewrite ParseInt_pretty by done.
  by rewrite String.eqb_refl.
Qed.

(** ** The sliding counter *)

Lemma ParseUint_loop_nonneg s : forall n v,
  0 <= n -> strconv.ParseUint_loop s n = inl v -> 0 <= v.
Proof.
  induction s as [|c rest IH]; intros n v Hn; cbn [strconv.ParseUint_loop].
  - intros [= <-]. done.
  - destruct (negb (strconv.is_digit c)); [discriminate |].
    destruct (_ <=? n); [discriminate |].
    destruct (_ || _); [discriminate |].
    apply IH. apply Z.mod_pos_bound. lia.
Qed.

Lemma ParseUint_nonneg s v : strconv.ParseUint s = inl v -> 0 <= v.
Proof.
  unfold strconv.ParseUint. destruct s as [|c rest]; [discriminate |].
  apply ParseUint_loop_nonneg. lia.
Qed.

Lemma ParseInt_range s n : strconv.ParseInt s = (n, None) -> - 2 ^ 63 <= n < 2 ^ 63.
Proof.
  unfold strconv.ParseInt. destruct s as [|c rest]; [discriminate |].
  destruct (strconv.ParseUint _) as [un | []] eqn:Hun.
  - assert (0 <= un) by (eapply ParseUint_nonneg; exact Hun).
    destruct (Ascii.eqb c "-"); cbn [negb andb].
    + destruct (Z.ltb_spec (2 ^ 63) un); [discriminate |]. intros [= <-]. lia.
    + destruct (Z.leb_spec (2 ^ 63) un); [discriminate |]. intros [= <-]. lia.
  - discriminate.
  - destruct (Ascii.eqb c "-"); discriminate.
Qed.

Lemma string2ll_inv s n :
  miniredis.string2ll s = Some n -> s = pretty n /\ - 2 ^ 63 <= n < 2 ^ 63.
Proof.
  unfold miniredis.string2ll. destruct (strconv.ParseInt s) as [m [e|]] eqn:Hp; [discriminate |].
  destruct (String.eqb_spec (pretty m) s) as [Heq|]; [| discriminate].
  intros [= <-]. split; [done |]. by apply ParseInt_range in Hp.
Qed.

Lemma live_insert (w : miniredis.World) key e :
  miniredis.expired (miniredis.clock w) e = false ->
  miniredis.live (miniredis.set_keys (<[key := e]> (miniredis.keys w)) w) key = Some e.
Proof.
  intros He. unfold miniredis.live. cbn [miniredis.keys miniredis.set_keys miniredis.clock].
  rewrite lookup_insert_eq. by rewrite He.
Qed.

Lemma live_not_expired (w : miniredis.World) key e :
  miniredis.live w key = Some e -> miniredis.expired (miniredis.clock w) e = false.
Proof.
  unfold miniredis.live. destruct (miniredis.keys w !! key) as [e'|]; [| discriminate].
  destruct (miniredis.expired _ e') eqn:He; [discriminate |]. by intros [= <-].
Qed.

(** The adapter's IncrementWithTTL on a server whose transport delivers. *)
Lemma IncrementWithTTL_delivered key ttl (w : miniredis.World) n :
  miniredis.wire w = [] -> counter w key = Some n -> n < 2 ^ 63 - 1 ->
  redisCache.IncrementWithTTL miniredis.cache key ttl w
  = ((n + 1, None),
     miniredis.set_keys
       (if ttl <=? 0 then delete key (miniredis.keys w)
        else <[key := {| miniredis.data := pretty (n + 1);
                         miniredis.deadline := Some (miniredis.clock w + whole_seconds ttl) |}]>
               (miniredis.keys w)) w).
Proof.
  intros Hw Hc Hn.
  unfold redisCache.IncrementWithTTL, redis.Exec2, bind, ret.
  cbn [redisCache.client miniredis.cache miniredis.client redis.Incr redis.Expire].
  rewrite roundtrip_delivers by done.
  assert (Hsec : (redis.formatSec ttl <=? 0) = (ttl <=? 0)
                 /\ (0 < ttl -> redis.formatSec ttl * time.Second = whole_seconds ttl)).
  { destruct (Z.leb_spec ttl 0) as [Hle | Hpos].
    - split; [| lia]. apply Z.leb_le. by apply formatSec_nonpos.
    - destruct (formatSec_positive ttl Hpos) as [Hp Hs]. split; [| done].
      apply Z.leb_gt. lia. }
  destruct Hsec as [Hleb Hs].
  unfold counter in Hc. unfold miniredis.INCR at 1.
  destruct (miniredis.live w key) as [e|] eqn:Hlive.
  - rewrite Hc. destruct (Z.leb_spec (2 ^ 63 - 1) n); [lia |].
    rewrite roundtrip_delivers by done.
    unfold miniredis.EXPIRE.
    rewrite live_insert by (apply live_not_expired in Hlive; exact Hlive).
    rewrite Hleb. destruct (Z.leb_spec ttl 0) as [Hle | Hpos];
      cbn [miniredis.keys miniredis.set_keys miniredis.clock miniredis.data
           redis.cmdsFirstErr redis.Err redis.Result List.find fst snd].
    + by rewrite delete_insert_eq.
    + rewrite insert_insert_eq, Hs by done. reflexivity.
  - injection Hc as <-.
    rewrite roundtrip_delivers by done.
    unfold miniredis.EXPIRE.
    rewrite live_insert by reflexivity.
    rewrite Hleb. destruct (Z.leb_spec ttl 0) as [Hle | Hpos];
      cbn [miniredis.keys miniredis.set_keys miniredis.clock miniredis.data
           redis.cmdsFirstErr redis.Err redis.Result List.find fst snd].
    + by rewrite delete_insert_eq.
    + rewrite insert_insert_eq, Hs by done. reflexivity.
Qed.

Lemma LogIPAttempt_delivered userID ipAddress (w : miniredis.World) n :
  let key := "ip_attempt:" +:+ userID +:+ ":" +:+ ipAddress in
  miniredis.wire w = [] -> counter w key = Some n -> n < 2 ^ 63 - 1 ->
  fst (jwtCache.LogIPAttempt miniredis.jwt userID ipAddress w) = None
  /\ miniredis.keys (snd (jwtCache.LogIPAttempt miniredis.jwt userID ipAddress w))
     = <[key := {| miniredis.data := pretty (n + 1);
                   miniredis.deadline := Some (miniredis.clock w + 24 * time.Hour) |}]>
         (miniredis.keys w).
Proof.
  cbv zeta. intros Hw Hc Hn.
  unfold jwtCache.LogIPAttempt, bind, ret, IPAttemptPrefix.
  cbn [jwtCache.cache miniredis.jwt jwtCache.NewJWTCache redisCache.as_Cache
       Cache.IncrementWithTTL].
  rewrite (IncrementWithTTL_delivered _ _ _ n) by done.
  split; reflexivity.
Qed.

(** C6: the sliding counter.  On a server whose transport delivers, a call
    of IncrementWithTTL on a key counting [n] (0 when the key is absent)
    returns [n + 1] and touches no other key.  With a positive [ttl] it
    leaves [n + 1] under the key, whatever deadline the key had before, with
    the time to live Expire sends: the whole seconds of [ttl], one second
    when [ttl] is below a second; that is [ttl] itself when [ttl] is a whole
    number of seconds, and less than a second away from it otherwise.  With
    a [ttl] of zero or less the key is removed after the increment.
    LogIPAttempt calls it on the attempt key with a ttl of 24 hours, which
    are whole seconds and are applied as they are. *)
Theorem IncrementWithTTL_slides (key : string) (ttl : time.Duration)
    (w : miniredis.World) (n : Z) :
  miniredis.wire w = [] -> counter w key = Some n -> n < 2 ^ 63 - 1 ->
  let out := redisCache.IncrementWithTTL miniredis.cache key ttl w in
  fst out = (n + 1, None)
  /\ (miniredis.live w key = None -> fst out = (1, None))
  /\ (forall k, k <> key -> miniredis.keys (snd out) !! k = miniredis.keys w !! k)
  /\ (0 < ttl ->
      miniredis.keys (snd out)
      = <[key := {| miniredis.data := pretty (n + 1);
                    miniredis.deadline := Some (miniredis.clock w + whole_seconds ttl) |}]>
          (miniredis.keys w)
      /\ TTL (snd out) key = Some (whole_seconds ttl)
      /\ counter (snd out) key = Some (n + 1)
      /\ (ttl mod time.Second = 0 -> TTL (snd out) key = Some ttl)
      /\ (ttl < time.Second -> TTL (snd out) key = Some time.Second)
      /\ ttl - time.Second < whole_seconds ttl
      /\ whole_seconds ttl <= Z.max ttl time.Second)
  /\ (ttl <= 0 ->
      miniredis.keys (snd out) = delete key (miniredis.keys w)
      /\ counter (snd out) key = Some 0)
  /\ (forall userID ipAddress,
        key = "ip_attempt:" +:+ userID +:+ ":" +:+ ipAddress ->
        let logged := jwtCache.LogIPAttempt miniredis.jwt userID ipAddress w in
        fst logged = None
        /\ miniredis.keys (snd logged)
           = miniredis.keys (snd (redisCache.IncrementWithTTL miniredis.cache key
                                    (24 * time.Hour) w))
        /\ TTL (snd logged) key = Some (24 * time.Hour)
        /\ 24 * time.Hour = 86400 * time.Second).
Proof.
  intros Hw Hc Hn. cbv zeta.
  rewrite (IncrementWithTTL_delivered _ _ _ n) by done.
  cbn [fst snd miniredis.keys miniredis.set_keys].
  assert (Hrange : - 2 ^ 63 <= n + 1 < 2 ^ 63).
  { unfold counter in Hc. destruct (miniredis.live w key) as [e|].
    - apply string2ll_inv in Hc. lia.
    - injection Hc as <-. lia. }
  split; [done |]. split.
  { intros Hl. unfold counter in Hc. rewrite Hl in Hc. by injection Hc as <-. }
  split.
  { intros k Hne. destruct (ttl <=? 0).
    - by rewrite lookup_delete_ne.
    - by rewrite lookup_insert_ne. }
  split.
  { intros Hpos. destruct (Z.leb_spec ttl 0); [lia |].
    destruct (whole_seconds_bounds ttl Hpos) as (Hone & Hlow & Hhigh & Hsmall & Hexact).
    assert (Httl : TTL (miniredis.set_keys
                          (<[key := {| miniredis.data := pretty (n + 1);
                                       miniredis.deadline :=
                                         Some (miniredis.clock w + whole_seconds ttl) |}]>
                             (miniredis.keys w)) w) key
                   = Some (whole_seconds ttl)).
    { unfold TTL. cbn [miniredis.keys miniredis.set_keys miniredis.clock].
      rewrite lookup_insert_eq. cbn. f_equal. lia. }
    rewrite Httl. split; [done |]. split; [done |]. split.
    { unfold counter. rewrite live_insert.
      - cbn [miniredis.data]. by apply string2ll_pretty.
      - unfold miniredis.expired. cbn [miniredis.deadline].
        apply Z.leb_gt. unfold time.Second in Hone. lia. }
    split; [intros Hm; f_equal; by apply Hexact |].
    split; [intros Hm; f_equal; by apply Hsmall |].
    split; [exact Hlow | exact Hhigh]. }
  split.
  { intros Hle. destruct (Z.leb_spec ttl 0); [| lia]. split; [done |].
    unfold counter, miniredis.live. cbn [miniredis.keys miniredis.set_keys].
    by rewrite lookup_delete_eq. }
  intros userID ipAddress ->.
  destruct (LogIPAttempt_delivered userID ipAddress w n Hw Hc Hn) as [Herr Hkeys].
  split; [done |]. rewrite Hkeys.
  rewrite (IncrementWithTTL_delivered _ _ _ n) by done.
  cbn [fst snd miniredis.keys miniredis.set_keys].
  split; [reflexivity |]. split; [| reflexivity].
  unfold TTL. rewrite Hkeys, lookup_insert_eq. cbn [miniredis.deadline fmap option_fmap option_map].
  f_equal.
  assert (Hclock : miniredis.clock (snd (jwtCache.LogIPAttempt miniredis.jwt userID ipAddress w))
                   = miniredis.clock w).
  { unfold jwtCache.LogIPAttempt, bind, ret, IPAttemptPrefix.
    cbn [jwtCache.cache miniredis.jwt jwtCache.NewJWTCache redisCache.as_Cache
         Cache.IncrementWithTTL].
    rewrite (IncrementWithTTL_delivered _ _ _ n) by done. reflexivity. }
  rewrite Hclock. lia.
Qed.

(** A first attempt on a server just started. *)
Lemma IncrementWithTTL_slides_witness :
  fst (redisCache.IncrementWithTTL miniredis.cache "ip_attempt:u:1.1.1.1" (24 * time.Hour)
         (miniredis.start 1000)) = (1, None)
  /\ TTL (snd (redisCache.IncrementWithTTL miniredis.cache "ip_attempt:u:1.1.1.1"
                 (24 * time.Hour) (miniredis.start 1000))) "ip_attempt:u:1.1.1.1"
     = Some (24 * time.Hour).
Proof.
  pose proof (IncrementWithTTL_slides "ip_attempt:u:1.1.1.1" (24 * time.Hour)
                (miniredis.start 1000) 0 eq_refl eq_refl ltac:(lia))
    as (H1 & _ & _ & H2 & _).
  split; [exact H1 |].
  destruct (H2 ltac:(vm_compute; reflexivity)) as (_ & _ & _ & Hexact & _).
  exact (Hexact eq_refl).
Defined.

(** C6, as stated, fails: a ttl of a second and a half is applied as one
    second. *)
Lemma IncrementWithTTL_ttl_is_not_the_given_ttl :
  let ttl := 1500 * time.Millisecond in
  let out := redisCache.IncrementWithTTL miniredis.cache "counter" ttl (miniredis.start 0) in
  fst out = (1, None)
  /\ TTL (snd out) "counter" = Some time.Second
  /\ TTL (snd out) "counter" <> Some ttl.
Proof.
  cbv zeta. split; [vm_compute; reflexivity |].
  assert (H : TTL (snd (redisCache.IncrementWithTTL miniredis.cache "counter"
                          (1500 * time.Millisecond) (miniredis.start 0))) "counter"
              = Some time.Second) by (vm_compute; reflexivity).
  split; [exact H |]. rewrite H. vm_compute. discriminate.
Qed.

(** Two attempts ten hours apart: the second is counted 2 and the key lives
    24 hours from the second attempt, not from the first. *)
Example attempts_window_slides :
  let w1 := snd (jwtCache.LogIPAttempt miniredis.jwt "u" "1.1.1.1" (miniredis.start 0)) in
  let w2 := snd (jwtCache.LogIPAttempt miniredis.jwt "u" "1.1.1.1"
                   (miniredis.FastForward (10 * time.Hour) w1)) in
  fst (jwtCache.GetIPAttempts miniredis.jwt "u" "1.1.1.1" w2) = (2, None)
  /\ TTL w1 "ip_attempt:u:1.1.1.1" = Some (24 * time.Hour)
  /\ TTL w2 "ip_attempt:u:1.1.1.1" = Some (24 * time.Hour)
  /\ fst (jwtCache.GetIPAttempts miniredis.jwt "u" "1.1.1.1"
            (miniredis.FastForward (24 * time.Hour) w2)) = (0, None).
Proof. cbv zeta. repeat split; vm_compute; reflexivity. Qed.

(** ** The repository on a store whose transport delivers *)

Lemma db_roundtrip_delivers {A} (zero : A) serve (d : postgres.DB) :
  postgres.wire d = [] -> postgres.roundtrip zero serve d = serve d.
Proof. intros Hw. unfold postgres.roundtrip. by rewrite Hw. Qed.

Lemma statement_delivered q b (d : postgres.DB) t out n t' :
  postgres.wire d = [] ->
  postgres.resolve q d = inl t ->
  postgres.run (postgres.now d) b q t = inl (out, n, t') ->
  postgres.statement q b d
  = ((out, n, None), postgres.set_tables (<[sql.stmt_table q := t']> (postgres.tables d)) d).
Proof.
  intros Hw Hr Hrun. unfold postgres.statement.
  rewrite db_roundtrip_delivers by done. by rewrite Hr, Hrun.
Qed.

Lemma resolve_table q (d : postgres.DB) t :
  postgres.resolve q d = inl t -> postgres.tables d !! sql.stmt_table q = Some t.
Proof.
  unfold postgres.resolve. destruct (postgres.tables d !! sql.stmt_table q) as [t'|]; [| done].
  destruct (List.find _ _); [done |]. by intros [= ->].
Qed.

(** A resolved statement still resolves when only the rows of its table
    have changed. *)
Lemma resolve_with_rows q (d : postgres.DB) t rs :
  postgres.resolve q d = inl t ->
  postgres.resolve q
    (postgres.set_tables (<[sql.stmt_table q := postgres.with_rows t rs]> (postgres.tables d)) d)
  = inl (postgres.with_rows t rs).
Proof.
  unfold postgres.resolve. cbn [postgres.tables postgres.set_tables].
  rewrite lookup_insert_eq.
  destruct (postgres.tables d !! sql.stmt_table q) as [t'|]; [| done].
  destruct (List.find _ _) eqn:Hf; [done |]. intros [= ->].
  unfold postgres.has_column in *. cbn [postgres.columns postgres.with_rows]. by rewrite Hf.
Qed.

Lemma filter_filter_neg {A} (f : A -> bool) (l : list A) :
  List.filter f (List.filter (fun x => negb (f x)) l) = [].
Proof.
  induction l as [|x l IH]; [done |]. cbn. destruct (f x) eqn:Hx; cbn; [done |].
  by rewrite Hx.
Qed.

Lemma filter_neg_idem {A} (f : A -> bool) (l : list A) :
  List.filter (fun x => negb (f x)) (List.filter (fun x => negb (f x)) l)
  = List.filter (fun x => negb (f x)) l.
Proof.
  induction l as [|x l IH]; [done |]. cbn. destruct (f x) eqn:Hx; cbn; [done |].
  by rewrite Hx, IH.
Qed.

Lemma CleanExpired_holds now b r :
  sql.holds now b (sql.Lt (sql.Col sql.expires_at) sql.NOW) r = past_expiry now r.
Proof. reflexivity. Qed.

Lemma CleanExpired_delivered (d : postgres.DB) t :
  postgres.wire d = [] ->
  postgres.resolve refreshTokenRepo.CleanExpired_query d = inl t ->
  refreshTokenRepo.CleanExpired postgres.repo d
  = ((Z.of_nat (length (List.filter (past_expiry (postgres.now d)) (postgres.rows t))), None),
     postgres.set_tables
       (<["refresh_tokens" :=
            postgres.with_rows t
              (List.filter (fun r => negb (past_expiry (postgres.now d) r)) (postgres.rows t))]>
          (postgres.tables d)) d).
Proof.
  intros Hw Hr. unfold refreshTokenRepo.CleanExpired, bind, ret.
  cbn [refreshTokenRepo.db postgres.repo postgres.handle sqlx.ExecContext].
  unfold bind, ret.
  erewrite statement_delivered; [| done | exact Hr | reflexivity].
  reflexivity.
Qed.

(** C7: CleanExpired.  On a store whose transport delivers and in which the
    statement resolves, the call removes exactly the rows whose expires_at
    is strictly before the clock of the store and returns their number; the
    rows that remain are the other rows, unchanged and in their order; no
    other table changes; 0 is returned without error when nothing has
    expired; a second call at the same clock removes nothing and returns
    0. *)
Theorem CleanExpired_removes_expired (d : postgres.DB) (t : postgres.Table) :
  postgres.wire d = [] ->
  postgres.resolve refreshTokenRepo.CleanExpired_query d = inl t ->
  let out := refreshTokenRepo.CleanExpired postgres.repo d in
  let gone := List.filter (past_expiry (postgres.now d)) (postgres.rows t) in
  let kept := List.filter (fun r => negb (past_expiry (postgres.now d) r)) (postgres.rows t) in
  fst out = (Z.of_nat (length gone), None)
  /\ postgres.refresh_tokens (snd out) = Some kept
  /\ (forall r, In r kept <-> In r (postgres.rows t) /\ postgres.now d <= models.ExpiresAt r)
  /\ (forall r, In r gone <-> In r (postgres.rows t) /\ models.ExpiresAt r < postgres.now d)
  /\ (length gone + length kept = length (postgres.rows t))%nat
  /\ (forall name, name <> "refresh_tokens" ->
        postgres.tables (snd out) !! name = postgres.tables d !! name)
  /\ postgres.now (snd out) = postgres.now d
  /\ (gone = [] -> fst out = (0, None) /\ postgres.refresh_tokens (snd out) = Some (postgres.rows t))
  /\ fst (refreshTokenRepo.CleanExpired postgres.repo (snd out)) = (0, None)
  /\ postgres.refresh_tokens (snd (refreshTokenRepo.CleanExpired postgres.repo (snd out)))
     = Some kept.
Proof.
  intros Hw Hr. cbv zeta.
  rewrite (CleanExpired_delivered d t Hw Hr). cbn [fst snd].
  set (now := postgres.now d).
  set (kept := List.filter (fun r => negb (past_expiry now r)) (postgres.rows t)).
  assert (Hrows : forall rs,
            postgres.refresh_tokens
              (postgres.set_tables
                 (<["refresh_tokens" := postgres.with_rows t rs]> (postgres.tables d)) d)
            = Some rs).
  { intros rs. unfold postgres.refresh_tokens. cbn [postgres.tables postgres.set_tables].
    by rewrite lookup_insert_eq. }
  split; [done |]. split; [apply Hrows |]. split.
  { intros r. unfold kept. rewrite filter_In. unfold past_expiry.
    destruct (Z.ltb_spec (models.ExpiresAt r) now); cbn; intuition (try lia; try discriminate). }
  split.
  { intros r. rewrite filter_In. unfold past_expiry.
    destruct (Z.ltb_spec (models.ExpiresAt r) now); cbn; intuition (try lia; try discriminate). }
  split.
  { unfold kept. clear. induction (postgres.rows t) as [|r rs IH]; [done |].
    cbn. destruct (past_expiry now r); cbn; lia. }
  split.
  { intros name Hne. cbn [postgres.tables postgres.set_tables]. by rewrite lookup_insert_ne. }
  split; [done |]. split.
  { intros Hgone. rewrite Hgone. split; [done |]. rewrite Hrows. f_equal.
    unfold kept. revert Hgone. clear. induction (postgres.rows t) as [|r rs IH]; [done |].
    cbn. destruct (past_expiry now r); cbn; [discriminate |]. intros Hg. by rewrite IH. }
  pose proof (resolve_with_rows _ d t kept Hr) as Hr'.
  change (sql.stmt_table refreshTokenRepo.CleanExpired_query) with "refresh_tokens" in Hr'.
  erewrite CleanExpired_delivered; [| exact Hw | exact Hr'].
  cbn [fst snd postgres.now postgres.set_tables postgres.rows postgres.with_rows postgres.tables].
  fold now. unfold kept at 1. rewrite filter_filter_neg. split; [done |].
  unfold postgres.refresh_tokens. cbn [postgres.tables postgres.set_tables].
  rewrite lookup_insert_eq. cbn. f_equal. apply filter_neg_idem.
Qed.

(** Two tokens, one of them past its expiry at time 500. *)
Lemma CleanExpired_removes_expired_witness :
  fst (refreshTokenRepo.CleanExpired postgres.repo
         (store_with 500 [token 1 "user-1" 100 400; token 2 "user-1" 100 600])) = (1, None)
  /\ postgres.refresh_tokens
       (snd (refreshTokenRepo.CleanExpired postgres.repo
               (store_with 500 [token 1 "user-1" 100 400; token 2 "user-1" 100 600])))
     = Some [token 2 "user-1" 100 600].
Proof.
  pose proof (CleanExpired_removes_expired
                (store_with 500 [token 1 "user-1" 100 400; token 2 "user-1" 100 600])
                {| postgres.columns := sql.table_columns migrations.create_refresh_tokens;
                   postgres.rows := [token 1 "user-1" 100 400; token 2 "user-1" 100 600];
                   postgres.serial := 3 |}
                eq_refl eq_refl) as (H1 & H2 & _).
  split; [exact H1 | exact H2].
Defined.

(** ** MarkAsUsed, Delete and DeleteAllByUserID *)

Section RepositoryErrors.
Context {S : Type} (r : refreshTokenRepo.t S).

Lemma MarkAsUsed_not_found_iff tokenID s :
  let res := fst (sqlx.ExecContext (refreshTokenRepo.db r) refreshTokenRepo.MarkAsUsed_query
                    [sql.Int tokenID] s) in
  fst (refreshTokenRepo.MarkAsUsed r tokenID s) = Some (token_not_found tokenID)
  <-> snd res = None /\ sqlx.RowsAffected (fst res) = (0, None).
Proof.
  cbv zeta. unfold refreshTokenRepo.MarkAsUsed, token_not_found, bind, ret.
  destruct (sqlx.ExecContext _ _ _ s) as [[[[n [re|]]] [e|]] s1]; cbn [fst snd sqlx.RowsAffected].
  - destruct (logger.Logger.Error _ _ _ _) as [[] ?]; cbn. split; [discriminate | intros [? _]; done].
  - destruct (logger.Logger.Error _ _ _ _) as [[] ?]; cbn. split; [discriminate | intros [_ ?]; done].
  - destruct (logger.Logger.Error _ _ _ _) as [[] ?]; cbn. split; [discriminate | intros [? _]; done].
  - destruct (Z.eqb_spec n 0) as [-> | Hn].
    + destruct (logger.Logger.Warn _ _ _ _) as [[] ?]; cbn. done.
    + destruct (logger.Logger.Info _ _ _ _) as [[] ?]; cbn.
      split; [discriminate | intros [_ [= ?]]; done].
Qed.

Lemma MarkAsUsed_exec_error tokenID s e :
  snd (fst (sqlx.ExecContext (refreshTokenRepo.db r) refreshTokenRepo.MarkAsUsed_query
              [sql.Int tokenID] s)) = Some e ->
  fst (refreshTokenRepo.MarkAsUsed r tokenID s)
  = Some (errors.Wrap "failed to mark token as used: " e).
Proof.
  unfold refreshTokenRepo.MarkAsUsed, bind, ret.
  destruct (sqlx.ExecContext _ _ _ s) as [[res err] s1]; cbn [fst snd]. intros ->.
  destruct (logger.Logger.Error _ _ _ _) as [[] ?]; reflexivity.
Qed.

Lemma Delete_not_found_iff tokenID s :
  let res := fst (sqlx.ExecContext (refreshTokenRepo.db r) refreshTokenRepo.Delete_query
                    [sql.Int tokenID] s) in
  fst (refreshTokenRepo.Delete r tokenID s) = Some (token_not_found tokenID)
  <-> snd res = None /\ sqlx.RowsAffected (fst res) = (0, None).
Proof.
  cbv zeta. unfold refreshTokenRepo.Delete, token_not_found, bind, ret.
  destruct (sqlx.ExecContext _ _ _ s) as [[[[n [re|]]] [e|]] s1]; cbn [fst snd sqlx.RowsAffected].
  - destruct (logger.Logger.Error _ _ _ _) as [[] ?]; cbn. split; [discriminate | intros [? _]; done].
  - destruct (logger.Logger.Error _ _ _ _) as [[] ?]; cbn. split; [discriminate | intros [_ ?]; done].
  - destruct (logger.Logger.Error _ _ _ _) as [[] ?]; cbn. split; [discriminate | intros [? _]; done].
  - destruct (Z.eqb_spec n 0) as [-> | Hn].
    + destruct (logger.Logger.Warn _ _ _ _) as [[] ?]; cbn. done.
    + destruct (logger.Logger.Info _ _ _ _) as [[] ?]; cbn.
      split; [discriminate | intros [_ [= ?]]; done].
Qed.

Lemma Delete_exec_error tokenID s e :
  snd (fst (sqlx.ExecContext (refreshTokenRepo.db r) refreshTokenRepo.Delete_query
              [sql.Int tokenID] s)) = Some e ->
  fst (refreshTokenRepo.Delete r tokenID s)
  = Some (errors.Wrap "failed to delete token: " e).
Proof.
  unfold refreshTokenRepo.Delete, bind, ret.
  destruct (sqlx.ExecContext _ _ _ s) as [[res err] s1]; cbn [fst snd]. intros ->.
  destruct (logger.Logger.Error _ _ _ _) as [[] ?]; reflexivity.
Qed.

Lemma DeleteAllByUserID_nil_iff userID s :
  fst (refreshTokenRepo.DeleteAllByUserID r userID s) = None
  <-> snd (fst (sqlx.ExecContext (refreshTokenRepo.db r)
                  refreshTokenRepo.DeleteAllByUserID_query [sql.Text userID] s)) = None.
Proof.
  unfold refreshTokenRepo.DeleteAllByUserID, bind, ret.
  destruct (sqlx.ExecContext _ _ _ s) as [[res [e|]] s1]; cbn [fst snd]; split; done.
Qed.

End RepositoryErrors.

Lemma wrap_is_not_token_not_found prefix e tokenID :
  errors.Wrap prefix e <> token_not_found tokenID.
Proof. unfold errors.Wrap, token_not_found. congruence. Qed.

Lemma update_rows_mark now tokenID rs :
  postgres.update_rows now {| sql.args := [sql.Int tokenID]; sql.named := models.zero |}
    [(sql.is_used, sql.Const (sql.Boolean true)); (sql.updated_at, sql.NOW)]
    (sql.Eq (sql.Col sql.id) (sql.Arg 1)) rs
  = Some (map (fun r => if models.ID r =? tokenID then mark now r else r) rs,
          Z.of_nat (length (List.filter (fun r => models.ID r =? tokenID) rs))).
Proof.
  induction rs as [|r rs IH]; [done |].
  cbn [postgres.update_rows]. rewrite IH.
  change (sql.holds now _ (sql.Eq (sql.Col sql.id) (sql.Arg 1)) r) with (models.ID r =? tokenID).
  cbn [map List.filter]. destruct (models.ID r =? tokenID).
  - destruct r. cbn [postgres.apply_set sql.eval sql.assign length]. do 2 f_equal. lia.
  - reflexivity.
Qed.

Lemma no_match_length {A} (f : A -> bool) (l : list A) :
  Z.of_nat (length (List.filter f l)) = 0 <-> forall x, In x l -> f x = false.
Proof.
  induction l as [|x l IH]; cbn.
  - split; [intros _ ? [] | done].
  - destruct (f x) eqn:Hx; cbn [length].
    + split; [lia |]. intros Hall. specialize (Hall x (or_introl eq_refl)). congruence.
    + rewrite IH. split.
      * intros Hall y [<- | Hy]; auto.
      * intros Hall y Hy. apply Hall. by right.
Qed.

Lemma MarkAsUsed_delivered tokenID (d : postgres.DB) t :
  postgres.wire d = [] ->
  postgres.resolve refreshTokenRepo.MarkAsUsed_query d = inl t ->
  fst (refreshTokenRepo.MarkAsUsed postgres.repo tokenID d)
  = (if Z.of_nat (length (List.filter (fun r => models.ID r =? tokenID) (postgres.rows t))) =? 0
     then Some (token_not_found tokenID) else None)
  /\ postgres.refresh_tokens (snd (refreshTokenRepo.MarkAsUsed postgres.repo tokenID d))
     = Some (map (fun r => if models.ID r =? tokenID then mark (postgres.now d) r else r)
               (postgres.rows t)).
Proof.
  intros Hw Hr. unfold refreshTokenRepo.MarkAsUsed, bind, ret.
  cbn [refreshTokenRepo.db postgres.repo postgres.handle sqlx.ExecContext].
  unfold bind, ret.
  erewrite statement_delivered; [| done | exact Hr |].
  2:{ cbn [postgres.run refreshTokenRepo.MarkAsUsed_query]. rewrite update_rows_mark. reflexivity. }
  cbn [fst snd sqlx.RowsAffected].
  destruct (_ =? 0); cbn; unfold postgres.refresh_tokens; cbn;
    rewrite lookup_insert_eq; done.
Qed.

Lemma Delete_delivered tokenID (d : postgres.DB) t :
  postgres.wire d = [] ->
  postgres.resolve refreshTokenRepo.Delete_query d = inl t ->
  fst (refreshTokenRepo.Delete postgres.repo tokenID d)
  = (if Z.of_nat (length (List.filter (fun r => models.ID r =? tokenID) (postgres.rows t))) =? 0
     then Some (token_not_found tokenID) else None)
  /\ postgres.refresh_tokens (snd (refreshTokenRepo.Delete postgres.repo tokenID d))
     = Some (List.filter (fun r => negb (models.ID r =? tokenID)) (postgres.rows t)).
Proof.
  intros Hw Hr. unfold refreshTokenRepo.Delete, bind, ret.
  cbn [refreshTokenRepo.db postgres.repo postgres.handle sqlx.ExecContext].
  unfold bind, ret.
  erewrite statement_delivered; [| done | exact Hr | reflexivity].
  cbn [fst snd sqlx.RowsAffected].
  change (sql.holds (postgres.now d) _ (sql.Eq (sql.Col sql.id) (sql.Arg 1)))
    with (fun r => models.ID r =? tokenID).
  destruct (_ =? 0); cbn; unfold postgres.refresh_tokens; cbn;
    rewrite lookup_insert_eq; done.
Qed.

Lemma DeleteAllByUserID_delivered userID (d : postgres.DB) t :
  postgres.wire d = [] ->
  postgres.resolve refreshTokenRepo.DeleteAllByUserID_query d = inl t ->
  fst (refreshTokenRepo.DeleteAllByUserID postgres.repo userID d) = None
  /\ postgres.refresh_tokens (snd (refreshTokenRepo.DeleteAllByUserID postgres.repo userID d))
     = Some (List.filter (fun r => negb (owned_by userID r)) (postgres.rows t)).
Proof.
  intros Hw Hr. unfold refreshTokenRepo.DeleteAllByUserID, bind, ret.
  cbn [refreshTokenRepo.db postgres.repo postgres.handle sqlx.ExecContext].
  unfold bind, ret.
  erewrite statement_delivered; [| done | exact Hr | reflexivity].
  cbn [fst snd]. split; [done |].
  unfold postgres.refresh_tokens; cbn. rewrite lookup_insert_eq. done.
Qed.

Lemma filter_all {A} (f : A -> bool) (l : list A) :
  (forall x, In x l -> f x = true) -> List.filter f l = l.
Proof.
  induction l as [|x l IH]; [done |]. intros Hall. cbn.
  rewrite (Hall x (or_introl eq_refl)). f_equal. apply IH. intros y Hy. apply Hall. by right.
Qed.

(** Every statement of the repository resolves in a store that has the
    table [refresh_tokens] with the columns the spec gives. *)
Lemma resolve_refresh_tokens q (d : postgres.DB) t :
  In q refreshTokenRepo.queries ->
  postgres.tables d !! "refresh_tokens" = Some t ->
  postgres.columns t = sql.table_columns migrations.create_refresh_tokens ->
  postgres.resolve q d = inl t.
Proof.
  intros Hq Ht Hc. unfold postgres.resolve, postgres.has_column.
  cbn in Hq.
  repeat (destruct Hq as [<- | Hq];
          [cbn [sql.stmt_table refreshTokenRepo.Create_query
                refreshTokenRepo.GetActiveByUserID_query refreshTokenRepo.GetByID_query
                refreshTokenRepo.MarkAsUsed_query refreshTokenRepo.DeleteAllByUserID_query
                refreshTokenRepo.Delete_query refreshTokenRepo.CleanExpired_query
                refreshTokenRepo.GetAllActiveByUserID_query];
           rewrite Ht, Hc; reflexivity |]).
  destruct Hq.
Qed.

(** C8: not found against execution error.  For every database handle,
    MarkAsUsed and Delete return the not-found error exactly when the
    statement executed without error and affected zero rows, and an
    execution error is returned wrapped, as a different error;
    DeleteAllByUserID returns nil whenever the statement executed, whatever
    the number of rows.  On the store, with a transport that delivers, zero
    rows are affected exactly when no row has the identifier, and
    DeleteAllByUserID for a user without rows returns nil and leaves the
    table as it was. *)
Theorem not_found_on_zero_rows {S : Type} (r : refreshTokenRepo.t S) (s : S)
    (tokenID : Z) (userID : string) :
  let marked := fst (sqlx.ExecContext (refreshTokenRepo.db r) refreshTokenRepo.MarkAsUsed_query
                       [sql.Int tokenID] s) in
  let deleted := fst (sqlx.ExecContext (refreshTokenRepo.db r) refreshTokenRepo.Delete_query
                        [sql.Int tokenID] s) in
  let purged := fst (sqlx.ExecContext (refreshTokenRepo.db r)
                       refreshTokenRepo.DeleteAllByUserID_query [sql.Text userID] s) in
  (fst (refreshTokenRepo.MarkAsUsed r tokenID s) = Some (token_not_found tokenID)
   <-> snd marked = None /\ sqlx.RowsAffected (fst marked) = (0, None))
  /\ (forall e, snd marked = Some e ->
        fst (refreshTokenRepo.MarkAsUsed r tokenID s)
        = Some (errors.Wrap "failed to mark token as used: " e)
        /\ errors.Wrap "failed to mark token as used: " e <> token_not_found tokenID)
  /\ (fst (refreshTokenRepo.Delete r tokenID s) = Some (token_not_found tokenID)
      <-> snd deleted = None /\ sqlx.RowsAffected (fst deleted) = (0, None))
  /\ (forall e, snd deleted = Some e ->
        fst (refreshTokenRepo.Delete r tokenID s)
        = Some (errors.Wrap "failed to delete token: " e)
        /\ errors.Wrap "failed to delete token: " e <> token_not_found tokenID)
  /\ (fst (refreshTokenRepo.DeleteAllByUserID r userID s) = None <-> snd purged = None)
  /\ (forall (d : postgres.DB) t,
        postgres.wire d = [] ->
        postgres.tables d !! "refresh_tokens" = Some t ->
        postgres.columns t = sql.table_columns migrations.create_refresh_tokens ->
        (fst (refreshTokenRepo.MarkAsUsed postgres.repo tokenID d)
           = Some (token_not_found tokenID)
         <-> forall row, In row (postgres.rows t) -> models.ID row <> tokenID)
        /\ (fst (refreshTokenRepo.Delete postgres.repo tokenID d)
              = Some (token_not_found tokenID)
            <-> forall row, In row (postgres.rows t) -> models.ID row <> tokenID)
        /\ fst (refreshTokenRepo.DeleteAllByUserID postgres.repo userID d) = None
        /\ ((forall row, In row (postgres.rows t) -> models.UserID row <> userID) ->
            postgres.refresh_tokens
              (snd (refreshTokenRepo.DeleteAllByUserID postgres.repo userID d))
            = Some (postgres.rows t))).
Proof.
  cbv zeta.
  split; [apply MarkAsUsed_not_found_iff |].
  split; [intros e He; split;
          [by apply MarkAsUsed_exec_error | apply wrap_is_not_token_not_found] |].
  split; [apply Delete_not_found_iff |].
  split; [intros e He; split;
          [by apply Delete_exec_error | apply wrap_is_not_token_not_found] |].
  split; [apply DeleteAllByUserID_nil_iff |].
  intros d t Hw Ht Hc.
  assert (Hrm : postgres.resolve refreshTokenRepo.MarkAsUsed_query d = inl t)
    by (apply resolve_refresh_tokens; cbn; auto 10).
  assert (Hrd : postgres.resolve refreshTokenRepo.Delete_query d = inl t)
    by (apply resolve_refresh_tokens; cbn; auto 10).
  assert (Hra : postgres.resolve refreshTokenRepo.DeleteAllByUserID_query d = inl t)
    by (apply resolve_refresh_tokens; cbn; auto 10).
  assert (Hzero : Z.of_nat (length (List.filter (fun r => models.ID r =? tokenID) (postgres.rows t))) = 0
                  <-> forall row, In row (postgres.rows t) -> models.ID row <> tokenID).
  { rewrite no_match_length. split; intros Hall row Hin; specialize (Hall row Hin); lia. }
  destruct (MarkAsUsed_delivered tokenID d t Hw Hrm) as [-> _].
  destruct (Delete_delivered tokenID d t Hw Hrd) as [-> _].
  destruct (DeleteAllByUserID_delivered userID d t Hw Hra) as [-> ->].
  rewrite <- Hzero.
  split; [destruct (Z.eqb_spec (Z.of_nat (length
            (List.filter (fun r => models.ID r =? tokenID) (postgres.rows t)))) 0);
          split; congruence |].
  split; [destruct (Z.eqb_spec (Z.of_nat (length
            (List.filter (fun r => models.ID r =? tokenID) (postgres.rows t)))) 0);
          split; congruence |].
  split; [done |].
  intros Hnone. f_equal. apply filter_all. intros row Hin. unfold owned_by.
  destruct (String.eqb_spec (models.UserID row) userID); [by apply Hnone in Hin | done].
Qed.

(** A table with the tokens 1 and 2: marking or deleting 7 is not found,
    marking 2 succeeds, and an execution error is another error. *)
Lemma not_found_on_zero_rows_witness :
  let d := store_with 500 [token 1 "user-1" 100 900; token 2 "user-1" 101 900] in
  fst (refreshTokenRepo.MarkAsUsed postgres.repo 7 d) = Some (token_not_found 7)
  /\ fst (refreshTokenRepo.Delete postgres.repo 7 d) = Some (token_not_found 7)
  /\ fst (refreshTokenRepo.MarkAsUsed postgres.repo 2 d) = None
  /\ fst (refreshTokenRepo.DeleteAllByUserID postgres.repo "nobody" d) = None
  /\ fst (refreshTokenRepo.MarkAsUsed postgres.repo 7
            (postgres.set_wire [Some (errors.New "EOF")] d))
     = Some (errors.Wrap "failed to mark token as used: " (errors.New "EOF")).
Proof.
  cbv zeta.
  set (d := store_with 500 [token 1 "user-1" 100 900; token 2 "user-1" 101 900]).
  pose proof (not_found_on_zero_rows postgres.repo d 7 "nobody") as (H1 & _ & H2 & _ & H3 & _).
  pose proof (not_found_on_zero_rows postgres.repo (postgres.set_wire [Some (errors.New "EOF")] d)
                7 "nobody") as (_ & H4 & _).
  split; [apply H1; split; reflexivity |].
  split; [apply H2; split; reflexivity |].
  split; [reflexivity |].
  split; [apply H3; reflexivity |].
  apply (H4 (errors.New "EOF")). reflexivity.
Defined.

(** ** The active tokens of a user *)

Lemma project_all (r : models.RefreshToken) :
  postgres.project sql.all_columns r models.zero = r.
Proof. by destruct r. Qed.

Lemma StructScan_all (r : models.RefreshToken) :
  sqlx.StructScan {| sqlx.columns := sql.all_columns; sqlx.values := r; sqlx.err := None |}
    models.zero = (r, None).
Proof. by destruct r. Qed.

Lemma active_holds now userID r :
  sql.holds now {| sql.args := [sql.Text userID]; sql.named := models.zero |}
    (sql.And (sql.And (sql.Eq (sql.Col sql.user_id) (sql.Arg 1))
                      (sql.Gt (sql.Col sql.expires_at) sql.NOW))
             (sql.Eq (sql.Col sql.is_used) (sql.Const (sql.Boolean false)))) r
  = owned_by userID r && active now r.
Proof.
  cbn. unfold owned_by, active. destruct (models.IsUsed r); cbn;
    destruct (models.UserID r =? userID)%string, (now <? models.ExpiresAt r); reflexivity.
Qed.

Lemma precedes_created_at x y :
  sql.precedes sql.DESC sql.created_at x y <-> models.CreatedAt y <= models.CreatedAt x.
Proof.
  unfold sql.precedes, sql.comes_first. cbn.
  destruct (Z.ltb_spec (models.CreatedAt x) (models.CreatedAt y)); cbn; split; (lia || done).
Qed.

#[local] Instance precedes_created_at_total : Total (sql.precedes sql.DESC sql.created_at).
Proof. intros x y. rewrite !precedes_created_at. lia. Qed.

#[local] Instance precedes_created_at_trans : Transitive (sql.precedes sql.DESC sql.created_at).
Proof. intros x y z. rewrite !precedes_created_at. lia. Qed.

Lemma filter_Permutation {A} (f : A -> bool) (l l' : list A) :
  l ≡ₚ l' -> List.filter f l ≡ₚ List.filter f l'.
Proof.
  induction 1 as [| x l l' _ IH | x y l | l l' l'' _ IH1 _ IH2]; cbn.
  - done.
  - destruct (f x); [by constructor | done].
  - destruct (f x), (f y); try done. apply perm_swap.
  - by etrans.
Qed.

Lemma filter_and {A} (f g : A -> bool) (l : list A) :
  List.filter (fun x => f x && g x) l = List.filter g (List.filter f l).
Proof.
  induction l as [|x l IH]; [done |]. cbn. destruct (f x); cbn; [| done].
  destruct (g x); by rewrite IH.
Qed.

Lemma found_active_In now userID rs r :
  In r (found_active now userID rs)
  <-> In r rs /\ owned_by userID r = true /\ active now r = true.
Proof.
  unfold found_active.
  rewrite <- list_elem_of_In, merge_sort_Permutation, list_elem_of_In.
  rewrite filter_In, andb_true_iff. tauto.
Qed.

Lemma found_active_head now userID rs r rest :
  found_active now userID rs = r :: rest ->
  forall r', In r' (found_active now userID rs) -> models.CreatedAt r' <= models.CreatedAt r.
Proof.
  intros Hf r'. pose proof (StronglySorted_merge_sort (sql.precedes sql.DESC sql.created_at)
    (List.filter (fun r => owned_by userID r && active now r) rs)) as Hs.
  fold (found_active now userID rs) in Hs. rewrite Hf in *.
  apply StronglySorted_cons in Hs as [Hall _].
  intros [<- | Hin]; [lia |].
  rewrite Forall_forall in Hall. apply precedes_created_at, Hall. by apply list_elem_of_In.
Qed.

Lemma GetActiveByUserID_delivered userID (d : postgres.DB) t :
  postgres.wire d = [] ->
  postgres.resolve refreshTokenRepo.GetActiveByUserID_query d = inl t ->
  fst (refreshTokenRepo.GetActiveByUserID postgres.repo userID d)
  = match found_active (postgres.now d) userID (postgres.rows t) with
    | [] => (None, Some (no_active_token userID))
    | r :: _ => (Some r, None)
    end.
Proof.
  intros Hw Hr. unfold refreshTokenRepo.GetActiveByUserID, bind, ret.
  cbn [refreshTokenRepo.db postgres.repo postgres.handle sqlx.GetContext].
  unfold bind, ret.
  erewrite statement_delivered; [| done | exact Hr | reflexivity].
  cbn [fst snd sql.order_by sql.limit].
  erewrite filter_ext by (intros; apply active_holds).
  fold (found_active (postgres.now d) userID (postgres.rows t)).
  destruct (found_active _ _ _) as [|r rest]; [reflexivity |].
  cbn [take map postgres.first_row postgres.returned_columns
       refreshTokenRepo.GetActiveByUserID_query].
  rewrite project_all.
  change [sql.id; sql.user_id; sql.token_hash; sql.user_agent; sql.ip_address; sql.created_at;
          sql.expires_at; sql.is_used; sql.updated_at] with sql.all_columns.
  rewrite StructScan_all. reflexivity.
Qed.

Lemma GetAllActiveByUserID_delivered userID (d : postgres.DB) t :
  postgres.wire d = [] ->
  postgres.resolve refreshTokenRepo.GetAllActiveByUserID_query d = inl t ->
  fst (refreshTokenRepo.GetAllActiveByUserID postgres.repo userID d)
  = (found_active (postgres.now d) userID (postgres.rows t), None).
Proof.
  intros Hw Hr. unfold refreshTokenRepo.GetAllActiveByUserID, bind, ret.
  cbn [refreshTokenRepo.db postgres.repo postgres.handle sqlx.SelectContext].
  unfold bind, ret.
  erewrite statement_delivered; [| done | exact Hr | reflexivity].
  cbn [fst snd sql.order_by sql.limit].
  erewrite filter_ext by (intros; apply active_holds).
  fold (found_active (postgres.now d) userID (postgres.rows t)).
  f_equal. rewrite <- (map_id (found_active _ _ _)) at 2.
  apply map_ext. intros r. apply project_all.
Qed.

Lemma three_tokens_found now userID rs r0 r1 r2 T :
  List.filter (fun r => owned_by userID r && active now r) rs ≡ₚ [r0; r1; r2] ->
  models.CreatedAt r0 = T -> models.CreatedAt r1 = T + 1 -> models.CreatedAt r2 = T + 2 ->
  found_active now userID rs = [r2; r1; r0].
Proof.
  intros Hact H0 H1 H2.
  assert (Hfound : found_active now userID rs ≡ₚ [r2; r1; r0]).
  { unfold found_active. rewrite merge_sort_Permutation, Hact.
    rewrite (Permutation_rev [r0; r1; r2]). done. }
  apply (StronglySorted_unique_strong (sql.precedes sql.DESC sql.created_at)).
  - intros x1 x2 Hx1 Hx2 H12 H21.
    rewrite Hfound in Hx1. apply precedes_created_at in H12, H21.
    set_unfold.
    destruct Hx1 as [Hx1 | [Hx1 | [Hx1 | []]]], Hx2 as [Hx2 | [Hx2 | [Hx2 | []]]];
      subst x1 x2; (done || lia).
  - apply (StronglySorted_merge_sort _).
  - repeat constructor; apply precedes_created_at; lia.
  - exact Hfound.
Qed.

Section GetActiveErrors.
Context {S : Type} (r : refreshTokenRepo.t S).

Lemma GetActiveByUserID_error userID s e :
  snd (fst (sqlx.GetContext (refreshTokenRepo.db r) models.zero
              refreshTokenRepo.GetActiveByUserID_query [sql.Text userID] s)) = Some e ->
  fst (refreshTokenRepo.GetActiveByUserID r userID s)
  = (None, Some (if errors.eq_ErrNoRows e then no_active_token userID
                 else errors.Wrap "failed to get refresh token: " e)).
Proof.
  unfold refreshTokenRepo.GetActiveByUserID, bind, ret.
  destruct (sqlx.GetContext _ _ _ _ s) as [[tok err] s1]; cbn [fst snd]. intros ->.
  destruct (errors.eq_ErrNoRows e); reflexivity.
Qed.

End GetActiveErrors.

(** C2: the active tokens of a user, newest first.  On a store whose
    transport delivers and that has the table: for a user whose active
    tokens (unused, with expires_at strictly after the clock of the store)
    are three, created at T, T+1 and T+2, whatever used or expired tokens
    the user has besides and whatever other users have, GetActiveByUserID
    returns the one created at T+2 and GetAllActiveByUserID returns the
    three in the order T+2, T+1, T; in general GetAllActiveByUserID returns
    without error exactly the rows of the user that are active, and the
    token GetActiveByUserID returns is an active token of the user with the
    latest creation time; it returns the not-found error exactly when no row
    of the user is active; and for every handle an error of the query other
    than ErrNoRows is returned wrapped, as a different error. *)
Theorem active_tokens_newest_first (d : postgres.DB) (t : postgres.Table) (userID : string) :
  postgres.wire d = [] ->
  postgres.tables d !! "refresh_tokens" = Some t ->
  postgres.columns t = sql.table_columns migrations.create_refresh_tokens ->
  let now := postgres.now d in
  (forall r0 r1 r2 T,
      List.filter (fun r => owned_by userID r && active now r) (postgres.rows t)
        ≡ₚ [r0; r1; r2] ->
      models.CreatedAt r0 = T -> models.CreatedAt r1 = T + 1 -> models.CreatedAt r2 = T + 2 ->
      fst (refreshTokenRepo.GetActiveByUserID postgres.repo userID d) = (Some r2, None)
      /\ fst (refreshTokenRepo.GetAllActiveByUserID postgres.repo userID d)
         = ([r2; r1; r0], None))
  /\ (snd (fst (refreshTokenRepo.GetAllActiveByUserID postgres.repo userID d)) = None
      /\ forall r,
           In r (fst (fst (refreshTokenRepo.GetAllActiveByUserID postgres.repo userID d)))
           <-> In r (postgres.rows t) /\ owned_by userID r = true /\ active now r = true)
  /\ (forall r,
        fst (refreshTokenRepo.GetActiveByUserID postgres.repo userID d) = (Some r, None) ->
        In r (postgres.rows t) /\ owned_by userID r = true /\ active now r = true
        /\ forall r', In r' (postgres.rows t) -> owned_by userID r' = true ->
                      active now r' = true -> models.CreatedAt r' <= models.CreatedAt r)
  /\ (fst (refreshTokenRepo.GetActiveByUserID postgres.repo userID d)
        = (None, Some (no_active_token userID))
      <-> forall r, In r (postgres.rows t) -> owned_by userID r = true -> active now r = false)
  /\ (forall S (h : refreshTokenRepo.t S) (s : S) e,
        snd (fst (sqlx.GetContext (refreshTokenRepo.db h) models.zero
                    refreshTokenRepo.GetActiveByUserID_query [sql.Text userID] s)) = Some e ->
        errors.eq_ErrNoRows e = false ->
        fst (refreshTokenRepo.GetActiveByUserID h userID s)
        = (None, Some (errors.Wrap "failed to get refresh token: " e))
        /\ errors.Wrap "failed to get refresh token: " e <> no_active_token userID).
Proof.
  intros Hw Ht Hc. cbv zeta.
  assert (Hr1 : postgres.resolve refreshTokenRepo.GetActiveByUserID_query d = inl t)
    by (apply resolve_refresh_tokens; cbn; auto 10).
  assert (Hr2 : postgres.resolve refreshTokenRepo.GetAllActiveByUserID_query d = inl t)
    by (apply resolve_refresh_tokens; cbn; auto 10).
  rewrite (GetActiveByUserID_delivered userID d t Hw Hr1).
  rewrite (GetAllActiveByUserID_delivered userID d t Hw Hr2).
  split.
  { intros r0 r1 r2 T Hact H0 H1 H2.
    by rewrite (three_tokens_found _ _ _ r0 r1 r2 T). }
  split.
  { cbn [fst snd]. split; [done |]. intros r. apply found_active_In. }
  split.
  { intros r. destruct (found_active _ _ _) as [|r' rest] eqn:Hf; [discriminate |].
    intros [= ->].
    assert (Hin : In r (found_active (postgres.now d) userID (postgres.rows t)))
      by (rewrite Hf; by left).
    apply found_active_In in Hin as (? & ? & ?). repeat split; try done.
    intros r' Hin' Ho' Ha'. eapply found_active_head; [exact Hf |].
    apply found_active_In. done. }
  split.
  { destruct (found_active _ _ _) as [|r' rest] eqn:Hf.
    - split; [| done]. intros _ r Hin Ho. destruct (active (postgres.now d) r) eqn:Ha; [| done].
      assert (Hin' : In r (found_active (postgres.now d) userID (postgres.rows t)))
        by (apply found_active_In; done).
      rewrite Hf in Hin'. destruct Hin'.
    - split; [discriminate |]. intros Hnone.
      assert (Hin : In r' (found_active (postgres.now d) userID (postgres.rows t)))
        by (rewrite Hf; by left).
      apply found_active_In in Hin as (Hin & Ho & Ha).
      rewrite (Hnone r' Hin Ho) in Ha. discriminate. }
  intros S h s e He Hno. rewrite (GetActiveByUserID_error h userID s e He), Hno.
  split; [done |]. unfold errors.Wrap, no_active_token. congruence.
Qed.

(** The scenario of the spec, read at time 500: three active tokens of
    user-1 created at 100, 101 and 102, beside a used one, an expired one
    and a token of another user, all of them created later. *)
Lemma active_tokens_newest_first_witness :
  let d := store_with 500 [token 1 "user-1" 100 900; token 2 "user-1" 101 900;
                           token 3 "user-1" 102 900; mark 300 (token 4 "user-1" 103 900);
                           token 5 "user-1" 104 400; token 6 "user-2" 105 900] in
  fst (refreshTokenRepo.GetActiveByUserID postgres.repo "user-1" d)
  = (Some (token 3 "user-1" 102 900), None)
  /\ fst (refreshTokenRepo.GetAllActiveByUserID postgres.repo "user-1" d)
     = ([token 3 "user-1" 102 900; token 2 "user-1" 101 900; token 1 "user-1" 100 900], None).
Proof.
  cbv zeta.
  pose proof (active_tokens_newest_first
                (store_with 500 [token 1 "user-1" 100 900; token 2 "user-1" 101 900;
                                 token 3 "user-1" 102 900; mark 300 (token 4 "user-1" 103 900);
                                 token 5 "user-1" 104 400; token 6 "user-2" 105 900])
                {| postgres.columns := sql.table_columns migrations.create_refresh_tokens;
                   postgres.rows := [token 1 "user-1" 100 900; token 2 "user-1" 101 900;
                                     token 3 "user-1" 102 900;
                                     mark 300 (token 4 "user-1" 103 900);
                                     token 5 "user-1" 104 400; token 6 "user-2" 105 900];
                   postgres.serial := 7 |}
                "user-1" eq_refl eq_refl eq_refl) as (Hscenario & _).
  apply (Hscenario (token 1 "user-1" 100 900) (token 2 "user-1" 101 900)
           (token 3 "user-1" 102 900) 100); reflexivity.
Defined.

(** ** The shipped migration against the statements of the repository *)

Lemma statement_unresolved q b (d : postgres.DB) e :
  postgres.wire d = [] ->
  postgres.resolve q d = inr e ->
  postgres.statement q b d = (([], 0, Some e), d).
Proof.
  intros Hw Hr. unfold postgres.statement.
  rewrite db_roundtrip_delivers by done. by rewrite Hr.
Qed.

Lemma migrated_unresolved t0 q :
  In q refreshTokenRepo.queries ->
  postgres.resolve q (migrated t0) = inr (postgres.undefined_table "refresh_tokens").
Proof.
  intros Hq. cbn in Hq.
  repeat (destruct Hq as [<- | Hq]; [reflexivity |]). destruct Hq.
Qed.

(** C1: the table the migration creates is not the table the repository
    reads and writes.  The migration creates [jwt] with eight columns, none
    of them [updated_at]; every statement of the repository addresses
    [refresh_tokens], and Create, the SELECTs and MarkAsUsed name
    [updated_at].  On the database the migration leaves, no statement
    resolves and every operation returns an error; were the table given the
    name the statements use, Create would still fail on the missing
    column. *)
Theorem migration_does_not_create_the_table_of_the_repository
    (t0 : time.Time) (tok : models.RefreshToken) (userID : string) (tokenID : Z) :
  let d := migrated t0 in
  fst (refreshTokenRepo.RunMigrations postgres.repo "migrations"
         (postgres.empty t0 [migrations.create_jwt])) = None
  /\ dom (postgres.tables d) = {["jwt"]}
  /\ map sql.col_name (sql.table_columns migrations.create_jwt)
     = ["id"; "user_id"; "token_hash"; "user_agent"; "ip_address"; "created_at";
        "expires_at"; "is_used"]
  /\ Forall (fun q => sql.stmt_table q = "refresh_tokens"
                      /\ postgres.resolve q d
                         = inr (postgres.undefined_table "refresh_tokens"))
       refreshTokenRepo.queries
  /\ In sql.updated_at (sql.stmt_columns refreshTokenRepo.Create_query)
  /\ snd (fst (refreshTokenRepo.Create postgres.repo tok d))
     = Some (errors.Wrap "failed to prepare query: "
               (postgres.undefined_table "refresh_tokens"))
  /\ snd (fst (refreshTokenRepo.GetActiveByUserID postgres.repo userID d)) <> None
  /\ snd (fst (refreshTokenRepo.GetByID postgres.repo tokenID d)) <> None
  /\ fst (refreshTokenRepo.MarkAsUsed postgres.repo tokenID d) <> None
  /\ fst (refreshTokenRepo.Delete postgres.repo tokenID d) <> None
  /\ fst (refreshTokenRepo.DeleteAllByUserID postgres.repo userID d) <> None
  /\ snd (fst (refreshTokenRepo.CleanExpired postgres.repo d)) <> None
  /\ snd (fst (refreshTokenRepo.GetAllActiveByUserID postgres.repo userID d)) <> None
  /\ snd (fst (refreshTokenRepo.Create postgres.repo tok
                 (snd (refreshTokenRepo.RunMigrations postgres.repo "migrations"
                         (postgres.empty t0 [create_jwt_renamed])))))
     = Some (errors.Wrap "failed to prepare query: " (postgres.undefined_column sql.updated_at)).
Proof.
  cbv zeta.
  assert (Hw : postgres.wire (migrated t0) = []) by reflexivity.
  assert (Hst : forall q b, In q refreshTokenRepo.queries ->
            postgres.statement q b (migrated t0)
            = (([], 0, Some (postgres.undefined_table "refresh_tokens")), migrated t0)).
  { intros q b Hq. apply statement_unresolved; [done |]. by apply migrated_unresolved. }
  split; [reflexivity |]. split; [vm_compute; reflexivity |]. split; [reflexivity |].
  split.
  { apply Forall_forall. intros q Hq. apply list_elem_of_In in Hq. split.
    - cbn in Hq. repeat (destruct Hq as [<- | Hq]; [reflexivity |]). destruct Hq.
    - by apply migrated_unresolved. }
  split; [cbn; auto 10 |].
  split; [reflexivity |].
  split.
  { unfold refreshTokenRepo.GetActiveByUserID, bind, ret.
    cbn [refreshTokenRepo.db postgres.repo postgres.handle sqlx.GetContext]. unfold bind, ret.
    rewrite Hst by (cbn; auto 10). cbn. discriminate. }
  split.
  { unfold refreshTokenRepo.GetByID, bind, ret.
    cbn [refreshTokenRepo.db postgres.repo postgres.handle sqlx.GetContext]. unfold bind, ret.
    rewrite Hst by (cbn; auto 10). cbn. discriminate. }
  split.
  { unfold refreshTokenRepo.MarkAsUsed, bind, ret.
    cbn [refreshTokenRepo.db postgres.repo postgres.handle sqlx.ExecContext]. unfold bind, ret.
    rewrite Hst by (cbn; auto 10). cbn. discriminate. }
  split.
  { unfold refreshTokenRepo.Delete, bind, ret.
    cbn [refreshTokenRepo.db postgres.repo postgres.handle sqlx.ExecContext]. unfold bind, ret.
    rewrite Hst by (cbn; auto 10). cbn. discriminate. }
  split.
  { unfold refreshTokenRepo.DeleteAllByUserID, bind, ret.
    cbn [refreshTokenRepo.db postgres.repo postgres.handle sqlx.ExecContext]. unfold bind, ret.
    rewrite Hst by (cbn; auto 10). cbn. discriminate. }
  split.
  { unfold refreshTokenRepo.CleanExpired, bind, ret.
    cbn [refreshTokenRepo.db postgres.repo postgres.handle sqlx.ExecContext]. unfold bind, ret.
    rewrite Hst by (cbn; auto 10). cbn. discriminate. }
  split.
  { unfold refreshTokenRepo.GetAllActiveByUserID, bind, ret.
    cbn [refreshTokenRepo.db postgres.repo postgres.handle sqlx.SelectContext]. unfold bind, ret.
    rewrite Hst by (cbn; auto 10). cbn. discriminate. }
  reflexivity.
Qed.

(* ===================================================================== *)
(** * Part III: further properties of the packages                        *)
(* ===================================================================== *)

(** ** The adapter over the server: what each command leaves behind *)

Lemma adapter_Set_marshalled key value ttl (w : miniredis.World) :
  miniredis.wire w = [] -> snd (redisCache.marshal value) = None ->
  redisCache.Set_ miniredis.cache key value ttl w
  = (None, snd (miniredis.SET key (fst (redisCache.marshal value)) (redis.Set_expiry ttl) w)).
Proof.
  intros Hw Hm. unfold redisCache.Set_, bind, ret.
  destruct (redisCache.marshal value) as [data [e|]]; [discriminate |].
  cbn [redisCache.client miniredis.cache miniredis.client redis.Set_ fst].
  rewrite roundtrip_delivers by done.
  pose proof (SET_accepted key data ttl w) as Hok.
  destruct (miniredis.SET key data (redis.Set_expiry ttl) w) as [[r e] w1].
  cbn [fst snd] in *. by injection Hok as -> ->.
Qed.

Lemma adapter_Get_delivered key (w : miniredis.World) :
  miniredis.wire w = [] ->
  redisCache.Get miniredis.cache key w
  = (match miniredis.live w key with
     | Some e => (miniredis.data e, None)
     | None => ("", Some (errors.Errorf ("key not found: " +:+ key) None))
     end, w).
Proof.
  intros Hw. unfold redisCache.Get, bind, ret.
  cbn [redisCache.client miniredis.cache miniredis.client redis.Get].
  rewrite roundtrip_delivers by done. unfold miniredis.GET.
  destruct (miniredis.live w key); reflexivity.
Qed.

Lemma adapter_Exists_delivered key (w : miniredis.World) :
  miniredis.wire w = [] ->
  redisCache.Exists miniredis.cache key w
  = ((match miniredis.live w key with Some _ => true | None => false end, None), w).
Proof.
  intros Hw. unfold redisCache.Exists, bind, ret.
  cbn [redisCache.client miniredis.cache miniredis.client redis.Exists].
  rewrite roundtrip_delivers by done. unfold miniredis.EXISTS.
  destruct (miniredis.live w key); reflexivity.
Qed.

Lemma adapter_Delete_delivered key (w : miniredis.World) :
  miniredis.wire w = [] ->
  redisCache.Delete miniredis.cache key w
  = (None, miniredis.set_keys (delete key (miniredis.keys w)) w).
Proof.
  intros Hw. unfold redisCache.Delete, bind, ret.
  cbn [redisCache.client miniredis.cache miniredis.client redis.Del].
  rewrite roundtrip_delivers by done. unfold miniredis.DEL.
  destruct (miniredis.live w key); reflexivity.
Qed.

(** What a key holds once [d] has passed. *)
Lemma live_FastForward (w : miniredis.World) key d :
  miniredis.live (miniredis.FastForward d w) key
  = match miniredis.keys w !! key with
    | Some e => if miniredis.expired (miniredis.clock w + d) e then None else Some e
    | None => None
    end.
Proof. reflexivity. Qed.

Lemma live_set_keys_ne (w : miniredis.World) key k e :
  k <> key ->
  miniredis.live (miniredis.set_keys (<[key := e]> (miniredis.keys w)) w) k = miniredis.live w k.
Proof.
  intros Hne. unfold miniredis.live. cbn [miniredis.keys miniredis.set_keys miniredis.clock].
  by rewrite lookup_insert_ne.
Qed.

(** X1: a value written by Set is read back by Get, as the text it was
    marshalled to, for as long as the server keeps it: the whole
    milliseconds of the ttl, one millisecond when the ttl is shorter; from
    then on the key is not found.  That is the ttl itself when it is a whole
    number of milliseconds, and less than a millisecond away from it
    otherwise.  A zero ttl never elapses. *)
Theorem Set_then_Get (key : string) (value : any) (ttl d : time.Duration)
    (w : miniredis.World) :
  miniredis.wire w = [] -> snd (redisCache.marshal value) = None -> 0 <= ttl -> 0 <= d ->
  let w1 := snd (redisCache.Set_ miniredis.cache key value ttl w) in
  fst (redisCache.Set_ miniredis.cache key value ttl w) = None
  /\ fst (redisCache.Get miniredis.cache key (miniredis.FastForward d w1))
     = (if (ttl =? 0) || (d <? whole_milliseconds ttl)
        then (fst (redisCache.marshal value), None)
        else ("", Some (errors.Errorf ("key not found: " +:+ key) None)))
  /\ fst (redisCache.Exists miniredis.cache key (miniredis.FastForward d w1))
     = ((ttl =? 0) || (d <? whole_milliseconds ttl), None)
  /\ (0 < ttl ->
      ttl - time.Millisecond < whole_milliseconds ttl
      /\ whole_milliseconds ttl <= Z.max ttl time.Millisecond
      /\ (ttl mod time.Millisecond = 0 -> whole_milliseconds ttl = ttl)).
Proof.
  intros Hw Hm Httl Hd. cbv zeta.
  rewrite adapter_Set_marshalled by done.
  split; [done |].
  destruct (Z.eqb_spec ttl 0) as [-> | Hnz].
  - rewrite SET_zero.
    rewrite adapter_Get_delivered, adapter_Exists_delivered by done.
    rewrite live_FastForward.
    cbn [fst snd miniredis.keys miniredis.set_keys miniredis.clock].
    rewrite lookup_insert_eq. cbn. split; [done |]. split; [done |]. lia.
  - rewrite SET_positive by lia.
    rewrite adapter_Get_delivered, adapter_Exists_delivered by done.
    rewrite live_FastForward.
    cbn [fst snd miniredis.keys miniredis.set_keys miniredis.clock].
    rewrite lookup_insert_eq. unfold miniredis.expired. cbn [miniredis.deadline miniredis.data orb].
    split; [| split].
    + destruct (Z.leb_spec (miniredis.clock w + whole_milliseconds ttl) (miniredis.clock w + d)),
               (Z.ltb_spec d (whole_milliseconds ttl)); try lia; done.
    + destruct (Z.leb_spec (miniredis.clock w + whole_milliseconds ttl) (miniredis.clock w + d)),
               (Z.ltb_spec d (whole_milliseconds ttl)); try lia; done.
    + intros Hpos. destruct (whole_milliseconds_bounds ttl Hpos) as (_ & H1 & H2 & _ & H3).
      done.
Qed.

(** A value stored for 60 nanoseconds is kept for a millisecond. *)
Lemma Set_then_Get_witness :
  fst (redisCache.Get miniredis.cache "test:string"
         (miniredis.FastForward 60
            (snd (redisCache.Set_ miniredis.cache "test:string" (any_string "hello world") 60
                    (miniredis.start 0)))))
  = ("hello world", None)
  /\ fst (redisCache.Exists miniredis.cache "test:string"
            (miniredis.FastForward time.Millisecond
               (snd (redisCache.Set_ miniredis.cache "test:string" (any_string "hello world") 60
                       (miniredis.start 0)))))
     = (false, None).
Proof.
  pose proof (Set_then_Get "test:string" (any_string "hello world") 60 60 (miniredis.start 0)
                eq_refl eq_refl ltac:(lia) ltac:(lia)) as (_ & H1 & _).
  pose proof (Set_then_Get "test:string" (any_string "hello world") 60 time.Millisecond
                (miniredis.start 0) eq_refl eq_refl ltac:(lia)
                ltac:(unfold time.Millisecond; lia)) as (_ & _ & H2 & _).
  split; [exact H1 | exact H2].
Defined.

(** X2: Get without a value.  For a key that is absent or past its
    deadline, on a transport that delivers, Get returns the empty text with
    the error "key not found: <key>" and leaves the whole state as it was,
    the log included.  Whatever the key holds, a command lost by the
    transport (with any error but redis.Nil) is returned wrapped and written
    to the log at Error level, with the empty text and the keys untouched. *)
Theorem Get_missing_key (key : string) (w : miniredis.World) :
  (miniredis.wire w = [] -> miniredis.live w key = None ->
     redisCache.Get miniredis.cache key w
     = (("", Some (errors.Errorf ("key not found: " +:+ key) None)), w))
  /\ (forall cause rest,
        miniredis.wire w = Some cause :: rest -> errors.eq_redis_Nil cause = false ->
        fst (redisCache.Get miniredis.cache key w)
        = ("", Some (errors.Wrap "failed to get cache value: " cause))
        /\ miniredis.keys (snd (redisCache.Get miniredis.cache key w)) = miniredis.keys w
        /\ miniredis.log (snd (redisCache.Get miniredis.cache key w))
           = miniredis.log w ++
               [{| logger.level := logger.ErrorLevel;
                   logger.msg := "Failed to get cache value";
                   logger.fields := [logger.String "key" key; logger.Error cause] |}]).
Proof.
  split.
  - intros Hw Hlive. rewrite adapter_Get_delivered by done. by rewrite Hlive.
  - intros cause rest Hw Hnil. unfold redisCache.Get, bind, ret.
    cbn [redisCache.client miniredis.cache miniredis.client redis.Get].
    unfold miniredis.roundtrip. rewrite Hw, Hnil. repeat split.
Qed.

(** A key stored for a second, read after that second; and a key that is
    there, read over a connection that drops. *)
Lemma Get_missing_key_witness :
  let w1 := snd (redisCache.Set_ miniredis.cache "k" (any_string "v") time.Second
                   (miniredis.start 0)) in
  fst (redisCache.Get miniredis.cache "k" (miniredis.FastForward time.Second w1))
  = ("", Some (errors.Errorf ("key not found: " +:+ "k") None))
  /\ fst (redisCache.Get miniredis.cache "k" (miniredis.set_wire [Some (errors.New "EOF")] w1))
     = ("", Some (errors.Wrap "failed to get cache value: " (errors.New "EOF"))).
Proof.
  cbv zeta.
  set (w1 := snd (redisCache.Set_ miniredis.cache "k" (any_string "v") time.Second
                    (miniredis.start 0))).
  pose proof (Get_missing_key "k" (miniredis.FastForward time.Second w1)) as [Habsent _].
  pose proof (Get_missing_key "k" (miniredis.set_wire [Some (errors.New "EOF")] w1))
    as [_ Hlost].
  split.
  - rewrite (Habsent eq_refl eq_refl). reflexivity.
  - destruct (Hlost (errors.New "EOF") [] eq_refl eq_refl) as [Hres _]. exact Hres.
Defined.

(** X3: Delete returns nil whether or not the key was there; afterwards the
    key does not exist and is not found, and every other key is as before. *)
Theorem Delete_removes_key (key : string) (w : miniredis.World) :
  miniredis.wire w = [] ->
  let w1 := snd (redisCache.Delete miniredis.cache key w) in
  fst (redisCache.Delete miniredis.cache key w) = None
  /\ fst (redisCache.Exists miniredis.cache key w1) = (false, None)
  /\ fst (redisCache.Get miniredis.cache key w1)
     = ("", Some (errors.Errorf ("key not found: " +:+ key) None))
  /\ (forall k, k <> key -> miniredis.keys w1 !! k = miniredis.keys w !! k)
  /\ (miniredis.keys w !! key = None -> miniredis.keys w1 = miniredis.keys w).
Proof.
  intros Hw. cbv zeta. rewrite adapter_Delete_delivered by done. cbn [fst snd].
  rewrite adapter_Exists_delivered, adapter_Get_delivered by done.
  assert (Hgone : miniredis.live
                    (miniredis.set_keys (delete key (miniredis.keys w)) w) key = None).
  { unfold miniredis.live. cbn [miniredis.keys miniredis.set_keys]. by rewrite lookup_delete_eq. }
  rewrite Hgone. repeat split.
  - intros k Hne. cbn [miniredis.keys miniredis.set_keys]. by rewrite lookup_delete_ne.
  - intros Hnone. cbn [miniredis.keys miniredis.set_keys]. by apply delete_id.
Qed.

Lemma Delete_removes_key_witness :
  fst (redisCache.Delete miniredis.cache "nonexistent" (miniredis.start 0)) = None
  /\ fst (redisCache.Exists miniredis.cache "test:delete"
            (snd (redisCache.Delete miniredis.cache "test:delete"
                    (snd (redisCache.Set_ miniredis.cache "test:delete" (any_string "value") 60
                            (miniredis.start 0))))))
     = (false, None).
Proof.
  pose proof (Delete_removes_key "nonexistent" (miniredis.start 0) eq_refl) as (H1 & _).
  pose proof (Delete_removes_key "test:delete"
                (snd (redisCache.Set_ miniredis.cache "test:delete" (any_string "value") 60
                        (miniredis.start 0))) eq_refl) as (_ & H2 & _).
  split; [exact H1 | exact H2].
Defined.

Lemma SetNX_accepted ttl key (w : miniredis.World) :
  0 <= ttl ->
  miniredis.deadline_of (redis.SetNX_expiry ttl) key w
  = inl (if 0 <? ttl then Some (miniredis.clock w + whole_milliseconds ttl) else None).
Proof.
  intros Httl. destruct (Z.ltb_spec 0 ttl) as [Hpos | Hle].
  - by apply SetNX_deadline.
  - by replace ttl with 0 by lia.
Qed.

Lemma adapter_SetNX_marshalled key value ttl (w : miniredis.World) :
  miniredis.wire w = [] -> snd (redisCache.marshal value) = None -> 0 <= ttl ->
  redisCache.SetNX miniredis.cache key value ttl w
  = miniredis.SETNX key (fst (redisCache.marshal value)) (redis.SetNX_expiry ttl) w.
Proof.
  intros Hw Hm Httl. unfold redisCache.SetNX, bind, ret.
  destruct (redisCache.marshal value) as [data [e|]]; [discriminate |].
  cbn [redisCache.client miniredis.cache miniredis.client redis.SetNX fst].
  rewrite roundtrip_delivers by done. unfold miniredis.SETNX.
  rewrite SetNX_accepted by done.
  destruct (miniredis.live w key); reflexivity.
Qed.

Lemma SETNX_absent key v ttl (w : miniredis.World) :
  0 <= ttl -> miniredis.live w key = None ->
  miniredis.SETNX key v (redis.SetNX_expiry ttl) w
  = ((true, None),
     miniredis.set_keys
       (<[key := {| miniredis.data := v;
                    miniredis.deadline :=
                      if 0 <? ttl then Some (miniredis.clock w + whole_milliseconds ttl)
                      else None |}]>
          (miniredis.keys w)) w).
Proof.
  intros Httl Hlive. unfold miniredis.SETNX.
  rewrite SetNX_accepted by done. by rewrite Hlive.
Qed.

Lemma SETNX_present key v ttl (w : miniredis.World) e :
  0 <= ttl -> miniredis.live w key = Some e ->
  miniredis.SETNX key v (redis.SetNX_expiry ttl) w = ((false, None), w).
Proof.
  intros Httl Hlive. unfold miniredis.SETNX.
  rewrite SetNX_accepted by done. by rewrite Hlive.
Qed.

(** X4: SetNX is first-writer-wins.  On an absent key it stores the value
    and returns true; on a key that is there it returns false and leaves the
    whole state as it was; so of two SetNX on an absent key only the first
    is stored. *)
Theorem SetNX_first_wins (key : string) (value other : any) (ttl ttl' : time.Duration)
    (w : miniredis.World) :
  miniredis.wire w = [] ->
  snd (redisCache.marshal value) = None -> snd (redisCache.marshal other) = None ->
  0 <= ttl -> 0 <= ttl' ->
  let w1 := snd (redisCache.SetNX miniredis.cache key value ttl w) in
  (miniredis.live w key = None ->
     fst (redisCache.SetNX miniredis.cache key value ttl w) = (true, None)
     /\ fst (redisCache.Get miniredis.cache key w1) = (fst (redisCache.marshal value), None)
     /\ redisCache.SetNX miniredis.cache key other ttl' w1 = ((false, None), w1))
  /\ (forall e, miniredis.live w key = Some e ->
        redisCache.SetNX miniredis.cache key value ttl w = ((false, None), w)).
Proof.
  intros Hw Hm Hm' Httl Httl'. cbv zeta.
  rewrite adapter_SetNX_marshalled by done. split.
  - intros Hlive. rewrite SETNX_absent by done. cbn [fst snd]. split; [done |].
    set (e := {| miniredis.data := fst (redisCache.marshal value);
                 miniredis.deadline :=
                   if 0 <? ttl then Some (miniredis.clock w + whole_milliseconds ttl)
                   else None |}).
    assert (Hnew : miniredis.live (miniredis.set_keys (<[key := e]> (miniredis.keys w)) w) key
                   = Some e).
    { apply live_insert. unfold miniredis.expired, e. cbn [miniredis.deadline].
      destruct (Z.ltb_spec 0 ttl) as [Hpos |]; [| done]. apply Z.leb_gt.
      destruct (whole_milliseconds_bounds ttl Hpos) as [Hone _].
      unfold time.Millisecond in Hone. lia. }
    rewrite adapter_Get_delivered by done. rewrite Hnew. split; [done |].
    rewrite adapter_SetNX_marshalled by done.
    by rewrite (SETNX_present _ _ _ _ e).
  - intros e Hlive. by rewrite (SETNX_present _ _ _ _ e).
Qed.

Lemma SetNX_first_wins_witness :
  fst (redisCache.SetNX miniredis.cache "test:setnx" (any_string "new value") 60
         (miniredis.start 0)) = (true, None)
  /\ fst (redisCache.SetNX miniredis.cache "test:setnx" (any_string "again") 60
            (snd (redisCache.SetNX miniredis.cache "test:setnx" (any_string "new value") 60
                    (miniredis.start 0)))) = (false, None).
Proof.
  pose proof (SetNX_first_wins "test:setnx" (any_string "new value") (any_string "again") 60 60
                (miniredis.start 0) eq_refl eq_refl eq_refl ltac:(lia) ltac:(lia)) as [Hfirst _].
  destruct (Hfirst eq_refl) as (H1 & _ & H2).
  split; [exact H1 | by rewrite H2].
Defined.

Lemma adapter_Increment_delivered key (w : miniredis.World) :
  miniredis.wire w = [] ->
  redisCache.Increment miniredis.cache key w
  = match miniredis.INCR key w with
    | ((_, Some err), w') =>
        ((0, Some (errors.Wrap "failed to increment cache value: " err)),
         miniredis.write_log
           {| logger.level := logger.ErrorLevel; logger.msg := "Failed to increment cache value";
              logger.fields := [logger.String "key" key; logger.Error err] |} w')
    | ((val, None), w') => ((val, None), w')
    end.
Proof.
  intros Hw. unfold redisCache.Increment, bind, ret.
  cbn [redisCache.client miniredis.cache miniredis.client redis.Incr].
  rewrite roundtrip_delivers by done.
  destruct (miniredis.INCR key w) as [[val [e|]] w']; reflexivity.
Qed.

(** X5: Increment adds one to the integer under the key (an absent key
    counts from 0) and returns the new value; the deadline of the key is the
    one it had (none for a key just created), and no other key changes.  On
    a text that is no integer it returns an error and changes no key. *)
Theorem Increment_counts (key : string) (w : miniredis.World) :
  miniredis.wire w = [] ->
  let out := redisCache.Increment miniredis.cache key w in
  (forall n, counter w key = Some n -> n < 2 ^ 63 - 1 ->
     fst out = (n + 1, None)
     /\ counter (snd out) key = Some (n + 1)
     /\ miniredis.keys (snd out)
        = <[key := {| miniredis.data := pretty (n + 1);
                      miniredis.deadline :=
                        match miniredis.live w key with
                        | Some e => miniredis.deadline e
                        | None => None
                        end |}]> (miniredis.keys w))
  /\ (counter w key = None ->
      fst (fst out) = 0 /\ snd (fst out) <> None /\ miniredis.keys (snd out) = miniredis.keys w).
Proof.
  intros Hw. cbv zeta. rewrite adapter_Increment_delivered by done.
  unfold counter at 1 3, miniredis.INCR. split.
  - intros n Hc Hn. destruct (miniredis.live w key) as [e|] eqn:Hlive.
    + rewrite Hc. destruct (Z.leb_spec (2 ^ 63 - 1) n); [lia |]. cbn [fst snd].
      split; [done |]. split; [| done].
      unfold counter. rewrite live_insert.
      * cbn [miniredis.data]. apply string2ll_pretty. apply string2ll_inv in Hc. lia.
      * apply live_not_expired in Hlive. exact Hlive.
    + injection Hc as <-. cbn [fst snd]. split; [done |]. split; [| done].
      unfold counter. by rewrite live_insert.
  - intros Hc. destruct (miniredis.live w key) as [e|]; [| discriminate].
    rewrite Hc. cbn. done.
Qed.

Lemma Increment_counts_witness :
  fst (redisCache.Increment miniredis.cache "test:incr" (miniredis.start 0)) = (1, None)
  /\ snd (fst (redisCache.Increment miniredis.cache "k"
                 (snd (redisCache.Set_ miniredis.cache "k" (any_string "blacklisted") 0
                         (miniredis.start 0))))) <> None.
Proof.
  pose proof (Increment_counts "test:incr" (miniredis.start 0) eq_refl) as [Hcount _].
  pose proof (Increment_counts "k"
                (snd (redisCache.Set_ miniredis.cache "k" (any_string "blacklisted") 0
                        (miniredis.start 0))) eq_refl) as [_ Hbad].
  split.
  - destruct (Hcount 0 eq_refl ltac:(lia)) as [H1 _]. exact H1.
  - destruct (Hbad eq_refl) as (_ & H2 & _). exact H2.
Defined.

(** ** The facade over the adapter over the server *)

Lemma IsTokenBlacklisted_delivered tokenID (w : miniredis.World) :
  miniredis.wire w = [] ->
  jwtCache.IsTokenBlacklisted miniredis.jwt tokenID w
  = ((match miniredis.live w ("blacklist:token:" +:+ tokenID) with
      | Some _ => true | None => false end, None), w).
Proof.
  intros Hw. unfold jwtCache.IsTokenBlacklisted, bind, ret, TokenBlacklistPrefix.
  cbn [jwtCache.cache miniredis.jwt jwtCache.NewJWTCache redisCache.as_Cache Cache.Exists].
  by rewrite adapter_Exists_delivered.
Qed.

Lemma IsUserBlacklisted_delivered userID (w : miniredis.World) :
  miniredis.wire w = [] ->
  jwtCache.IsUserBlacklisted miniredis.jwt userID w
  = ((match miniredis.live w ("blacklist:user:" +:+ userID) with
      | Some _ => true | None => false end, None), w).
Proof.
  intros Hw. unfold jwtCache.IsUserBlacklisted, bind, ret, UserBlacklistPrefix.
  cbn [jwtCache.cache miniredis.jwt jwtCache.NewJWTCache redisCache.as_Cache Cache.Exists].
  by rewrite adapter_Exists_delivered.
Qed.

Lemma GetIPAttempts_delivered userID ipAddress (w : miniredis.World) :
  miniredis.wire w = [] ->
  fst (jwtCache.GetIPAttempts miniredis.jwt userID ipAddress w)
  = match miniredis.live w ("ip_attempt:" +:+ userID +:+ ":" +:+ ipAddress) with
    | None => (0, None)
    | Some e =>
        match strconv.ParseInt (miniredis.data e) with
        | (count, None) => (count, None)
        | (_, Some err) => (0, Some (errors.Wrap "failed to parse IP attempts count: " err))
        end
    end.
Proof.
  intros Hw. unfold jwtCache.GetIPAttempts, bind, ret, IPAttemptPrefix.
  cbn [jwtCache.cache miniredis.jwt jwtCache.NewJWTCache redisCache.as_Cache Cache.Get].
  rewrite adapter_Get_delivered by done.
  destruct (miniredis.live w _) as [e|].
  - destruct (strconv.ParseInt (miniredis.data e)) as [c [pe|]]; reflexivity.
  - cbn [errors.Error]. by rewrite String.eqb_refl.
Qed.

Lemma BlacklistUser_delivered userID duration (w : miniredis.World) :
  miniredis.wire w = [] ->
  jwtCache.BlacklistUser miniredis.jwt userID duration w
  = (None,
     miniredis.write_log
       {| logger.level := logger.InfoLevel; logger.msg := "User blacklisted";
          logger.fields :=
            [logger.String "user_id" userID;
             {| logger.Key := "duration"; logger.Value := logger.DurationString duration |}] |}
       (snd (miniredis.SET ("blacklist:user:" +:+ userID) "blacklisted"
               (redis.Set_expiry duration) w))).
Proof.
  intros Hw. unfold jwtCache.BlacklistUser, bind, ret, UserBlacklistPrefix.
  cbn [jwtCache.cache miniredis.jwt jwtCache.NewJWTCache redisCache.as_Cache Cache.Set_].
  rewrite adapter_Set_delivered by done. reflexivity.
Qed.

(** X6: how long a blacklisted token stays blacklisted.  After
    BlacklistToken with an expiry in the future, IsTokenBlacklisted answers
    true as long as less than the time the server keeps the entry has
    passed, and false from then on: that time is the whole milliseconds of
    [time.Until(expiresAt)], one millisecond when less remains.  When the
    remaining time is a whole number of milliseconds and fits a Duration,
    the answer is true exactly as long as the clock is before [expiresAt];
    otherwise the entry ends less than a millisecond before the expiry, or,
    when less than a millisecond remained, within a millisecond after it. *)
Theorem token_blacklisted_until_expiry (tokenID : string) (expiresAt : time.Time)
    (d : time.Duration) (w : miniredis.World) :
  miniredis.wire w = [] -> miniredis.clock w < expiresAt -> 0 <= d ->
  let remaining := time.Until (miniredis.clock w) expiresAt in
  let w1 := snd (jwtCache.BlacklistToken miniredis.jwt tokenID expiresAt w) in
  fst (jwtCache.IsTokenBlacklisted miniredis.jwt tokenID (miniredis.FastForward d w1))
  = (d <? whole_milliseconds remaining, None)
  /\ (expiresAt - miniredis.clock w <= time.maxDuration ->
      (expiresAt - miniredis.clock w) mod time.Millisecond = 0 ->
      fst (jwtCache.IsTokenBlacklisted miniredis.jwt tokenID (miniredis.FastForward d w1))
      = (miniredis.clock (miniredis.FastForward d w1) <? expiresAt, None))
  /\ remaining - time.Millisecond < whole_milliseconds remaining
  /\ whole_milliseconds remaining <= Z.max remaining time.Millisecond.
Proof.
  intros Hw Hlt Hd. cbv zeta. rewrite BlacklistToken_fresh by done. cbn [snd].
  rewrite IsTokenBlacklisted_delivered by done.
  rewrite live_FastForward.
  cbn [miniredis.keys miniredis.set_keys miniredis.write_log miniredis.clock miniredis.FastForward].
  rewrite lookup_insert_eq. unfold miniredis.expired. cbn [miniredis.deadline fst].
  set (kept := whole_milliseconds (time.Until (miniredis.clock w) expiresAt)).
  assert (Hpos : 0 < time.Until (miniredis.clock w) expiresAt).
  { pose proof (Until_nonpos (miniredis.clock w) expiresAt). lia. }
  destruct (whole_milliseconds_bounds _ Hpos) as (_ & Hlow & Hhigh & _ & Hexact).
  fold kept in Hlow, Hhigh, Hexact.
  assert (Heq : forall e : miniredis.Entry,
             (if miniredis.clock w + kept <=? miniredis.clock w + d then None else Some e)
             = (if d <? kept then Some e else None)).
  { intros e. destruct (Z.leb_spec (miniredis.clock w + kept) (miniredis.clock w + d)),
                       (Z.ltb_spec d kept); try lia; done. }
  rewrite Heq. split; [| split; [| split]].
  - destruct (d <? _); reflexivity.
  - intros Hr Hm.
    assert (Hu : time.Until (miniredis.clock w) expiresAt = expiresAt - miniredis.clock w)
      by (apply Until_exact; unfold time.minDuration, time.maxDuration in *; lia).
    assert (Hk : kept = expiresAt - miniredis.clock w) by (rewrite <- Hu; apply Hexact; by rewrite Hu).
    rewrite Hk.
    destruct (Z.ltb_spec d (expiresAt - miniredis.clock w)),
             (Z.ltb_spec (miniredis.clock w + d) expiresAt); try lia; reflexivity.
  - exact Hlow.
  - exact Hhigh.
Qed.

(** A token blacklisted 60 nanoseconds before its expiry is still
    blacklisted 60 nanoseconds later, and no more after a millisecond. *)
Lemma token_blacklisted_until_expiry_witness :
  fst (jwtCache.IsTokenBlacklisted miniredis.jwt "token123"
         (miniredis.FastForward 60
            (snd (jwtCache.BlacklistToken miniredis.jwt "token123" 1060 (miniredis.start 1000)))))
  = (true, None)
  /\ fst (jwtCache.IsTokenBlacklisted miniredis.jwt "token123"
            (miniredis.FastForward time.Millisecond
               (snd (jwtCache.BlacklistToken miniredis.jwt "token123" 1060
                       (miniredis.start 1000)))))
     = (false, None).
Proof.
  pose proof (token_blacklisted_until_expiry "token123" 1060 60 (miniredis.start 1000)
                eq_refl eq_refl ltac:(lia)) as [H1 _].
  pose proof (token_blacklisted_until_expiry "token123" 1060 time.Millisecond
                (miniredis.start 1000) eq_refl eq_refl
                ltac:(unfold time.Millisecond; lia)) as [H2 _].
  split; [exact H1 | exact H2].
Defined.

(** X7: how long a blacklisted user stays blacklisted.  BlacklistUser makes
    no check of the duration and returns nil.  After BlacklistUser with a
    positive duration, IsUserBlacklisted answers true as long as less than
    the time the server keeps the entry has passed, and false from then on:
    that time is the whole milliseconds of the duration, one millisecond for
    a shorter duration, hence the duration itself when it is a whole number
    of milliseconds.  With a zero duration the entry has no deadline and the
    answer stays true. *)
Theorem user_blacklisted_for_duration (userID : string) (duration d : time.Duration)
    (w : miniredis.World) :
  miniredis.wire w = [] -> 0 <= duration -> 0 <= d ->
  let w1 := snd (jwtCache.BlacklistUser miniredis.jwt userID duration w) in
  fst (jwtCache.BlacklistUser miniredis.jwt userID duration w) = None
  /\ fst (jwtCache.IsUserBlacklisted miniredis.jwt userID (miniredis.FastForward d w1))
     = ((duration =? 0) || (d <? whole_milliseconds duration), None)
  /\ (duration mod time.Millisecond = 0 ->
      fst (jwtCache.IsUserBlacklisted miniredis.jwt userID (miniredis.FastForward d w1))
      = ((duration =? 0) || (d <? duration), None))
  /\ (0 < duration ->
      duration - time.Millisecond < whole_milliseconds duration
      /\ whole_milliseconds duration <= Z.max duration time.Millisecond).
Proof.
  intros Hw Hdur Hd. cbv zeta. rewrite BlacklistUser_delivered by done.
  split; [done |]. cbn [snd].
  assert (Hanswer :
    fst (jwtCache.IsUserBlacklisted miniredis.jwt userID
           (miniredis.FastForward d
              (miniredis.write_log
                 {| logger.level := logger.InfoLevel; logger.msg := "User blacklisted";
                    logger.fields :=
                      [logger.String "user_id" userID;
                       {| logger.Key := "duration";
                          logger.Value := logger.DurationString duration |}] |}
                 (snd (miniredis.SET ("blacklist:user:" +:+ userID) "blacklisted"
                         (redis.Set_expiry duration) w)))))
    = ((duration =? 0) || (d <? whole_milliseconds duration), None)).
  { destruct (Z.eqb_spec duration 0) as [-> | Hnz].
    - rewrite SET_zero. rewrite IsUserBlacklisted_delivered by done.
      rewrite live_FastForward.
      cbn [snd miniredis.keys miniredis.set_keys miniredis.write_log miniredis.clock].
      rewrite lookup_insert_eq. reflexivity.
    - rewrite SET_positive by lia. rewrite IsUserBlacklisted_delivered by done.
      rewrite live_FastForward.
      cbn [snd miniredis.keys miniredis.set_keys miniredis.write_log miniredis.clock].
      rewrite lookup_insert_eq. unfold miniredis.expired. cbn [miniredis.deadline orb].
      destruct (Z.leb_spec (miniredis.clock w + whole_milliseconds duration)
                  (miniredis.clock w + d)),
               (Z.ltb_spec d (whole_milliseconds duration)); try lia; reflexivity. }
  rewrite Hanswer. split; [done |]. split.
  - intros Hm. destruct (Z.eqb_spec duration 0) as [-> | Hnz]; [done |].
    by rewrite (proj2 (proj2 (proj2 (proj2
         (whole_milliseconds_bounds duration ltac:(lia))))) Hm).
  - intros Hpos. destruct (whole_milliseconds_bounds duration Hpos) as (_ & H1 & H2 & _).
    done.
Qed.

(** An hour is kept as it is; a millisecond and a half is kept for one
    millisecond; a zero duration for ever. *)
Lemma user_blacklisted_for_duration_witness :
  fst (jwtCache.IsUserBlacklisted miniredis.jwt "user123"
         (miniredis.FastForward time.Hour
            (snd (jwtCache.BlacklistUser miniredis.jwt "user123" time.Hour (miniredis.start 0)))))
  = (false, None)
  /\ fst (jwtCache.IsUserBlacklisted miniredis.jwt "user123"
            (miniredis.FastForward 1200000
               (snd (jwtCache.BlacklistUser miniredis.jwt "user123" 1500000
                       (miniredis.start 0)))))
     = (false, None)
  /\ fst (jwtCache.IsUserBlacklisted miniredis.jwt "user123"
            (miniredis.FastForward time.Hour
               (snd (jwtCache.BlacklistUser miniredis.jwt "user123" 0 (miniredis.start 0)))))
     = (true, None).
Proof.
  pose proof (user_blacklisted_for_duration "user123" time.Hour time.Hour (miniredis.start 0)
                eq_refl ltac:(unfold time.Hour, time.Second; lia)
                ltac:(unfold time.Hour, time.Second; lia)) as (_ & H1 & _).
  pose proof (user_blacklisted_for_duration "user123" 1500000 1200000 (miniredis.start 0)
                eq_refl ltac:(lia) ltac:(lia)) as (_ & H2 & _).
  pose proof (user_blacklisted_for_duration "user123" 0 time.Hour (miniredis.start 0)
                eq_refl ltac:(lia) ltac:(unfold time.Hour, time.Second; lia)) as (_ & H3 & _).
  split; [exact H1 | split; [exact H2 | exact H3]].
Defined.

(** The three key families do not meet, and a key determines its
    identifier within its family. *)
Lemma token_key_is_no_user_key a b : "blacklist:token:" +:+ a <> "blacklist:user:" +:+ b.
Proof. cbn. discriminate. Qed.

Lemma token_key_is_no_attempt_key a u ip :
  "blacklist:token:" +:+ a <> "ip_attempt:" +:+ u +:+ ":" +:+ ip.
Proof. cbn. discriminate. Qed.

Lemma user_key_is_no_attempt_key a u ip :
  "blacklist:user:" +:+ a <> "ip_attempt:" +:+ u +:+ ":" +:+ ip.
Proof. cbn. discriminate. Qed.

Lemma token_key_inj a b : "blacklist:token:" +:+ a = "blacklist:token:" +:+ b -> a = b.
Proof. cbn. intros [= Heq]. exact Heq. Qed.

Lemma user_key_inj a b : "blacklist:user:" +:+ a = "blacklist:user:" +:+ b -> a = b.
Proof. cbn. intros [= Heq]. exact Heq. Qed.

Lemma BlacklistToken_frames tokenID expiresAt (w : miniredis.World) :
  miniredis.wire w = [] ->
  frames ("blacklist:token:" +:+ tokenID) w
    (snd (jwtCache.BlacklistToken miniredis.jwt tokenID expiresAt w)).
Proof.
  intros Hw. destruct (Z.le_gt_cases expiresAt (miniredis.clock w)).
  - rewrite BlacklistToken_expired by done. split; done.
  - rewrite BlacklistToken_fresh by (done || lia). split; [done |].
    intros k Hne. cbn [snd]. by apply live_set_keys_ne.
Qed.

Lemma BlacklistUser_frames userID duration (w : miniredis.World) :
  miniredis.wire w = [] ->
  frames ("blacklist:user:" +:+ userID) w
    (snd (jwtCache.BlacklistUser miniredis.jwt userID duration w)).
Proof.
  intros Hw. rewrite BlacklistUser_delivered by done. cbn [snd].
  unfold miniredis.SET. destruct (miniredis.deadline_of _ _ w) as [dl | e]; cbn [snd].
  - split; [done |]. intros k Hne. apply (live_set_keys_ne w _ k). done.
  - split; done.
Qed.

Lemma INCR_frames key (w : miniredis.World) :
  frames key w (snd (miniredis.INCR key w)) <-> miniredis.wire w = [].
Proof.
  unfold frames, miniredis.INCR.
  destruct (miniredis.live w key) as [e|].
  - destruct (miniredis.string2ll (miniredis.data e)) as [n|]; [| cbn; tauto].
    destruct (2 ^ 63 - 1 <=? n); [cbn; tauto |]. cbn [snd]. split; [by intros [? _] |].
    intros Hw. split; [done |]. intros k Hne. by apply live_set_keys_ne.
  - cbn [snd]. split; [by intros [? _] |].
    intros Hw. split; [done |]. intros k Hne. by apply live_set_keys_ne.
Qed.

Lemma EXPIRE_frames key seconds (w : miniredis.World) :
  miniredis.wire w = [] -> frames key w (snd (miniredis.EXPIRE key seconds w)).
Proof.
  intros Hw. unfold frames, miniredis.EXPIRE.
  destruct (miniredis.live w key) as [e|]; cbn [snd]; [| done].
  destruct (seconds <=? 0); cbn [snd].
  - split; [done |]. intros k Hne. unfold miniredis.live.
    cbn [miniredis.keys miniredis.set_keys miniredis.clock]. by rewrite lookup_delete_ne.
  - split; [done |]. intros k Hne. by apply live_set_keys_ne.
Qed.

Lemma live_write_log e (w : miniredis.World) k :
  miniredis.live (miniredis.write_log e w) k = miniredis.live w k.
Proof. reflexivity. Qed.

Lemma LogIPAttempt_frames userID ipAddress (w : miniredis.World) :
  miniredis.wire w = [] ->
  frames ("ip_attempt:" +:+ userID +:+ ":" +:+ ipAddress) w
    (snd (jwtCache.LogIPAttempt miniredis.jwt userID ipAddress w)).
Proof.
  intros Hw.
  set (key := "ip_attempt:" +:+ userID +:+ ":" +:+ ipAddress).
  pose proof (proj2 (INCR_frames key w) Hw) as [Hw1 Hf1].
  pose proof (EXPIRE_frames key (redis.formatSec (24 * time.Hour)) _ Hw1) as [Hw2 Hf2].
  unfold jwtCache.LogIPAttempt, bind, ret, IPAttemptPrefix. fold key.
  cbn [jwtCache.cache miniredis.jwt jwtCache.NewJWTCache redisCache.as_Cache
       Cache.IncrementWithTTL].
  unfold redisCache.IncrementWithTTL, redis.Exec2, bind, ret.
  cbn [redisCache.client miniredis.cache miniredis.client redis.Incr redis.Expire].
  rewrite roundtrip_delivers by done.
  destruct (miniredis.INCR key w) as [[v e1] w1] eqn:Hincr. cbn [snd] in *.
  rewrite roundtrip_delivers by done.
  destruct (miniredis.EXPIRE key (redis.formatSec (24 * time.Hour)) w1) as [[b e2] w2] eqn:Hexp.
  cbn [snd] in *.
  assert (Hboth : forall k, k <> key -> miniredis.live w2 k = miniredis.live w k)
    by (intros k Hne; rewrite Hf2, Hf1; done).
  unfold redis.cmdsFirstErr, redis.Err, redis.Result. cbn [List.find snd fst].
  destruct e1 as [e1|]; [cbn; split; [done | exact Hboth] |].
  destruct e2 as [e2|]; cbn; (split; [done | exact Hboth]).
Qed.

Lemma reads_after_write (key : string) (w w1 : miniredis.World) :
  miniredis.wire w = [] -> frames key w w1 ->
  (forall t, "blacklist:token:" +:+ t <> key ->
     fst (jwtCache.IsTokenBlacklisted miniredis.jwt t w1)
     = fst (jwtCache.IsTokenBlacklisted miniredis.jwt t w))
  /\ (forall u, "blacklist:user:" +:+ u <> key ->
        fst (jwtCache.IsUserBlacklisted miniredis.jwt u w1)
        = fst (jwtCache.IsUserBlacklisted miniredis.jwt u w))
  /\ (forall u ip, "ip_attempt:" +:+ u +:+ ":" +:+ ip <> key ->
        fst (jwtCache.GetIPAttempts miniredis.jwt u ip w1)
        = fst (jwtCache.GetIPAttempts miniredis.jwt u ip w)).
Proof.
  intros Hw [Hw1 Hf]. split; [| split].
  - intros t Hne. rewrite !IsTokenBlacklisted_delivered by done. cbn [fst]. by rewrite Hf.
  - intros u Hne. rewrite !IsUserBlacklisted_delivered by done. cbn [fst]. by rewrite Hf.
  - intros u ip Hne. rewrite !GetIPAttempts_delivered by done. by rewrite Hf.
Qed.

(** X8: the three families of entries do not interfere.  Blacklisting a
    token changes the answer for no other token, for no user and for no
    attempt counter; blacklisting a user changes the answer for no token, no
    other user and no counter; logging an attempt changes no blacklist
    answer and no counter of another key. *)
Theorem entries_do_not_interfere (tokenID userID ipAddress : string)
    (expiresAt : time.Time) (duration : time.Duration) (w : miniredis.World) :
  miniredis.wire w = [] ->
  let wt := snd (jwtCache.BlacklistToken miniredis.jwt tokenID expiresAt w) in
  let wu := snd (jwtCache.BlacklistUser miniredis.jwt userID duration w) in
  let wl := snd (jwtCache.LogIPAttempt miniredis.jwt userID ipAddress w) in
  (* after BlacklistToken *)
  (forall t, t <> tokenID ->
     fst (jwtCache.IsTokenBlacklisted miniredis.jwt t wt)
     = fst (jwtCache.IsTokenBlacklisted miniredis.jwt t w))
  /\ (forall u, fst (jwtCache.IsUserBlacklisted miniredis.jwt u wt)
                = fst (jwtCache.IsUserBlacklisted miniredis.jwt u w))
  /\ (forall u ip, fst (jwtCache.GetIPAttempts miniredis.jwt u ip wt)
                   = fst (jwtCache.GetIPAttempts miniredis.jwt u ip w))
  (* after BlacklistUser *)
  /\ (forall t, fst (jwtCache.IsTokenBlacklisted miniredis.jwt t wu)
                = fst (jwtCache.IsTokenBlacklisted miniredis.jwt t w))
  /\ (forall u, u <> userID ->
        fst (jwtCache.IsUserBlacklisted miniredis.jwt u wu)
        = fst (jwtCache.IsUserBlacklisted miniredis.jwt u w))
  /\ (forall u ip, fst (jwtCache.GetIPAttempts miniredis.jwt u ip wu)
                   = fst (jwtCache.GetIPAttempts miniredis.jwt u ip w))
  (* after LogIPAttempt *)
  /\ (forall t, fst (jwtCache.IsTokenBlacklisted miniredis.jwt t wl)
                = fst (jwtCache.IsTokenBlacklisted miniredis.jwt t w))
  /\ (forall u, fst (jwtCache.IsUserBlacklisted miniredis.jwt u wl)
                = fst (jwtCache.IsUserBlacklisted miniredis.jwt u w))
  /\ (forall u ip,
        "ip_attempt:" +:+ u +:+ ":" +:+ ip <> "ip_attempt:" +:+ userID +:+ ":" +:+ ipAddress ->
        fst (jwtCache.GetIPAttempts miniredis.jwt u ip wl)
        = fst (jwtCache.GetIPAttempts miniredis.jwt u ip w)).
Proof.
  intros Hw. cbv zeta.
  destruct (reads_after_write _ w _ Hw (BlacklistToken_frames tokenID expiresAt w Hw))
    as (Ht1 & Ht2 & Ht3).
  destruct (reads_after_write _ w _ Hw (BlacklistUser_frames userID duration w Hw))
    as (Hu1 & Hu2 & Hu3).
  destruct (reads_after_write _ w _ Hw (LogIPAttempt_frames userID ipAddress w Hw))
    as (Hl1 & Hl2 & Hl3).
  split; [intros t Hne; apply Ht1; intros Heq; by apply token_key_inj in Heq |].
  split; [intros u; apply Ht2; intros Heq; by apply (token_key_is_no_user_key tokenID u) |].
  split; [intros u ip; apply Ht3; intros Heq;
          by apply (token_key_is_no_attempt_key tokenID u ip) |].
  split; [intros t; apply Hu1; apply token_key_is_no_user_key |].
  split; [intros u Hne; apply Hu2; intros Heq; by apply user_key_inj in Heq |].
  split; [intros u ip; apply Hu3; intros Heq;
          by apply (user_key_is_no_attempt_key userID u ip) |].
  split; [intros t; apply Hl1; apply token_key_is_no_attempt_key |].
  split; [intros u; apply Hl2; apply user_key_is_no_attempt_key |].
  intros u ip Hne. by apply Hl3.
Qed.

(** On a server holding one blacklisted user: blacklisting a token and
    logging an attempt leave the user blacklisted and everyone else clear. *)
Lemma entries_do_not_interfere_witness :
  let w := snd (jwtCache.BlacklistUser miniredis.jwt "user123" time.Hour (miniredis.start 0)) in
  fst (jwtCache.IsUserBlacklisted miniredis.jwt "user123"
         (snd (jwtCache.BlacklistToken miniredis.jwt "user123" time.Hour w))) = (true, None)
  /\ fst (jwtCache.IsTokenBlacklisted miniredis.jwt "user123"
            (snd (jwtCache.LogIPAttempt miniredis.jwt "user123" "192.168.1.1" w)))
     = (false, None).
Proof.
  cbv zeta.
  set (w := snd (jwtCache.BlacklistUser miniredis.jwt "user123" time.Hour (miniredis.start 0))).
  pose proof (entries_do_not_interfere "user123" "user123" "192.168.1.1" time.Hour time.Hour w
                eq_refl) as (_ & Huser & _ & _ & _ & _ & Htoken & _).
  split.
  - rewrite (Huser "user123"). reflexivity.
  - rewrite (Htoken "user123"). reflexivity.
Defined.

Lemma adapter_Get_keeps_store key (w : miniredis.World) :
  miniredis.keys (snd (redisCache.Get miniredis.cache key w)) = miniredis.keys w
  /\ miniredis.clock (snd (redisCache.Get miniredis.cache key w)) = miniredis.clock w.
Proof.
  unfold redisCache.Get, bind, ret.
  cbn [redisCache.client miniredis.cache miniredis.client redis.Get].
  unfold miniredis.roundtrip, miniredis.GET.
  destruct (miniredis.wire w) as [|[e|] rest].
  - destruct (miniredis.live w key); cbn; done.
  - destruct (errors.eq_redis_Nil e); cbn; done.
  - change (miniredis.live (miniredis.set_wire rest w) key) with (miniredis.live w key).
    destruct (miniredis.live w key); cbn; done.
Qed.

Lemma adapter_Exists_keeps_store key (w : miniredis.World) :
  miniredis.keys (snd (redisCache.Exists miniredis.cache key w)) = miniredis.keys w
  /\ miniredis.clock (snd (redisCache.Exists miniredis.cache key w)) = miniredis.clock w.
Proof.
  unfold redisCache.Exists, bind, ret.
  cbn [redisCache.client miniredis.cache miniredis.client redis.Exists].
  unfold miniredis.roundtrip, miniredis.EXISTS.
  destruct (miniredis.wire w) as [|[e|] rest].
  - destruct (miniredis.live w key); cbn; done.
  - cbn; done.
  - change (miniredis.live (miniredis.set_wire rest w) key) with (miniredis.live w key).
    destruct (miniredis.live w key); cbn; done.
Qed.

(** X9: the reading operations never write.  Whatever the transport does,
    IsTokenBlacklisted, IsUserBlacklisted and GetIPAttempts, like Get and
    Exists below them, leave every key with its text and deadline. *)
Theorem reads_never_write (key tokenID userID ipAddress : string) (w : miniredis.World) :
  miniredis.keys (snd (redisCache.Get miniredis.cache key w)) = miniredis.keys w
  /\ miniredis.keys (snd (redisCache.Exists miniredis.cache key w)) = miniredis.keys w
  /\ miniredis.keys (snd (jwtCache.IsTokenBlacklisted miniredis.jwt tokenID w)) = miniredis.keys w
  /\ miniredis.keys (snd (jwtCache.IsUserBlacklisted miniredis.jwt userID w)) = miniredis.keys w
  /\ miniredis.keys (snd (jwtCache.GetIPAttempts miniredis.jwt userID ipAddress w))
     = miniredis.keys w.
Proof.
  split; [apply adapter_Get_keeps_store |]. split; [apply adapter_Exists_keeps_store |].
  split; [| split].
  - unfold jwtCache.IsTokenBlacklisted, bind, ret.
    cbn [jwtCache.cache miniredis.jwt jwtCache.NewJWTCache redisCache.as_Cache Cache.Exists].
    pose proof (adapter_Exists_keeps_store (TokenBlacklistPrefix +:+ tokenID) w) as [Hk _].
    destruct (redisCache.Exists miniredis.cache _ w) as [[b [e|]] w1]; cbn in *; done.
  - unfold jwtCache.IsUserBlacklisted, bind, ret.
    cbn [jwtCache.cache miniredis.jwt jwtCache.NewJWTCache redisCache.as_Cache Cache.Exists].
    pose proof (adapter_Exists_keeps_store (UserBlacklistPrefix +:+ userID) w) as [Hk _].
    destruct (redisCache.Exists miniredis.cache _ w) as [[b [e|]] w1]; cbn in *; done.
  - unfold jwtCache.GetIPAttempts, bind, ret.
    cbn [jwtCache.cache miniredis.jwt jwtCache.NewJWTCache redisCache.as_Cache Cache.Get].
    pose proof (adapter_Get_keeps_store (IPAttemptPrefix +:+ userID +:+ ":" +:+ ipAddress) w)
      as [Hk _].
    destruct (redisCache.Get miniredis.cache _ w) as [[v [e|]] w1]; cbn [snd] in Hk.
    + destruct (String.eqb _ _); cbn; done.
    + destruct (strconv.ParseInt v) as [c [pe|]]; cbn; done.
Qed.

Lemma LogIPAttempt_state userID ipAddress (w : miniredis.World) n :
  miniredis.wire w = [] ->
  counter w ("ip_attempt:" +:+ userID +:+ ":" +:+ ipAddress) = Some n -> n < 2 ^ 63 - 1 ->
  jwtCache.LogIPAttempt miniredis.jwt userID ipAddress w
  = (None,
     miniredis.write_log
       {| logger.level := logger.InfoLevel; logger.msg := "IP attempt logged";
          logger.fields := [logger.String "user_id" userID; logger.String "ip" ipAddress;
                            logger.Int "attempts" (n + 1)] |}
       (miniredis.set_keys
          (<["ip_attempt:" +:+ userID +:+ ":" +:+ ipAddress :=
               {| miniredis.data := pretty (n + 1);
                  miniredis.deadline := Some (miniredis.clock w + 24 * time.Hour) |}]>
             (miniredis.keys w)) w)).
Proof.
  intros Hw Hc Hn.
  unfold jwtCache.LogIPAttempt, bind, ret, IPAttemptPrefix.
  cbn [jwtCache.cache miniredis.jwt jwtCache.NewJWTCache redisCache.as_Cache
       Cache.IncrementWithTTL].
  rewrite (IncrementWithTTL_delivered _ _ _ n) by done. reflexivity.
Qed.

Lemma counter_read userID ipAddress (w : miniredis.World) n :
  miniredis.wire w = [] ->
  counter w ("ip_attempt:" +:+ userID +:+ ":" +:+ ipAddress) = Some n ->
  fst (jwtCache.GetIPAttempts miniredis.jwt userID ipAddress w) = (n, None).
Proof.
  intros Hw Hc. rewrite GetIPAttempts_delivered by done. unfold counter in Hc.
  destruct (miniredis.live w _) as [e|].
  - apply string2ll_inv in Hc as [-> Hr]. by rewrite ParseInt_pretty.
  - by injection Hc as <-.
Qed.

(** X10: attempts are counted within a sliding day.  On a key counting [n]
    GetIPAttempts reads [n]; after one LogIPAttempt it reads [n + 1] for the
    next 24 hours; once 24 hours have passed without an attempt it reads 0
    again, and the attempt logged then is counted 1. *)
Theorem attempts_are_counted (userID ipAddress : string) (w : miniredis.World) (n : Z)
    (d : time.Duration) :
  miniredis.wire w = [] ->
  counter w ("ip_attempt:" +:+ userID +:+ ":" +:+ ipAddress) = Some n -> n < 2 ^ 63 - 1 ->
  0 <= d ->
  let w1 := miniredis.FastForward d
              (snd (jwtCache.LogIPAttempt miniredis.jwt userID ipAddress w)) in
  fst (jwtCache.GetIPAttempts miniredis.jwt userID ipAddress w) = (n, None)
  /\ fst (jwtCache.LogIPAttempt miniredis.jwt userID ipAddress w) = None
  /\ (d < 24 * time.Hour ->
      fst (jwtCache.GetIPAttempts miniredis.jwt userID ipAddress w1) = (n + 1, None))
  /\ (24 * time.Hour <= d ->
      fst (jwtCache.GetIPAttempts miniredis.jwt userID ipAddress w1) = (0, None)
      /\ fst (jwtCache.GetIPAttempts miniredis.jwt userID ipAddress
                (snd (jwtCache.LogIPAttempt miniredis.jwt userID ipAddress w1))) = (1, None)).
Proof.
  intros Hw Hc Hn Hd. cbv zeta.
  split; [by apply counter_read |].
  rewrite (LogIPAttempt_state _ _ _ n) by done. cbn [fst snd].
  split; [done |].
  set (key := "ip_attempt:" +:+ userID +:+ ":" +:+ ipAddress) in *.
  set (e := {| miniredis.data := pretty (n + 1);
               miniredis.deadline := Some (miniredis.clock w + 24 * time.Hour) |}).
  set (w1 := miniredis.FastForward d
               (miniredis.write_log _
                  (miniredis.set_keys (<[key := e]> (miniredis.keys w)) w))).
  assert (Hw1 : miniredis.wire w1 = []) by done.
  assert (Hrange : - 2 ^ 63 <= n + 1 < 2 ^ 63).
  { unfold counter in Hc. destruct (miniredis.live w key) as [e0|].
    - apply string2ll_inv in Hc. lia.
    - injection Hc as <-. lia. }
  assert (Hlive : miniredis.live w1 key
                  = if miniredis.clock w + 24 * time.Hour <=? miniredis.clock w + d
                    then None else Some e).
  { unfold w1. rewrite live_FastForward.
    cbn [miniredis.keys miniredis.set_keys miniredis.write_log miniredis.clock].
    by rewrite lookup_insert_eq. }
  split.
  - intros Hlt. apply counter_read; [done |]. unfold counter. fold key. rewrite Hlive.
    destruct (Z.leb_spec (miniredis.clock w + 24 * time.Hour) (miniredis.clock w + d)); [lia |].
    cbn [miniredis.data e]. by apply string2ll_pretty.
  - intros Hge.
    assert (Hzero : counter w1 key = Some 0).
    { unfold counter. rewrite Hlive.
      destruct (Z.leb_spec (miniredis.clock w + 24 * time.Hour) (miniredis.clock w + d));
        [done | lia]. }
    split; [by apply counter_read |].
    rewrite (LogIPAttempt_state _ _ _ 0) by (done || lia). cbn [snd].
    apply counter_read; [done |]. fold key. unfold counter.
    rewrite live_write_log, live_insert; [reflexivity |].
    unfold miniredis.expired. cbn [miniredis.deadline]. apply Z.leb_gt.
    unfold time.Hour, time.Second. lia.
Qed.

Lemma attempts_are_counted_witness :
  fst (jwtCache.GetIPAttempts miniredis.jwt "user123" "192.168.1.1"
         (miniredis.FastForward time.Hour
            (snd (jwtCache.LogIPAttempt miniredis.jwt "user123" "192.168.1.1"
                    (miniredis.start 0))))) = (1, None).
Proof.
  pose proof (attempts_are_counted "user123" "192.168.1.1" (miniredis.start 0) 0 time.Hour
                eq_refl eq_refl ltac:(lia) ltac:(unfold time.Hour, time.Second; lia))
    as (_ & _ & Hin & _).
  apply Hin. unfold time.Hour, time.Second. lia.
Defined.

(** ** The repository on the store *)

(** ** The repository: what each statement leaves behind *)

Lemma db_prepare_delivered q (d : postgres.DB) t :
  postgres.wire d = [] -> postgres.resolve q d = inl t ->
  postgres.prepare q d = ((tt, None), d).
Proof.
  intros Hw Hr. unfold postgres.prepare. rewrite db_roundtrip_delivers by done. by rewrite Hr.
Qed.

Lemma Create_delivered token (d : postgres.DB) t :
  postgres.wire d = [] ->
  postgres.tables d !! "refresh_tokens" = Some t ->
  postgres.columns t = sql.table_columns migrations.create_refresh_tokens ->
  refreshTokenRepo.Create postgres.repo token d
  = ((returned (postgres.now d) (postgres.serial t) token, None),
     postgres.write_log
       {| logger.level := logger.InfoLevel; logger.msg := "Refresh token created";
          logger.fields := [logger.Int "id" (postgres.serial t);
                            logger.String "user_id" (models.UserID token)] |}
       (postgres.set_tables
          (<["refresh_tokens" :=
               {| postgres.columns := postgres.columns t;
                  postgres.rows := postgres.rows t
                                   ++ [inserted (postgres.now d) (postgres.serial t) token];
                  postgres.serial := postgres.serial t + 1 |}]> (postgres.tables d)) d)).
Proof.
  intros Hw Ht Hc.
  assert (Hr : postgres.resolve refreshTokenRepo.Create_query d = inl t)
    by (apply resolve_refresh_tokens; cbn; auto 10).
  unfold refreshTokenRepo.Create, bind, ret.
  cbn [refreshTokenRepo.db postgres.repo postgres.handle sqlx.PrepareNamedContext].
  unfold bind, ret. rewrite (db_prepare_delivered _ d t) by done.
  cbn [sqlx.QueryRowxContext]. unfold bind, ret.
  erewrite statement_delivered; [| done | exact Hr |].
  2:{ cbn [postgres.run refreshTokenRepo.Create_query]. rewrite Hc.
      destruct token. reflexivity. }
  rewrite Hc. destruct token. reflexivity.
Qed.

Lemma GetByID_delivered id (d : postgres.DB) t :
  postgres.wire d = [] ->
  postgres.resolve refreshTokenRepo.GetByID_query d = inl t ->
  fst (refreshTokenRepo.GetByID postgres.repo id d)
  = match List.filter (fun r => models.ID r =? id) (postgres.rows t) with
    | [] => (None, Some (refresh_token_not_found id))
    | r :: _ => (Some r, None)
    end.
Proof.
  intros Hw Hr. unfold refreshTokenRepo.GetByID, bind, ret.
  cbn [refreshTokenRepo.db postgres.repo postgres.handle sqlx.GetContext].
  unfold bind, ret.
  erewrite statement_delivered; [| done | exact Hr | reflexivity].
  cbn [fst snd sql.order_by sql.limit].
  change (sql.holds (postgres.now d) _ (sql.Eq (sql.Col sql.id) (sql.Arg 1)))
    with (fun r => models.ID r =? id).
  destruct (List.filter _ (postgres.rows t)) as [|r rest]; [reflexivity |].
  cbn [map postgres.first_row postgres.returned_columns refreshTokenRepo.GetByID_query].
  rewrite project_all.
  change [sql.id; sql.user_id; sql.token_hash; sql.user_agent; sql.ip_address; sql.created_at;
          sql.expires_at; sql.is_used; sql.updated_at] with sql.all_columns.
  rewrite StructScan_all. reflexivity.
Qed.




Section CreateErrors.
Context {S : Type} (r : refreshTokenRepo.t S).

(** X12: the failures of Create, for every handle.  When the statement
    cannot be prepared the error is returned wrapped behind "failed to
    prepare query: ", "Failed to prepare query" is logged and nothing is
    executed; the caller's token is unchanged.  When the scan of the row of
    the INSERT returns an error, Create returns that error as it is, not
    wrapped, and logs "Failed to execute insert query".  The token is
    unchanged when the error is the one the row carries (the insert failed
    or returned no row) and when the row has not three columns; when a
    column does not convert, the token keeps what the scan assigned before
    it: a row whose second column is no timestamp leaves the token with the
    identifier of the row. *)
Theorem Create_failures (token : models.RefreshToken) (s : S) :
  let prepared := sqlx.PrepareNamedContext (refreshTokenRepo.db r)
                    refreshTokenRepo.Create_query s in
  let stmt := fst (fst prepared) in
  let row := sqlx.QueryRowxContext stmt token (snd prepared) in
  let scanned := sqlx.Scan (fst row) [sql.id; sql.created_at; sql.updated_at] token in
  (forall e, snd (fst prepared) = Some e ->
     fst (refreshTokenRepo.Create r token s)
     = (token, Some (errors.Wrap "failed to prepare query: " e))
     /\ snd (refreshTokenRepo.Create r token s)
        = snd (logger.Logger.Error (refreshTokenRepo.l r) "Failed to prepare query"
                 [logger.Error e] (snd prepared)))
  /\ (forall e, snd (fst prepared) = None -> snd scanned = Some e ->
        fst (refreshTokenRepo.Create r token s) = (fst scanned, Some e)
        /\ snd (refreshTokenRepo.Create r token s)
           = snd (logger.Logger.Error (refreshTokenRepo.l r) "Failed to execute insert query"
                    [logger.Error e] (snd row)))
  /\ (forall e, sqlx.err (fst row) = Some e -> scanned = (token, Some e))
  /\ (sqlx.err (fst row) = None -> length (sqlx.columns (fst row)) <> 3%nat ->
      scanned = (token, Some (sqlx.wrong_destinations (length (sqlx.columns (fst row))) 3)))
  /\ (forall c, sqlx.err (fst row) = None ->
        sqlx.columns (fst row) = [sql.id; c; sql.updated_at] ->
        c <> sql.created_at -> c <> sql.expires_at -> c <> sql.updated_at ->
        scanned
        = ({| models.ID := models.ID (sqlx.values (fst row));
              models.UserID := models.UserID token;
              models.TokenHash := models.TokenHash token;
              models.UserAgent := models.UserAgent token;
              models.IPAddress := models.IPAddress token;
              models.CreatedAt := models.CreatedAt token;
              models.ExpiresAt := models.ExpiresAt token;
              models.IsUsed := models.IsUsed token;
              models.UpdatedAt := models.UpdatedAt token |},
           Some (sqlx.scan_error 1 c))).
Proof.
  cbv zeta. unfold refreshTokenRepo.Create, bind, ret.
  destruct (sqlx.PrepareNamedContext _ _ s) as [[stmt err] s1]. cbn [fst snd].
  split; [| split; [| split; [| split]]].
  - intros e ->. destruct (logger.Logger.Error _ _ _ s1) as [[] s2]. done.
  - intros e -> He. destruct (sqlx.QueryRowxContext stmt token s1) as [row s2].
    cbn [fst snd] in *.
    destruct (sqlx.Scan row _ token) as [scanned serr]. cbn [snd] in He. subst serr.
    cbn [fst snd]. destruct (logger.Logger.Error _ _ _ s2) as [[] s3]. done.
  - intros e He. unfold sqlx.Scan. by rewrite He.
  - intros He Hlen. unfold sqlx.Scan. rewrite He. cbn [length].
    destruct (Nat.eqb_spec 3 (length (sqlx.columns (fst (sqlx.QueryRowxContext stmt token s1)))))
      as [Heq | Hne]; [by rewrite <- Heq in Hlen | reflexivity].
  - intros c He Hcols Hc1 Hc2 Hc3. unfold sqlx.Scan. rewrite He, Hcols.
    cbn [length Nat.eqb negb sqlx.scan].
    destruct (sqlx.values _) as [i u th ua ip ca ea iu upd], token as [i' u' th' ua' ip' ca' ea' iu' upd'].
    destruct c; try done.
Qed.

End CreateErrors.

(** On the database the shipped migration leaves; on a connection that
    drops after the statement was prepared; and with a driver that returns
    the user in place of the creation time. *)
Lemma Create_failures_witness :
  fst (refreshTokenRepo.Create postgres.repo (token 0 "user-1" 0 900) (migrated 0))
  = (token 0 "user-1" 0 900,
     Some (errors.Wrap "failed to prepare query: " (postgres.undefined_table "refresh_tokens")))
  /\ fst (refreshTokenRepo.Create postgres.repo (token 0 "user-1" 0 900)
            (postgres.set_wire [None; Some (errors.New "EOF")] (store_with 500 [])))
     = (token 0 "user-1" 0 900, Some (errors.New "EOF"))
  /\ fst (refreshTokenRepo.Create
            (answering {| sqlx.columns := [sql.id; sql.user_id; sql.updated_at];
                          sqlx.values := token 7 "user-1" 500 900;
                          sqlx.err := None |})
            (token 0 "user-1" 0 900) tt)
     = (token 7 "user-1" 0 900, Some (sqlx.scan_error 1 sql.user_id)).
Proof.
  pose proof (Create_failures postgres.repo (token 0 "user-1" 0 900) (migrated 0)) as [H1 _].
  pose proof (Create_failures postgres.repo (token 0 "user-1" 0 900)
                (postgres.set_wire [None; Some (errors.New "EOF")] (store_with 500 [])))
    as (_ & H2 & _).
  pose proof (Create_failures
                (answering {| sqlx.columns := [sql.id; sql.user_id; sql.updated_at];
                              sqlx.values := token 7 "user-1" 500 900;
                              sqlx.err := None |})
                (token 0 "user-1" 0 900) tt) as (_ & H3 & _ & _ & H4).
  split; [| split].
  - apply (H1 (postgres.undefined_table "refresh_tokens")). reflexivity.
  - apply (H2 (errors.New "EOF")); reflexivity.
  - specialize (H4 sql.user_id eq_refl eq_refl ltac:(discriminate) ltac:(discriminate)
                  ltac:(discriminate)).
    destruct (H3 (sqlx.scan_error 1 sql.user_id) eq_refl) as [H5 _].
    { rewrite H4. reflexivity. }
    rewrite H5, H4. reflexivity.
Defined.

(** *** The store after a delivered operation *)

Section Leaves.
Variables (d : postgres.DB) (t : postgres.Table).
Hypothesis Hw : postgres.wire d = [].
Hypothesis Ht : postgres.tables d !! "refresh_tokens" = Some t.
Hypothesis Hc : postgres.columns t = sql.table_columns migrations.create_refresh_tokens.

Lemma resolves q : In q refreshTokenRepo.queries -> postgres.resolve q d = inl t.
Proof. intros Hq. by apply resolve_refresh_tokens. Qed.



Lemma Delete_leaves tokenID :
  leaves d (snd (refreshTokenRepo.Delete postgres.repo tokenID d))
    (postgres.with_rows t (without tokenID (postgres.rows t))).
Proof.
  unfold refreshTokenRepo.Delete, bind, ret.
  cbn [refreshTokenRepo.db postgres.repo postgres.handle sqlx.ExecContext].
  unfold bind, ret.
  erewrite statement_delivered; [| done | apply resolves; cbn; tauto | reflexivity].
  cbn [fst snd sqlx.RowsAffected].
  change (sql.holds (postgres.now d) _ (sql.Eq (sql.Col sql.id) (sql.Arg 1)))
    with (fun r => models.ID r =? tokenID).
  destruct (_ =? 0); repeat split; cbn; try done; by rewrite lookup_insert_eq.
Qed.

Lemma DeleteAllByUserID_leaves userID :
  leaves d (snd (refreshTokenRepo.DeleteAllByUserID postgres.repo userID d))
    (postgres.with_rows t (List.filter (fun r => negb (owned_by userID r)) (postgres.rows t))).
Proof.
  unfold refreshTokenRepo.DeleteAllByUserID, bind, ret.
  cbn [refreshTokenRepo.db postgres.repo postgres.handle sqlx.ExecContext].
  unfold bind, ret.
  erewrite statement_delivered; [| done | apply resolves; cbn; tauto | reflexivity].
  repeat split; cbn; try done; by rewrite lookup_insert_eq.
Qed.

Lemma CleanExpired_leaves :
  leaves d (snd (refreshTokenRepo.CleanExpired postgres.repo d))
    (postgres.with_rows t
       (List.filter (fun r => negb (past_expiry (postgres.now d) r)) (postgres.rows t))).
Proof.
  rewrite (CleanExpired_delivered d t); [| done | apply resolves; cbn; tauto].
  repeat split; cbn; try done; by rewrite lookup_insert_eq.
Qed.

End Leaves.

(** *** GetByID *)

Lemma filter_id_unique (rs : list models.RefreshToken) r :
  NoDup (map models.ID rs) -> In r rs ->
  List.filter (fun x => models.ID x =? models.ID r) rs = [r].
Proof.
  induction rs as [|a rs IH]; intros Hnd Hin; [destruct Hin |].
  cbn [map] in Hnd. apply NoDup_cons in Hnd as [Ha Hnd]. cbn [List.filter].
  destruct Hin as [-> | Hin].
  - rewrite Z.eqb_refl. f_equal.
    assert (Hnone : forall x, In x rs -> (models.ID x =? models.ID r) = false).
    { intros x Hx. apply Z.eqb_neq. intros Heq. apply Ha. rewrite <- Heq.
      change (map models.ID rs) with (models.ID <$> rs).
      apply list_elem_of_fmap. exists x. split; [done |]. by apply list_elem_of_In. }
    clear -Hnone. induction rs as [|b rs IH]; [done |]. cbn [List.filter].
    rewrite Hnone by (by left). apply IH. intros x Hx. apply Hnone. by right.
  - destruct (models.ID a =? models.ID r) eqn:Heq.
    + exfalso. apply Z.eqb_eq in Heq. apply Ha. rewrite Heq.
      change (map models.ID rs) with (models.ID <$> rs).
      apply list_elem_of_fmap. exists r. split; [done |]. by apply list_elem_of_In.
    + by apply IH.
Qed.

Lemma filter_nil_iff {A} (f : A -> bool) (l : list A) :
  List.filter f l = [] <-> forall x, In x l -> f x = false.
Proof.
  induction l as [|a l IH]; cbn [List.filter].
  - split; [intros _ x [] | done].
  - destruct (f a) eqn:Hfa.
    + split; [discriminate |]. intros H. specialize (H a (or_introl eq_refl)). congruence.
    + rewrite IH. split.
      * intros H x [<- | Hx]; [done | by apply H].
      * intros H x Hx. apply H. by right.
Qed.

Section GetByIDErrors.
Context {S : Type} (r : refreshTokenRepo.t S).

Lemma GetByID_error id s e :
  snd (fst (sqlx.GetContext (refreshTokenRepo.db r) models.zero
              refreshTokenRepo.GetByID_query [sql.Int id] s)) = Some e ->
  fst (refreshTokenRepo.GetByID r id s)
  = (None, Some (if errors.eq_ErrNoRows e then refresh_token_not_found id
                 else errors.Wrap "failed to get refresh token: " e)).
Proof.
  unfold refreshTokenRepo.GetByID, bind, ret.
  destruct (sqlx.GetContext _ _ _ _ s) as [[tok err] s1]. cbn [fst snd].
  intros ->. by destruct (errors.eq_ErrNoRows e).
Qed.

End GetByIDErrors.

(** X13: GetByID.  On a store that has the table and a transport that
    delivers, GetByID returns a row with the identifier asked for, whether or
    not the token is used or expired; with distinct identifiers it returns
    the one row that has it; it returns the error "refresh token with id N
    not found" exactly when no row has the identifier.  For every handle, an
    error of the query other than ErrNoRows is returned wrapped behind
    "failed to get refresh token: ", as a different error, and no token is
    returned with an error. *)
Theorem GetByID_finds_by_identifier (d : postgres.DB) (t : postgres.Table) (id : Z) :
  postgres.wire d = [] ->
  postgres.tables d !! "refresh_tokens" = Some t ->
  postgres.columns t = sql.table_columns migrations.create_refresh_tokens ->
  let out := fst (refreshTokenRepo.GetByID postgres.repo id d) in
  (forall r, out = (Some r, None) -> In r (postgres.rows t) /\ models.ID r = id)
  /\ (forall r, NoDup (map models.ID (postgres.rows t)) ->
        In r (postgres.rows t) -> models.ID r = id -> out = (Some r, None))
  /\ (out = (None, Some (refresh_token_not_found id))
      <-> forall r, In r (postgres.rows t) -> models.ID r <> id)
  /\ (forall S (h : refreshTokenRepo.t S) (s : S) e,
        snd (fst (sqlx.GetContext (refreshTokenRepo.db h) models.zero
                    refreshTokenRepo.GetByID_query [sql.Int id] s)) = Some e ->
        errors.eq_ErrNoRows e = false ->
        fst (refreshTokenRepo.GetByID h id s)
        = (None, Some (errors.Wrap "failed to get refresh token: " e))
        /\ errors.Wrap "failed to get refresh token: " e <> refresh_token_not_found id).
Proof.
  intros Hw Ht Hc. cbv zeta.
  rewrite (GetByID_delivered id d t); [| done | apply resolve_refresh_tokens; cbn; tauto].
  set (f := fun r : models.RefreshToken => models.ID r =? id).
  split; [| split; [| split]].
  - intros r. destruct (List.filter f _) as [|r0 rest] eqn:Hf; [discriminate |].
    intros [= <-]. assert (Hin : In r0 (List.filter f (postgres.rows t)))
      by (rewrite Hf; by left).
    apply filter_In in Hin. destruct Hin as [Hin Heq]. split; [done |]. by apply Z.eqb_eq.
  - intros r Hnd Hin <-. unfold f. by rewrite filter_id_unique.
  - split.
    + destruct (List.filter f _) as [|r0 rest] eqn:Hf; [| discriminate].
      intros _ r Hin Heq. apply (proj1 (filter_nil_iff _ _)) with (x := r) in Hf; [| done].
      apply Z.eqb_neq in Hf. done.
    + intros Hnone. rewrite (proj2 (filter_nil_iff f (postgres.rows t))); [done |].
      intros x Hx. apply Z.eqb_neq. by apply Hnone.
  - intros S h s e He Hno. split.
    + rewrite (GetByID_error h id s e He), Hno. reflexivity.
    + unfold errors.Wrap, refresh_token_not_found. destruct e; discriminate.
Qed.

Lemma GetByID_finds_by_identifier_witness :
  let used := mark 300 (token 1 "user-1" 100 200) in
  fst (refreshTokenRepo.GetByID postgres.repo 1 (store_with 500 [used; token 2 "user-1" 100 900]))
  = (Some used, None).
Proof.
  cbv zeta.
  pose proof (GetByID_finds_by_identifier
                (store_with 500 [mark 300 (token 1 "user-1" 100 200); token 2 "user-1" 100 900])
                {| postgres.columns := sql.table_columns migrations.create_refresh_tokens;
                   postgres.rows := [mark 300 (token 1 "user-1" 100 200);
                                     token 2 "user-1" 100 900];
                   postgres.serial := 3 |}
                1 eq_refl eq_refl eq_refl) as (_ & H & _).
  apply H.
  - cbn. apply NoDup_cons. split; [| apply NoDup_singleton].
    rewrite list_elem_of_singleton. discriminate.
  - by left.
  - reflexivity.
Defined.



(** *** The identifiers of the table *)

Lemma store_ok_tables (d d' : postgres.DB) :
  postgres.tables d' = postgres.tables d -> store_ok d -> store_ok d'.
Proof. intros Heq (t & Ht & Hc & Hf). exists t. by rewrite Heq. Qed.

Lemma apply_set_mark now b r :
  postgres.apply_set now b
    [(sql.is_used, sql.Const (sql.Boolean true)); (sql.updated_at, sql.NOW)] r r
  = Some (mark now r).
Proof. by destruct r. Qed.

Lemma update_rows_ids now b w rs rs' n :
  postgres.update_rows now b
    [(sql.is_used, sql.Const (sql.Boolean true)); (sql.updated_at, sql.NOW)] w rs
  = Some (rs', n) ->
  map models.ID rs' = map models.ID rs.
Proof.
  revert rs' n. induction rs as [|r rs IH]; intros rs' n; cbn [postgres.update_rows].
  - by intros [= <- <-].
  - destruct (postgres.update_rows _ _ _ _ rs) as [[out m]|]; [| discriminate].
    rewrite apply_set_mark. specialize (IH out m eq_refl).
    destruct (sql.holds now b w r); intros [= <- <-]; cbn [map]; by rewrite IH.
Qed.

Lemma ids_fresh_filter (f : models.RefreshToken -> bool) (t : postgres.Table) :
  ids_fresh t -> ids_fresh (postgres.with_rows t (List.filter f (postgres.rows t))).
Proof.
  intros [Hlt Hnd]. split; cbn [postgres.rows postgres.serial postgres.with_rows].
  - apply Forall_forall. intros x Hx. apply list_elem_of_In, filter_In in Hx as [Hx _].
    rewrite Forall_forall in Hlt. by apply Hlt, list_elem_of_In.
  - clear Hlt. induction (postgres.rows t) as [|a l IH]; [done |].
    cbn [map] in Hnd. apply NoDup_cons in Hnd as [Ha Hnd]. cbn [List.filter].
    destruct (f a); [| by apply IH]. cbn [map]. apply NoDup_cons. split; [| by apply IH].
    intros Hin. apply Ha. change (models.ID a ∈ models.ID <$> l).
    change (models.ID a ∈ models.ID <$> List.filter f l) in Hin.
    apply list_elem_of_fmap in Hin as (x & Hx1 & Hx2). apply list_elem_of_fmap.
    exists x. split; [done |]. apply list_elem_of_In. apply list_elem_of_In, filter_In in Hx2.
    tauto.
Qed.

Lemma ids_fresh_same_ids (t : postgres.Table) rs :
  map models.ID rs = map models.ID (postgres.rows t) ->
  ids_fresh t -> ids_fresh (postgres.with_rows t rs).
Proof.
  intros Heq [Hlt Hnd]. split; cbn [postgres.rows postgres.serial postgres.with_rows].
  - apply Forall_forall. intros x Hx.
    assert (Hid : models.ID x ∈ models.ID <$> postgres.rows t).
    { change (models.ID x ∈ map models.ID (postgres.rows t)). rewrite <- Heq.
      change (models.ID x ∈ models.ID <$> rs). apply list_elem_of_fmap. by exists x. }
    apply list_elem_of_fmap in Hid as (y & Hy1 & Hy2). rewrite Hy1.
    rewrite Forall_forall in Hlt. by apply Hlt.
  - by rewrite Heq.
Qed.

Lemma ids_fresh_insert (t : postgres.Table) cols r :
  models.ID r = postgres.serial t ->
  ids_fresh t ->
  ids_fresh {| postgres.columns := cols; postgres.rows := postgres.rows t ++ [r];
               postgres.serial := postgres.serial t + 1 |}.
Proof.
  intros Hid [Hlt Hnd]. split; cbn [postgres.rows postgres.serial].
  - apply Forall_app. split.
    + eapply Forall_impl; [exact Hlt |]. cbn. intros. lia.
    + apply Forall_singleton. lia.
  - rewrite map_app. apply NoDup_app. split; [done |]. split; [| apply NoDup_singleton].
    intros x Hx. cbn. rewrite list_elem_of_singleton. intros ->.
    change (models.ID r ∈ models.ID <$> postgres.rows t) in Hx.
    apply list_elem_of_fmap in Hx as (y & Hy1 & Hy2).
    rewrite Forall_forall in Hlt. specialize (Hlt y Hy2). cbn in Hlt. lia.
Qed.

Lemma fill_serial now b (s : Z) :
  postgres.fill (sql.table_columns migrations.create_refresh_tokens)
    (zip [sql.user_id; sql.token_hash; sql.user_agent; sql.ip_address; sql.expires_at]
       (map (sql.eval now b models.zero)
          [sql.Named sql.user_id; sql.Named sql.token_hash; sql.Named sql.user_agent;
           sql.Named sql.ip_address; sql.Named sql.expires_at]))
    now s models.zero
  = Some (inserted now s (sql.named b)).
Proof. reflexivity. Qed.

(** Running a statement of the repository keeps the columns of the table
    and the freshness of its identifiers. *)
Lemma run_keeps_ids q b now (t : postgres.Table) out n t' :
  In q refreshTokenRepo.queries ->
  postgres.columns t = sql.table_columns migrations.create_refresh_tokens ->
  ids_fresh t ->
  postgres.run now b q t = inl (out, n, t') ->
  postgres.columns t' = postgres.columns t /\ ids_fresh t'.
Proof.
  intros Hq Hc Hf. cbn in Hq.
  destruct Hq as [<- | [<- | [<- | [<- | [<- | [<- | [<- | [<- | []]]]]]]]];
    cbn [postgres.run refreshTokenRepo.Create_query refreshTokenRepo.GetActiveByUserID_query
         refreshTokenRepo.GetByID_query refreshTokenRepo.MarkAsUsed_query
         refreshTokenRepo.DeleteAllByUserID_query refreshTokenRepo.Delete_query
         refreshTokenRepo.CleanExpired_query refreshTokenRepo.GetAllActiveByUserID_query].
  - rewrite Hc, fill_serial. cbn [length Nat.eqb negb]. intros [= <- <- <-]. split; [done |].
    by apply ids_fresh_insert.
  - by intros [= <- <- <-].
  - by intros [= <- <- <-].
  - destruct (postgres.update_rows _ _ _ _ _) as [[rs m]|] eqn:Hu; [| discriminate].
    intros [= <- <- <-]. split; [done |]. apply update_rows_ids in Hu.
    by apply ids_fresh_same_ids.
  - intros [= <- <- <-]. split; [done |]. by apply ids_fresh_filter.
  - intros [= <- <- <-]. split; [done |]. by apply ids_fresh_filter.
  - intros [= <- <- <-]. split; [done |]. by apply ids_fresh_filter.
  - by intros [= <- <- <-].
Qed.

Lemma statement_keeps_ok q b (d : postgres.DB) :
  In q refreshTokenRepo.queries -> store_ok d -> store_ok (snd (postgres.statement q b d)).
Proof.
  intros Hq Hok.
  assert (Hserve : forall d0 : postgres.DB, store_ok d0 ->
            store_ok (snd (match postgres.resolve q d0 with
                           | inr e => (([], 0, Some e), d0)
                           | inl t =>
                               match postgres.run (postgres.now d0) b q t with
                               | inr e => (([], 0, Some e), d0)
                               | inl (out, n, t') =>
                                   ((out, n, None),
                                    postgres.set_tables
                                      (<[sql.stmt_table q := t']> (postgres.tables d0)) d0)
                               end
                           end))).
  { intros d0 (t & Ht & Hc & Hf).
    destruct (postgres.resolve q d0) as [t0|e] eqn:Hr; [| by exists t].
    destruct (postgres.run _ b q t0) as [[[out n] t']|e] eqn:Hrun; [| by exists t].
    apply resolve_table in Hr.
    assert (Hn : sql.stmt_table q = "refresh_tokens").
    { cbn in Hq. repeat (destruct Hq as [<- | Hq]; [reflexivity |]). destruct Hq. }
    rewrite Hn in *. rewrite Ht in Hr. injection Hr as <-.
    destruct (run_keeps_ids q b _ t out n t' Hq Hc Hf Hrun) as [Hc' Hf'].
    exists t'. split; [cbn; by rewrite lookup_insert_eq |]. split; [by rewrite Hc' | done]. }
  unfold postgres.statement, postgres.roundtrip.
  destruct (postgres.wire d) as [|[e|] rest].
  - by apply Hserve.
  - cbn. by apply (store_ok_tables d).
  - apply Hserve. by apply (store_ok_tables d).
Qed.

Lemma prepare_keeps_ok q (d : postgres.DB) :
  store_ok d -> store_ok (snd (postgres.prepare q d)).
Proof.
  intros Hok. unfold postgres.prepare, postgres.roundtrip.
  destruct (postgres.wire d) as [|[e|] rest].
  - by destruct (postgres.resolve q d).
  - cbn. by apply (store_ok_tables d).
  - destruct (postgres.resolve q _); by apply (store_ok_tables d).
Qed.

Lemma write_log_keeps_ok e (d : postgres.DB) : store_ok d -> store_ok (postgres.write_log e d).
Proof. by apply store_ok_tables. Qed.

(** X15: the identifiers stay distinct.  Whatever the transport does, every
    operation of the repository leaves the table with its columns, with
    pairwise distinct identifiers, all of them below the serial from which
    the next identifier is taken; and on a transport that delivers, the
    identifier Create assigns is that of no row already stored. *)
Theorem identifiers_stay_distinct (d : postgres.DB) (token : models.RefreshToken)
    (userID : string) (tokenID : Z) :
  store_ok d ->
  store_ok (snd (refreshTokenRepo.Create postgres.repo token d))
  /\ store_ok (snd (refreshTokenRepo.GetActiveByUserID postgres.repo userID d))
  /\ store_ok (snd (refreshTokenRepo.GetByID postgres.repo tokenID d))
  /\ store_ok (snd (refreshTokenRepo.MarkAsUsed postgres.repo tokenID d))
  /\ store_ok (snd (refreshTokenRepo.DeleteAllByUserID postgres.repo userID d))
  /\ store_ok (snd (refreshTokenRepo.Delete postgres.repo tokenID d))
  /\ store_ok (snd (refreshTokenRepo.CleanExpired postgres.repo d))
  /\ store_ok (snd (refreshTokenRepo.GetAllActiveByUserID postgres.repo userID d))
  /\ (postgres.wire d = [] ->
      forall rows r, postgres.refresh_tokens d = Some rows -> In r rows ->
                     models.ID r <> models.ID (fst (fst (refreshTokenRepo.Create postgres.repo
                                                          token d)))).
Proof.
  intros Hok.
  split; [| split; [| split; [| split; [| split; [| split; [| split; [| split]]]]]]].
  - unfold refreshTokenRepo.Create, bind, ret.
    cbn [refreshTokenRepo.db refreshTokenRepo.l postgres.repo postgres.handle
         sqlx.PrepareNamedContext sqlx.QueryRowxContext].
    unfold bind, ret.
    pose proof (prepare_keeps_ok refreshTokenRepo.Create_query d Hok) as Hp.
    destruct (postgres.prepare refreshTokenRepo.Create_query d) as [[[] [e|]] d1];
      cbn [fst snd sqlx.QueryRowxContext] in *; [by apply write_log_keeps_ok |].
    pose proof (statement_keeps_ok refreshTokenRepo.Create_query
                  {| sql.args := []; sql.named := token |} d1) as Hs.
    destruct (postgres.statement _ _ d1) as [res d2]. cbn [fst snd] in *.
    assert (Hd2 : store_ok d2) by (apply Hs; [cbn; tauto | done]).
    destruct (sqlx.Scan _ _ _) as [? [e|]]; cbn; by apply write_log_keeps_ok.
  - unfold refreshTokenRepo.GetActiveByUserID, bind, ret.
    cbn [refreshTokenRepo.db postgres.repo postgres.handle sqlx.GetContext]. unfold bind, ret.
    pose proof (statement_keeps_ok refreshTokenRepo.GetActiveByUserID_query
                  {| sql.args := [sql.Text userID]; sql.named := models.zero |} d) as Hs.
    destruct (postgres.statement _ _ d) as [res d2]. cbn [fst snd] in *.
    assert (Hd2 : store_ok d2) by (apply Hs; [cbn; tauto | done]).
    destruct (sqlx.StructScan _ _) as [? [e|]]; [destruct (errors.eq_ErrNoRows e) |]; done.
  - unfold refreshTokenRepo.GetByID, bind, ret.
    cbn [refreshTokenRepo.db postgres.repo postgres.handle sqlx.GetContext]. unfold bind, ret.
    pose proof (statement_keeps_ok refreshTokenRepo.GetByID_query
                  {| sql.args := [sql.Int tokenID]; sql.named := models.zero |} d) as Hs.
    destruct (postgres.statement _ _ d) as [res d2]. cbn [fst snd] in *.
    assert (Hd2 : store_ok d2) by (apply Hs; [cbn; tauto | done]).
    destruct (sqlx.StructScan _ _) as [? [e|]]; [destruct (errors.eq_ErrNoRows e) |]; done.
  - unfold refreshTokenRepo.MarkAsUsed, bind, ret.
    cbn [refreshTokenRepo.db refreshTokenRepo.l postgres.repo postgres.handle sqlx.ExecContext].
    unfold bind, ret.
    pose proof (statement_keeps_ok refreshTokenRepo.MarkAsUsed_query
                  {| sql.args := [sql.Int tokenID]; sql.named := models.zero |} d) as Hs.
    destruct (postgres.statement _ _ d) as [[[out n] [e|]] d2]; cbn [fst snd] in *.
    + apply write_log_keeps_ok, Hs; [cbn; tauto | done].
    + cbn [sqlx.RowsAffected]. destruct (n =? 0); apply write_log_keeps_ok, Hs;
        (cbn; tauto) || done.
  - unfold refreshTokenRepo.DeleteAllByUserID, bind, ret.
    cbn [refreshTokenRepo.db postgres.repo postgres.handle sqlx.ExecContext]. unfold bind, ret.
    pose proof (statement_keeps_ok refreshTokenRepo.DeleteAllByUserID_query
                  {| sql.args := [sql.Text userID]; sql.named := models.zero |} d) as Hs.
    destruct (postgres.statement _ _ d) as [[[out n] [e|]] d2]; cbn [fst snd] in *;
      apply Hs; (cbn; tauto) || done.
  - unfold refreshTokenRepo.Delete, bind, ret.
    cbn [refreshTokenRepo.db refreshTokenRepo.l postgres.repo postgres.handle sqlx.ExecContext].
    unfold bind, ret.
    pose proof (statement_keeps_ok refreshTokenRepo.Delete_query
                  {| sql.args := [sql.Int tokenID]; sql.named := models.zero |} d) as Hs.
    destruct (postgres.statement _ _ d) as [[[out n] [e|]] d2]; cbn [fst snd] in *.
    + apply write_log_keeps_ok, Hs; [cbn; tauto | done].
    + cbn [sqlx.RowsAffected]. destruct (n =? 0); apply write_log_keeps_ok, Hs;
        (cbn; tauto) || done.
  - unfold refreshTokenRepo.CleanExpired, bind, ret.
    cbn [refreshTokenRepo.db postgres.repo postgres.handle sqlx.ExecContext]. unfold bind, ret.
    pose proof (statement_keeps_ok refreshTokenRepo.CleanExpired_query
                  {| sql.args := []; sql.named := models.zero |} d) as Hs.
    destruct (postgres.statement _ _ d) as [[[out n] [e|]] d2]; cbn [fst snd] in *;
      apply Hs; (cbn; tauto) || done.
  - unfold refreshTokenRepo.GetAllActiveByUserID, bind, ret.
    cbn [refreshTokenRepo.db postgres.repo postgres.handle sqlx.SelectContext]. unfold bind, ret.
    pose proof (statement_keeps_ok refreshTokenRepo.GetAllActiveByUserID_query
                  {| sql.args := [sql.Text userID]; sql.named := models.zero |} d) as Hs.
    destruct (postgres.statement _ _ d) as [[[out n] [e|]] d2]; cbn [fst snd] in *;
      apply Hs; (cbn; tauto) || done.
  - intros Hw rows r Hrows Hin. destruct Hok as (t & Ht & Hc & Hlt & _).
    unfold postgres.refresh_tokens in Hrows. rewrite Ht in Hrows. injection Hrows as <-.
    rewrite (Create_delivered token d t) by done. cbn [fst snd returned models.ID].
    rewrite Forall_forall in Hlt. specialize (Hlt r (proj2 (list_elem_of_In _ _) Hin)).
    cbn in Hlt. lia.
Qed.

(** On a connection that drops while the statement is sent. *)
Lemma identifiers_stay_distinct_witness :
  store_ok (snd (refreshTokenRepo.Delete postgres.repo 1
                   (postgres.set_wire [Some (errors.New "EOF")]
                      (store_with 500 [token 1 "user-1" 100 900])))).
Proof.
  assert (Hok : store_ok (postgres.set_wire [Some (errors.New "EOF")]
                            (store_with 500 [token 1 "user-1" 100 900]))).
  { eexists. split; [reflexivity |]. split; [reflexivity |]. split.
    - repeat constructor.
    - cbn. apply NoDup_singleton. }
  pose proof (identifiers_stay_distinct _ (token 0 "user-2" 0 900) "user-1" 1 Hok)
    as (_ & _ & _ & _ & _ & H & _).
  exact H.
Defined.

(** *** MarkAsUsed, Delete and DeleteAllByUserID, seen by the queries *)



Lemma found_active_without now userID tokenID rs r :
  In r (found_active now userID (without tokenID rs))
  <-> In r (found_active now userID rs) /\ models.ID r <> tokenID.
Proof.
  rewrite !found_active_In. unfold without. rewrite filter_In, negb_true_iff, Z.eqb_neq. tauto.
Qed.


Lemma without_matches tokenID rs :
  List.filter (fun r => models.ID r =? tokenID) (without tokenID rs) = [].
Proof. apply (filter_filter_neg (fun r => models.ID r =? tokenID)). Qed.

Lemma matches_nonzero tokenID (rs : list models.RefreshToken) r :
  In r rs -> models.ID r = tokenID ->
  (Z.of_nat (length (List.filter (fun r => models.ID r =? tokenID) rs)) =? 0) = false.
Proof.
  intros Hin Hid. apply Z.eqb_neq. intros H0. apply no_match_length with (x := r) in H0; [| done].
  apply Z.eqb_neq in H0. done.
Qed.



(** X17: what Delete does to a stored token.  On a store that has the table
    and a transport that delivers, deleting the identifier of a stored
    token returns nil and leaves the other rows, unchanged and in their
    order; afterwards GetByID reports the identifier as not found, a second
    Delete and a MarkAsUsed of it return the not-found error, and the active
    tokens of every user are those that were active before, without the
    deleted one. *)
Theorem Delete_removes_token (d : postgres.DB) (t : postgres.Table)
    (r : models.RefreshToken) (userID : string) :
  postgres.wire d = [] ->
  postgres.tables d !! "refresh_tokens" = Some t ->
  postgres.columns t = sql.table_columns migrations.create_refresh_tokens ->
  In r (postgres.rows t) ->
  let tokenID := models.ID r in
  let d1 := snd (refreshTokenRepo.Delete postgres.repo tokenID d) in
  fst (refreshTokenRepo.Delete postgres.repo tokenID d) = None
  /\ postgres.refresh_tokens d1 = Some (without tokenID (postgres.rows t))
  /\ (forall x, In x (without tokenID (postgres.rows t))
                <-> In x (postgres.rows t) /\ models.ID x <> tokenID)
  /\ fst (refreshTokenRepo.GetByID postgres.repo tokenID d1)
     = (None, Some (refresh_token_not_found tokenID))
  /\ fst (refreshTokenRepo.Delete postgres.repo tokenID d1) = Some (token_not_found tokenID)
  /\ fst (refreshTokenRepo.MarkAsUsed postgres.repo tokenID d1)
     = Some (token_not_found tokenID)
  /\ (forall x, In x (fst (fst (refreshTokenRepo.GetAllActiveByUserID postgres.repo userID d1)))
                <-> In x (fst (fst (refreshTokenRepo.GetAllActiveByUserID postgres.repo
                                      userID d)))
                    /\ models.ID x <> tokenID).
Proof.
  intros Hw Ht Hc Hin. cbv zeta.
  pose proof (Delete_leaves d t Hw Ht Hc (models.ID r)) as (Hw1 & Hn1 & Ht1).
  set (d1 := snd (refreshTokenRepo.Delete postgres.repo (models.ID r) d)) in *.
  set (t1 := postgres.with_rows t (without (models.ID r) (postgres.rows t))) in *.
  assert (Hc1 : postgres.columns t1 = sql.table_columns migrations.create_refresh_tokens)
    by exact Hc.
  split; [| split; [| split; [| split; [| split; [| split]]]]].
  - destruct (Delete_delivered (models.ID r) d t Hw) as [-> _];
      [apply (resolves d t Ht Hc); cbn; tauto |].
    by rewrite (matches_nonzero _ _ r).
  - unfold postgres.refresh_tokens. by rewrite Ht1.
  - intros x. unfold without. rewrite filter_In, negb_true_iff, Z.eqb_neq. tauto.
  - rewrite (GetByID_delivered (models.ID r) d1 t1);
      [| done | apply (resolves d1 t1 Ht1 Hc1); cbn; tauto].
    cbn [postgres.rows t1 postgres.with_rows]. by rewrite without_matches.
  - destruct (Delete_delivered (models.ID r) d1 t1 Hw1) as [-> _];
      [apply (resolves d1 t1 Ht1 Hc1); cbn; tauto |].
    cbn [postgres.rows t1 postgres.with_rows]. by rewrite without_matches.
  - destruct (MarkAsUsed_delivered (models.ID r) d1 t1 Hw1) as [-> _];
      [apply (resolves d1 t1 Ht1 Hc1); cbn; tauto |].
    cbn [postgres.rows t1 postgres.with_rows]. by rewrite without_matches.
  - intros x.
    rewrite (GetAllActiveByUserID_delivered userID d1 t1);
      [| done | apply (resolves d1 t1 Ht1 Hc1); cbn; tauto].
    rewrite (GetAllActiveByUserID_delivered userID d t);
      [| done | apply (resolves d t Ht Hc); cbn; tauto].
    rewrite Hn1. cbn [fst postgres.rows t1 postgres.with_rows]. apply found_active_without.
Qed.

Lemma Delete_removes_token_witness :
  let d := store_with 500 [token 1 "user-1" 100 900; token 2 "user-1" 200 900] in
  let d1 := snd (refreshTokenRepo.Delete postgres.repo 2 d) in
  fst (refreshTokenRepo.GetByID postgres.repo 2 d1) = (None, Some (refresh_token_not_found 2))
  /\ fst (refreshTokenRepo.Delete postgres.repo 2 d1) = Some (token_not_found 2).
Proof.
  cbv zeta.
  pose proof (Delete_removes_token
                (store_with 500 [token 1 "user-1" 100 900; token 2 "user-1" 200 900])
                {| postgres.columns := sql.table_columns migrations.create_refresh_tokens;
                   postgres.rows := [token 1 "user-1" 100 900; token 2 "user-1" 200 900];
                   postgres.serial := 3 |}
                (token 2 "user-1" 200 900) "user-1" eq_refl eq_refl eq_refl) as H.
  destruct H as (_ & _ & _ & H4 & H5 & _).
  - right. by left.
  - split; [exact H4 | exact H5].
Defined.

Lemma found_active_others now userID other rs :
  other <> userID ->
  found_active now other (List.filter (fun r => negb (owned_by userID r)) rs)
  = found_active now other rs.
Proof.
  intros Hne. unfold found_active. f_equal.
  induction rs as [|r rs IH]; [done |]. cbn [List.filter].
  destruct (owned_by userID r) eqn:Hu; cbn [negb List.filter].
  - replace (owned_by other r) with false; [exact IH |].
    symmetry. apply String.eqb_neq. apply String.eqb_eq in Hu. congruence.
  - by rewrite IH.
Qed.

Lemma found_active_purged now userID rs :
  found_active now userID (List.filter (fun r => negb (owned_by userID r)) rs) = [].
Proof.
  unfold found_active. rewrite filter_and, (filter_filter_neg (owned_by userID)). reflexivity.
Qed.

(** X18: what DeleteAllByUserID does.  On a store that has the table and a
    transport that delivers, it returns nil and removes the rows of the
    user, used and expired ones included, and no other row; afterwards
    GetAllActiveByUserID returns the empty list without error and
    GetActiveByUserID the not-found error for that user, while for every
    other user both return what they returned before. *)
Theorem DeleteAllByUserID_purges_user (d : postgres.DB) (t : postgres.Table)
    (userID other : string) :
  postgres.wire d = [] ->
  postgres.tables d !! "refresh_tokens" = Some t ->
  postgres.columns t = sql.table_columns migrations.create_refresh_tokens ->
  other <> userID ->
  let d1 := snd (refreshTokenRepo.DeleteAllByUserID postgres.repo userID d) in
  fst (refreshTokenRepo.DeleteAllByUserID postgres.repo userID d) = None
  /\ (forall rows, postgres.refresh_tokens d1 = Some rows ->
        forall r, In r rows <-> In r (postgres.rows t) /\ models.UserID r <> userID)
  /\ fst (refreshTokenRepo.GetAllActiveByUserID postgres.repo userID d1) = ([], None)
  /\ fst (refreshTokenRepo.GetActiveByUserID postgres.repo userID d1)
     = (None, Some (no_active_token userID))
  /\ fst (refreshTokenRepo.GetAllActiveByUserID postgres.repo other d1)
     = fst (refreshTokenRepo.GetAllActiveByUserID postgres.repo other d)
  /\ fst (refreshTokenRepo.GetActiveByUserID postgres.repo other d1)
     = fst (refreshTokenRepo.GetActiveByUserID postgres.repo other d).
Proof.
  intros Hw Ht Hc Hne. cbv zeta.
  pose proof (DeleteAllByUserID_leaves d t Hw Ht Hc userID) as (Hw1 & Hn1 & Ht1).
  set (d1 := snd (refreshTokenRepo.DeleteAllByUserID postgres.repo userID d)) in *.
  set (t1 := postgres.with_rows t _) in *.
  assert (Hc1 : postgres.columns t1 = sql.table_columns migrations.create_refresh_tokens)
    by exact Hc.
  split; [| split; [| split; [| split; [| split]]]].
  - destruct (DeleteAllByUserID_delivered userID d t Hw) as [-> _];
      [apply (resolves d t Ht Hc); cbn; tauto | done].
  - intros rows Hrows r. unfold postgres.refresh_tokens in Hrows. rewrite Ht1 in Hrows.
    injection Hrows as <-. cbn [postgres.rows t1 postgres.with_rows].
    rewrite filter_In, negb_true_iff. unfold owned_by. rewrite String.eqb_neq. tauto.
  - rewrite (GetAllActiveByUserID_delivered userID d1 t1);
      [| done | apply (resolves d1 t1 Ht1 Hc1); cbn; tauto].
    cbn [postgres.rows t1 postgres.with_rows]. by rewrite found_active_purged.
  - rewrite (GetActiveByUserID_delivered userID d1 t1);
      [| done | apply (resolves d1 t1 Ht1 Hc1); cbn; tauto].
    cbn [postgres.rows t1 postgres.with_rows]. by rewrite found_active_purged.
  - rewrite (GetAllActiveByUserID_delivered other d1 t1);
      [| done | apply (resolves d1 t1 Ht1 Hc1); cbn; tauto].
    rewrite (GetAllActiveByUserID_delivered other d t);
      [| done | apply (resolves d t Ht Hc); cbn; tauto].
    rewrite Hn1. cbn [postgres.rows t1 postgres.with_rows]. by rewrite found_active_others.
  - rewrite (GetActiveByUserID_delivered other d1 t1);
      [| done | apply (resolves d1 t1 Ht1 Hc1); cbn; tauto].
    rewrite (GetActiveByUserID_delivered other d t);
      [| done | apply (resolves d t Ht Hc); cbn; tauto].
    rewrite Hn1. cbn [postgres.rows t1 postgres.with_rows]. by rewrite found_active_others.
Qed.

Lemma DeleteAllByUserID_purges_user_witness :
  let d := store_with 500 [token 1 "user-1" 100 900; token 2 "user-2" 200 900] in
  let d1 := snd (refreshTokenRepo.DeleteAllByUserID postgres.repo "user-1" d) in
  fst (refreshTokenRepo.GetAllActiveByUserID postgres.repo "user-1" d1) = ([], None)
  /\ fst (refreshTokenRepo.GetAllActiveByUserID postgres.repo "user-2" d1)
     = fst (refreshTokenRepo.GetAllActiveByUserID postgres.repo "user-2" d).
Proof.
  cbv zeta.
  pose proof (DeleteAllByUserID_purges_user
                (store_with 500 [token 1 "user-1" 100 900; token 2 "user-2" 200 900])
                {| postgres.columns := sql.table_columns migrations.create_refresh_tokens;
                   postgres.rows := [token 1 "user-1" 100 900; token 2 "user-2" 200 900];
                   postgres.serial := 3 |}
                "user-1" "user-2" eq_refl eq_refl eq_refl) as H.
  destruct H as (_ & _ & H3 & _ & H5 & _); [discriminate |].
  split; [exact H3 | exact H5].
Defined.

(** *** GetAllActiveByUserID *)

Section GetAllActiveErrors.
Context {S : Type} (r : refreshTokenRepo.t S).

Lemma GetAllActiveByUserID_error userID s e :
  snd (fst (sqlx.SelectContext (refreshTokenRepo.db r)
              refreshTokenRepo.GetAllActiveByUserID_query [sql.Text userID] s)) = Some e ->
  fst (refreshTokenRepo.GetAllActiveByUserID r userID s)
  = ([], Some (errors.Errorf ("failed to get active tokens for user " +:+ userID +:+ ": "
                              +:+ errors.Error e) (Some e))).
Proof.
  unfold refreshTokenRepo.GetAllActiveByUserID, bind, ret.
  destruct (sqlx.SelectContext _ _ _ s) as [[toks err] s1]. cbn [fst snd]. by intros ->.
Qed.

End GetAllActiveErrors.

(** X19: GetAllActiveByUserID.  On a store that has the table and a
    transport that delivers, the list returned holds exactly the rows of
    the user that are unused with expires_at strictly after the clock of the
    store, each as often as it is stored, ordered by created_at from the
    newest to the oldest; a user without such a row gets the empty list and
    no error, where GetActiveByUserID returns the not-found error; and the
    token GetActiveByUserID returns is the head of this list.  For every
    handle, an error of the query is returned wrapped behind "failed to get
    active tokens for user U: " with no token. *)
Theorem GetAllActiveByUserID_lists_active (d : postgres.DB) (t : postgres.Table)
    (userID : string) :
  postgres.wire d = [] ->
  postgres.tables d !! "refresh_tokens" = Some t ->
  postgres.columns t = sql.table_columns migrations.create_refresh_tokens ->
  let now := postgres.now d in
  let out := fst (refreshTokenRepo.GetAllActiveByUserID postgres.repo userID d) in
  snd out = None
  /\ fst out ≡ₚ List.filter (fun r => owned_by userID r && active now r) (postgres.rows t)
  /\ StronglySorted (fun x y => models.CreatedAt y <= models.CreatedAt x) (fst out)
  /\ (fst out = [] <-> forall r, In r (postgres.rows t) -> owned_by userID r = true ->
                                 active now r = false)
  /\ (fst out = [] ->
      fst (refreshTokenRepo.GetActiveByUserID postgres.repo userID d)
      = (None, Some (no_active_token userID)))
  /\ (forall r rest, fst out = r :: rest ->
        fst (refreshTokenRepo.GetActiveByUserID postgres.repo userID d) = (Some r, None))
  /\ (forall S (h : refreshTokenRepo.t S) (s : S) e,
        snd (fst (sqlx.SelectContext (refreshTokenRepo.db h)
                    refreshTokenRepo.GetAllActiveByUserID_query [sql.Text userID] s)) = Some e ->
        fst (refreshTokenRepo.GetAllActiveByUserID h userID s)
        = ([], Some (errors.Errorf ("failed to get active tokens for user " +:+ userID +:+ ": "
                                    +:+ errors.Error e) (Some e)))).
Proof.
  intros Hw Ht Hc. cbv zeta.
  rewrite (GetAllActiveByUserID_delivered userID d t);
    [| done | apply (resolves d t Ht Hc); cbn; tauto].
  rewrite (GetActiveByUserID_delivered userID d t);
    [| done | apply (resolves d t Ht Hc); cbn; tauto].
  cbn [fst snd].
  split; [done |]. split; [| split; [| split; [| split; [| split]]]].
  - unfold found_active. apply merge_sort_Permutation.
  - pose proof (StronglySorted_merge_sort (sql.precedes sql.DESC sql.created_at)
      (List.filter (fun r => owned_by userID r && active (postgres.now d) r) (postgres.rows t)))
      as Hs.
    fold (found_active (postgres.now d) userID (postgres.rows t)) in Hs.
    induction Hs as [|x l Hs IH Hall]; constructor; [exact IH |].
    eapply Forall_impl; [exact Hall |]. intros y. apply precedes_created_at.
  - split.
    + intros Hnil r Hin Ho. destruct (active (postgres.now d) r) eqn:Ha; [| done].
      assert (Hx : In r (found_active (postgres.now d) userID (postgres.rows t)))
        by (by apply found_active_In).
      rewrite Hnil in Hx. destruct Hx.
    + intros Hnone. destruct (found_active _ _ _) as [|x rest] eqn:Hf; [done |].
      assert (Hx : In x (found_active (postgres.now d) userID (postgres.rows t)))
        by (rewrite Hf; by left).
      apply found_active_In in Hx as (Hin & Ho & Ha). rewrite (Hnone x Hin Ho) in Ha.
      discriminate.
  - by intros ->.
  - by intros r rest ->.
  - intros S h s e He. by apply GetAllActiveByUserID_error.
Qed.

Lemma GetAllActiveByUserID_lists_active_witness :
  fst (refreshTokenRepo.GetAllActiveByUserID postgres.repo "user-2"
         (store_with 500 [token 1 "user-1" 100 900; mark 300 (token 2 "user-2" 200 900);
                          token 3 "user-2" 200 400]))
  = ([], None).
Proof.
  pose proof (GetAllActiveByUserID_lists_active
                (store_with 500 [token 1 "user-1" 100 900; mark 300 (token 2 "user-2" 200 900);
                                 token 3 "user-2" 200 400])
                {| postgres.columns := sql.table_columns migrations.create_refresh_tokens;
                   postgres.rows := [token 1 "user-1" 100 900;
                                     mark 300 (token 2 "user-2" 200 900);
                                     token 3 "user-2" 200 400];
                   postgres.serial := 4 |}
                "user-2" eq_refl eq_refl eq_refl) as (H1 & _ & _ & [_ H4] & _).
  destruct (fst (refreshTokenRepo.GetAllActiveByUserID _ _ _)) as [l e].
  cbn [fst snd] in *. rewrite H1, H4; [reflexivity |].
  intros r [<- | [<- | [<- | []]]]; (discriminate || reflexivity).
Defined.

Lemma found_active_cleaned now userID rs :
  found_active now userID (List.filter (fun r => negb (past_expiry now r)) rs)
  = found_active now userID rs.
Proof.
  unfold found_active. f_equal.
  induction rs as [|r rs IH]; [done |]. cbn [List.filter].
  destruct (past_expiry now r) eqn:Hp; cbn [negb List.filter].
  - replace (owned_by userID r && active now r) with false; [exact IH |].
    unfold past_expiry in Hp. unfold active. apply Z.ltb_lt in Hp.
    replace (now <? models.ExpiresAt r) with false by (symmetry; apply Z.ltb_ge; lia).
    by rewrite andb_false_r.
  - by rewrite IH.
Qed.

(** X20: CleanExpired and the active tokens.  On a store that has the table
    and a transport that delivers, CleanExpired removes no active token:
    GetAllActiveByUserID and GetActiveByUserID return for every user the
    same after it as before.  A token whose expires_at equals the clock of
    the store is kept by CleanExpired and is not active. *)
Theorem CleanExpired_spares_active (d : postgres.DB) (t : postgres.Table) (userID : string) :
  postgres.wire d = [] ->
  postgres.tables d !! "refresh_tokens" = Some t ->
  postgres.columns t = sql.table_columns migrations.create_refresh_tokens ->
  let d1 := snd (refreshTokenRepo.CleanExpired postgres.repo d) in
  fst (refreshTokenRepo.GetAllActiveByUserID postgres.repo userID d1)
  = fst (refreshTokenRepo.GetAllActiveByUserID postgres.repo userID d)
  /\ fst (refreshTokenRepo.GetActiveByUserID postgres.repo userID d1)
     = fst (refreshTokenRepo.GetActiveByUserID postgres.repo userID d)
  /\ (forall r rows, In r (postgres.rows t) -> models.ExpiresAt r = postgres.now d ->
        postgres.refresh_tokens d1 = Some rows ->
        In r rows /\ active (postgres.now d) r = false).
Proof.
  intros Hw Ht Hc. cbv zeta.
  pose proof (CleanExpired_leaves d t Hw Ht Hc) as (Hw1 & Hn1 & Ht1).
  set (d1 := snd (refreshTokenRepo.CleanExpired postgres.repo d)) in *.
  set (t1 := postgres.with_rows t _) in *.
  assert (Hc1 : postgres.columns t1 = sql.table_columns migrations.create_refresh_tokens)
    by exact Hc.
  assert (Hsame : found_active (postgres.now d) userID (postgres.rows t1)
                  = found_active (postgres.now d) userID (postgres.rows t))
    by apply found_active_cleaned.
  split; [| split].
  - rewrite (GetAllActiveByUserID_delivered userID d1 t1);
      [| done | apply (resolves d1 t1 Ht1 Hc1); cbn; tauto].
    rewrite (GetAllActiveByUserID_delivered userID d t);
      [| done | apply (resolves d t Ht Hc); cbn; tauto].
    by rewrite Hn1, Hsame.
  - rewrite (GetActiveByUserID_delivered userID d1 t1);
      [| done | apply (resolves d1 t1 Ht1 Hc1); cbn; tauto].
    rewrite (GetActiveByUserID_delivered userID d t);
      [| done | apply (resolves d t Ht Hc); cbn; tauto].
    by rewrite Hn1, Hsame.
  - intros r rows Hin He Hrows. unfold postgres.refresh_tokens in Hrows. rewrite Ht1 in Hrows.
    injection Hrows as <-. cbn [postgres.rows t1 postgres.with_rows]. split.
    + apply filter_In. split; [done |]. unfold past_expiry. rewrite He.
      by rewrite Z.ltb_irrefl.
    + unfold active. rewrite He. by rewrite Z.ltb_irrefl.
Qed.

Lemma CleanExpired_spares_active_witness :
  let d := store_with 500 [token 1 "user-1" 100 400; token 2 "user-1" 200 500;
                           token 3 "user-1" 300 900] in
  fst (refreshTokenRepo.GetAllActiveByUserID postgres.repo "user-1"
         (snd (refreshTokenRepo.CleanExpired postgres.repo d)))
  = fst (refreshTokenRepo.GetAllActiveByUserID postgres.repo "user-1" d).
Proof.
  cbv zeta.
  pose proof (CleanExpired_spares_active
                (store_with 500 [token 1 "user-1" 100 400; token 2 "user-1" 200 500;
                                 token 3 "user-1" 300 900])
                {| postgres.columns := sql.table_columns migrations.create_refresh_tokens;
                   postgres.rows := [token 1 "user-1" 100 400; token 2 "user-1" 200 500;
                                     token 3 "user-1" 300 900];
                   postgres.serial := 4 |}
                "user-1" eq_refl eq_refl eq_refl) as (H & _).
  exact H.
Defined.

(** *** RunMigrations *)

Lemma create_tables_wire cs (d d' : postgres.DB) :
  postgres.create_tables cs d = inl d' ->
  postgres.wire d' = postgres.wire d /\ postgres.now d' = postgres.now d.
Proof.
  revert d. induction cs as [|c cs IH]; intros d; cbn [postgres.create_tables].
  - by intros [= <-].
  - unfold postgres.create_table.
    destruct (postgres.tables d !! sql.table_name c); [discriminate |].
    intros H. apply IH in H. exact H.
Qed.

Lemma create_tables_error cs (d : postgres.DB) e :
  postgres.create_tables cs d = inr e -> errors.eq_ErrNoChange e = false.
Proof.
  revert d. induction cs as [|c cs IH]; intros d; cbn [postgres.create_tables]; [discriminate |].
  unfold postgres.create_table.
  destruct (postgres.tables d !! sql.table_name c); [by intros [= <-] |]. apply IH.
Qed.

(** X21: RunMigrations.  For every handle: an error of the driver or of the
    migration source is returned as it is and Up is not reached; an error
    of Up is returned as it is, not wrapped, unless it is ErrNoChange, which
    is turned into nil; nothing is done after Up.  On the store, with a
    transport that delivers, running the migrations again after a run that
    succeeded returns nil and changes nothing. *)
Theorem RunMigrations_outcomes {S : Type} (h : refreshTokenRepo.t S) (path : string) (s : S) :
  let driver := sqlx.postgres_WithInstance (refreshTokenRepo.db h) s in
  let source := sqlx.migrate_NewWithDatabaseInstance (refreshTokenRepo.db h)
                  ("file://" +:+ path) (snd driver) in
  let up := sqlx.migrate_Up (refreshTokenRepo.db h) (snd source) in
  (forall e, fst driver = Some e ->
     refreshTokenRepo.RunMigrations h path s = (Some e, snd driver))
  /\ (forall e, fst driver = None -> fst source = Some e ->
        refreshTokenRepo.RunMigrations h path s = (Some e, snd source))
  /\ (fst driver = None -> fst source = None ->
      snd (refreshTokenRepo.RunMigrations h path s) = snd up
      /\ (fst up = None -> fst (refreshTokenRepo.RunMigrations h path s) = None)
      /\ (fst up = Some errors.ErrNoChange ->
          fst (refreshTokenRepo.RunMigrations h path s) = None)
      /\ (forall e, fst up = Some e -> errors.eq_ErrNoChange e = false ->
            fst (refreshTokenRepo.RunMigrations h path s) = Some e))
  /\ (forall d : postgres.DB,
        postgres.wire d = [] ->
        fst (refreshTokenRepo.RunMigrations postgres.repo path d) = None ->
        let d1 := snd (refreshTokenRepo.RunMigrations postgres.repo path d) in
        refreshTokenRepo.RunMigrations postgres.repo path d1 = (None, d1)).
Proof.
  cbv zeta. unfold refreshTokenRepo.RunMigrations, bind, ret.
  split; [| split; [| split]].
  - intros e He. destruct (sqlx.postgres_WithInstance _ s) as [err s1]. cbn [fst snd] in *.
    by rewrite He.
  - intros e Hd He. destruct (sqlx.postgres_WithInstance _ s) as [err s1]. cbn [fst snd] in *.
    rewrite Hd. destruct (sqlx.migrate_NewWithDatabaseInstance _ _ s1) as [err2 s2].
    cbn [fst snd] in *. by rewrite He.
  - intros Hd Hs. destruct (sqlx.postgres_WithInstance _ s) as [err s1]. cbn [fst snd] in *.
    rewrite Hd. destruct (sqlx.migrate_NewWithDatabaseInstance _ _ s1) as [err2 s2].
    cbn [fst snd] in *. rewrite Hs.
    destruct (sqlx.migrate_Up _ s2) as [[e|] s3]; cbn [fst snd].
    + split; [by destruct (errors.eq_ErrNoChange e) |]. split; [discriminate |].
      split; [by intros [= ->] |]. intros e' [= <-] ->. done.
    + split; [done |]. split; [done |]. split; discriminate.
  - intros d Hw. cbn [refreshTokenRepo.db postgres.repo postgres.handle
                      sqlx.postgres_WithInstance sqlx.migrate_NewWithDatabaseInstance
                      sqlx.migrate_Up].
    unfold bind, ret, postgres.Up. rewrite !db_roundtrip_delivers by done.
    destruct (postgres.pending d) as [|c cs] eqn:Hp.
    + cbn. intros _. rewrite db_roundtrip_delivers by done. by rewrite Hp.
    + destruct (postgres.create_tables (c :: cs) d) as [d'|e] eqn:Hc; cbn [fst snd].
      * intros _. apply create_tables_wire in Hc as [Hw' _].
        rewrite db_roundtrip_delivers by (cbn; congruence). reflexivity.
      * apply create_tables_error in Hc. cbn. rewrite Hc. discriminate.
Qed.

Lemma RunMigrations_outcomes_witness :
  let d1 := migrated 0 in
  refreshTokenRepo.RunMigrations postgres.repo "migrations" d1 = (None, d1).
Proof.
  cbv zeta.
  pose proof (RunMigrations_outcomes postgres.repo "migrations"
                (postgres.empty 0 [migrations.create_jwt])) as (_ & _ & _ & H).
  exact (H (postgres.empty 0 [migrations.create_jwt]) eq_refl eq_refl).
Defined.

(** ** The logger *)

Lemma convertFields_id fields : loggerImpl.convertFields fields = fields.
Proof.
  unfold loggerImpl.convertFields. induction fields as [|[k v] fs IH]; [done |].
  cbn. by rewrite IH.
Qed.

Lemma log_output at_level (l : loggerImpl.t) msg fields (w : loggerImpl.World) threshold :
  loggerImpl.levels w !! loggerImpl.level l = Some threshold ->
  loggerImpl.output (snd (loggerImpl.log at_level l msg fields w))
  = written_if (zapcore.Enabled threshold at_level) (lines l at_level msg fields) w
  /\ loggerImpl.levels (snd (loggerImpl.log at_level l msg fields w)) = loggerImpl.levels w.
Proof.
  intros Hl. unfold loggerImpl.log, written_if. rewrite Hl.
  destruct (zapcore.Enabled threshold at_level); cbn; [done |]. by rewrite app_nil_r.
Qed.

Lemma toZapLevel_named level :
  0 <= level <= 5 ->
  loggerImpl.toZapLevel level = (if level <=? 3 then level - 1 else level).
Proof.
  intros H.
  assert (Hc : level = 0 \/ level = 1 \/ level = 2 \/ level = 3 \/ level = 4 \/ level = 5) by lia.
  destruct Hc as [-> | [-> | [-> | [-> | [-> | ->]]]]]; reflexivity.
Qed.

Lemma toZapLevel_unnamed level :
  level < 0 \/ 5 < level -> loggerImpl.toZapLevel level = zapcore.InfoLevel.
Proof.
  intros H. unfold loggerImpl.toZapLevel.
  destruct level as [|p|p]; [lia | | reflexivity].
  do 3 (destruct p as [p|p|]; try reflexivity; try lia).
Qed.

(** X22: toZapLevel keeps the order of the levels.  On the six constants of
    Level, from DebugLevel (0) to FatalLevel (5), a higher level is mapped
    to a higher level of zap; every other integer is mapped to the info
    level of zap, so that it is no higher than WarnLevel. *)
Theorem toZapLevel_keeps_order (a b : Z) :
  0 <= a -> a < b -> b <= 5 ->
  loggerImpl.toZapLevel a < loggerImpl.toZapLevel b
  /\ (forall n, n < 0 \/ 5 < n ->
        loggerImpl.toZapLevel n = loggerImpl.toZapLevel (loggerImpl.code logger.InfoLevel)
        /\ loggerImpl.toZapLevel n < loggerImpl.toZapLevel (loggerImpl.code logger.WarnLevel)).
Proof.
  intros Ha Hab Hb. split.
  - rewrite !toZapLevel_named by lia.
    destruct (Z.leb_spec a 3), (Z.leb_spec b 3); lia.
  - intros n Hn. rewrite (toZapLevel_unnamed n Hn). split; reflexivity.
Qed.

Lemma toZapLevel_keeps_order_witness :
  loggerImpl.toZapLevel (loggerImpl.code logger.ErrorLevel)
  < loggerImpl.toZapLevel (loggerImpl.code logger.PanicLevel).
Proof.
  apply (toZapLevel_keeps_order 3 4); lia.
Defined.

Lemma New_level writers (w : loggerImpl.World) :
  let l := fst (loggerImpl.New writers w) in
  let w1 := snd (loggerImpl.New writers w) in
  loggerImpl.levels w1 !! loggerImpl.level l = Some zapcore.InfoLevel
  /\ loggerImpl.cores l = writers /\ loggerImpl.context l = []
  /\ loggerImpl.output w1 = loggerImpl.output w
  /\ (forall a, (a < length (loggerImpl.levels w))%nat ->
        loggerImpl.levels w1 !! a = loggerImpl.levels w !! a).
Proof.
  cbn. split; [| split; [done | split; [done | split; [done |]]]].
  - rewrite lookup_app_r by lia. by rewrite Nat.sub_diag.
  - intros a Ha. by rewrite lookup_app_l.
Qed.

Lemma SetLevel_level (l : loggerImpl.t) level (w : loggerImpl.World) threshold :
  loggerImpl.levels w !! loggerImpl.level l = Some threshold ->
  let w1 := snd (loggerImpl.SetLevel l level w) in
  loggerImpl.levels w1 !! loggerImpl.level l = Some (loggerImpl.toZapLevel level)
  /\ loggerImpl.output w1 = loggerImpl.output w
  /\ (forall a, a <> loggerImpl.level l ->
        loggerImpl.levels w1 !! a = loggerImpl.levels w !! a).
Proof.
  intros Hl. cbn. split; [| split; [done |]].
  - apply list_lookup_insert_eq. by eapply lookup_lt_Some.
  - intros a Ha. by apply list_lookup_insert_ne.
Qed.

(** X23: the level of a logger.  A logger made by New writes Info, Warn and
    Error to each of its writers and drops Debug.  After SetLevel with one
    of the six constants, Debug, Info, Warn and Error write to each writer
    exactly when the level set is not higher than theirs; after SetLevel
    with any other integer the logger is back at the info level. *)
Theorem SetLevel_filters (writers : list loggerImpl.Writer) (w : loggerImpl.World)
    (set : logger.Level) (other : Z) (msg : string) (fields : list logger.Field) :
  other < 0 \/ 5 < other ->
  let l := fst (loggerImpl.New writers w) in
  let w1 := snd (loggerImpl.New writers w) in
  let w2 := snd (loggerImpl.SetLevel l (loggerImpl.code set) w1) in
  let w3 := snd (loggerImpl.SetLevel l other w2) in
  let wrote m (w : loggerImpl.World) := loggerImpl.output (snd (m l msg fields w)) in
  wrote loggerImpl.Debug w1 = loggerImpl.output w1
  /\ wrote loggerImpl.Info w1
     = loggerImpl.output w1 ++ lines l zapcore.InfoLevel msg fields
  /\ wrote loggerImpl.Warn w1
     = loggerImpl.output w1 ++ lines l zapcore.WarnLevel msg fields
  /\ wrote loggerImpl.Error w1
     = loggerImpl.output w1 ++ lines l zapcore.ErrorLevel msg fields
  /\ wrote loggerImpl.Debug w2
     = written_if (loggerImpl.code set <=? loggerImpl.code logger.DebugLevel)
         (lines l zapcore.DebugLevel msg fields) w2
  /\ wrote loggerImpl.Info w2
     = written_if (loggerImpl.code set <=? loggerImpl.code logger.InfoLevel)
         (lines l zapcore.InfoLevel msg fields) w2
  /\ wrote loggerImpl.Warn w2
     = written_if (loggerImpl.code set <=? loggerImpl.code logger.WarnLevel)
         (lines l zapcore.WarnLevel msg fields) w2
  /\ wrote loggerImpl.Error w2
     = written_if (loggerImpl.code set <=? loggerImpl.code logger.ErrorLevel)
         (lines l zapcore.ErrorLevel msg fields) w2
  /\ wrote loggerImpl.Debug w3 = loggerImpl.output w3
  /\ wrote loggerImpl.Info w3
     = loggerImpl.output w3 ++ lines l zapcore.InfoLevel msg fields.
Proof.
  intros Hother. cbv zeta.
  destruct (New_level writers w) as (Hl1 & _).
  set (l := fst (loggerImpl.New writers w)) in *.
  set (w1 := snd (loggerImpl.New writers w)) in *.
  destruct (SetLevel_level l (loggerImpl.code set) w1 _ Hl1) as (Hl2 & _).
  set (w2 := snd (loggerImpl.SetLevel l (loggerImpl.code set) w1)) in *.
  destruct (SetLevel_level l other w2 _ Hl2) as (Hl3 & _).
  set (w3 := snd (loggerImpl.SetLevel l other w2)) in *.
  rewrite (toZapLevel_unnamed other Hother) in Hl3.
  unfold loggerImpl.Debug, loggerImpl.Info, loggerImpl.Warn, loggerImpl.Error.
  rewrite convertFields_id.
  repeat split;
    first [ rewrite (proj1 (log_output _ l msg fields w1 _ Hl1))
          | rewrite (proj1 (log_output _ l msg fields w2 _ Hl2))
          | rewrite (proj1 (log_output _ l msg fields w3 _ Hl3)) ];
    unfold written_if; try (cbn; by rewrite ?app_nil_r);
    destruct set; reflexivity.
Qed.

Lemma SetLevel_filters_witness :
  let l := fst (loggerImpl.New [loggerImpl.os_Stdout] loggerImpl.boot) in
  let w1 := snd (loggerImpl.New [loggerImpl.os_Stdout] loggerImpl.boot) in
  loggerImpl.output (snd (loggerImpl.Debug l "debug message" [] w1)) = [].
Proof.
  cbv zeta.
  pose proof (SetLevel_filters [loggerImpl.os_Stdout] loggerImpl.boot logger.InfoLevel 6
                "debug message" []) as H.
  destruct H as (H1 & _); [lia |]. exact H1.
Defined.

(** X24: With.  The logger With returns writes to the same writers, its
    entries carrying the fields given to With in front of their own, while
    the entries of the logger it was made from stay as they were.  The two
    share their level: SetLevel on either changes what the other writes.  A
    logger made by another New is not affected. *)
Theorem With_shares_level (writers others : list loggerImpl.Writer) (w : loggerImpl.World)
    (added : list logger.Field) (msg : string) (fields : list logger.Field) :
  let l := fst (loggerImpl.New writers w) in
  let w1 := snd (loggerImpl.New writers w) in
  let l' := fst (loggerImpl.New others w1) in
  let w2 := snd (loggerImpl.New others w1) in
  let child := loggerImpl.With l added in
  let raised_by_child := snd (loggerImpl.SetLevel child (loggerImpl.code logger.ErrorLevel) w2) in
  let raised_by_parent := snd (loggerImpl.SetLevel l (loggerImpl.code logger.ErrorLevel) w2) in
  loggerImpl.output (snd (loggerImpl.Info child msg fields w2))
  = loggerImpl.output w2
    ++ map (fun wr => {| loggerImpl.writer := wr; loggerImpl.lvl := zapcore.InfoLevel;
                         loggerImpl.text := msg; loggerImpl.fields := added ++ fields |})
         writers
  /\ loggerImpl.output (snd (loggerImpl.Info l msg fields w2))
     = loggerImpl.output w2
       ++ map (fun wr => {| loggerImpl.writer := wr; loggerImpl.lvl := zapcore.InfoLevel;
                            loggerImpl.text := msg; loggerImpl.fields := fields |})
            writers
  /\ loggerImpl.output (snd (loggerImpl.Info l msg fields raised_by_child))
     = loggerImpl.output w2
  /\ loggerImpl.output (snd (loggerImpl.Info child msg fields raised_by_parent))
     = loggerImpl.output w2
  /\ loggerImpl.output (snd (loggerImpl.Info l' msg fields raised_by_parent))
     = loggerImpl.output w2 ++ lines l' zapcore.InfoLevel msg fields.
Proof.
  cbv zeta.
  destruct (New_level writers w) as (Hl1 & Hc1 & Hx1 & _).
  set (l := fst (loggerImpl.New writers w)) in *.
  set (w1 := snd (loggerImpl.New writers w)) in *.
  destruct (New_level others w1) as (Hl2 & _ & _ & _ & Hold).
  assert (Hlt : (loggerImpl.level l < length (loggerImpl.levels w1))%nat)
    by (by eapply lookup_lt_Some).
  set (l' := fst (loggerImpl.New others w1)) in *.
  set (w2 := snd (loggerImpl.New others w1)) in *.
  assert (Hl : loggerImpl.levels w2 !! loggerImpl.level l = Some zapcore.InfoLevel)
    by (rewrite Hold; done).
  assert (Hne : loggerImpl.level l' <> loggerImpl.level l) by (cbn in *; lia).
  destruct (SetLevel_level l (loggerImpl.code logger.ErrorLevel) w2 _ Hl)
    as (Hs1 & Ho1 & Hk1).
  assert (Hl' : loggerImpl.levels
                  (snd (loggerImpl.SetLevel l (loggerImpl.code logger.ErrorLevel) w2))
                !! loggerImpl.level l' = Some zapcore.InfoLevel)
    by (rewrite Hk1; done).
  change (loggerImpl.SetLevel (loggerImpl.With l added)) with (loggerImpl.SetLevel l).
  unfold loggerImpl.Info. rewrite !convertFields_id.
  split; [| split; [| split; [| split]]].
  - rewrite (proj1 (log_output _ (loggerImpl.With l added) msg fields w2 _ Hl)).
    unfold written_if, lines. cbn [zapcore.Enabled]. cbn [loggerImpl.With loggerImpl.cores
      loggerImpl.context]. rewrite Hc1, Hx1, convertFields_id. reflexivity.
  - rewrite (proj1 (log_output _ l msg fields w2 _ Hl)).
    unfold written_if, lines. rewrite Hc1, Hx1. reflexivity.
  - rewrite (proj1 (log_output _ l msg fields _ _ Hs1)). unfold written_if.
    cbn [zapcore.Enabled]. rewrite app_nil_r. exact Ho1.
  - rewrite (proj1 (log_output _ (loggerImpl.With l added) msg fields _ _ Hs1)).
    unfold written_if. cbn [zapcore.Enabled]. rewrite app_nil_r. exact Ho1.
  - rewrite (proj1 (log_output _ l' msg fields _ _ Hl')).
    unfold written_if. cbn [zapcore.Enabled]. by rewrite Ho1.
Qed.

Lemma global_settled cs (w : loggerImpl.World) l :
  loggerImpl.globalLogger w = Some l -> loggerImpl.initOnce w = true ->
  loggerImpl.globalLogger (snd (loggerImpl.run cs w)) = Some l
  /\ loggerImpl.initOnce (snd (loggerImpl.run cs w)) = true.
Proof.
  revert w. induction cs as [|c cs IH]; intros w Hg Ho; [done |].
  cbn [loggerImpl.run]. unfold bind.
  destruct (loggerImpl.perform c w) as [[] w1] eqn:Hp. apply IH.
  - destruct c; cbn in Hp; unfold loggerImpl.Initialize, loggerImpl.Global, loggerImpl.SetLevel,
      loggerImpl.Debug, loggerImpl.Info, loggerImpl.Warn, loggerImpl.Error, loggerImpl.log,
      bind, ret in Hp; rewrite ?Ho, ?Hg in Hp;
      repeat (match type of Hp with context [match ?x with _ => _ end] => destruct x end);
      injection Hp as <-; done.
  - destruct c; cbn in Hp; unfold loggerImpl.Initialize, loggerImpl.Global, loggerImpl.SetLevel,
      loggerImpl.Debug, loggerImpl.Info, loggerImpl.Warn, loggerImpl.Error, loggerImpl.log,
      bind, ret in Hp; rewrite ?Ho, ?Hg in Hp;
      repeat (match type of Hp with context [match ?x with _ => _ end] => destruct x end);
      injection Hp as <-; done.
Qed.

Lemma perform_made_or_fresh c (w : loggerImpl.World) :
  (loggerImpl.globalLogger w = None -> loggerImpl.initOnce w = false) ->
  loggerImpl.globalLogger (snd (loggerImpl.perform c w)) = None ->
  loggerImpl.initOnce (snd (loggerImpl.perform c w)) = false.
Proof.
  intros Hinv.
  destruct c; cbn [loggerImpl.perform]; unfold bind, ret;
    unfold loggerImpl.SetLevel, loggerImpl.Debug, loggerImpl.Info, loggerImpl.Warn,
      loggerImpl.Error, loggerImpl.log.
  - unfold loggerImpl.Initialize. destruct (loggerImpl.initOnce w) eqn:Ho; cbn; [| done].
    intros Hg. specialize (Hinv Hg). congruence.
  - unfold loggerImpl.Global. destruct (loggerImpl.globalLogger w) eqn:Hg; cbn.
    + by rewrite Hg.
    + unfold loggerImpl.Initialize. rewrite (Hinv eq_refl). cbn. done.
  - cbn. exact Hinv.
  - destruct (_ !! _) as [th|]; [destruct (zapcore.Enabled th _) |]; cbn; exact Hinv.
  - destruct (_ !! _) as [th|]; [destruct (zapcore.Enabled th _) |]; cbn; exact Hinv.
  - destruct (_ !! _) as [th|]; [destruct (zapcore.Enabled th _) |]; cbn; exact Hinv.
  - destruct (_ !! _) as [th|]; [destruct (zapcore.Enabled th _) |]; cbn; exact Hinv.
Qed.

Lemma made_or_fresh cs (w : loggerImpl.World) :
  (loggerImpl.globalLogger w = None -> loggerImpl.initOnce w = false) ->
  fst (loggerImpl.Global (snd (loggerImpl.run cs w))) <> None.
Proof.
  revert w. induction cs as [|c cs IH]; intros w Hinv.
  - cbn. unfold loggerImpl.Global. destruct (loggerImpl.globalLogger w) eqn:Hg; [done |].
    unfold loggerImpl.Initialize. rewrite (Hinv eq_refl). done.
  - cbn [loggerImpl.run]. unfold bind.
    pose proof (perform_made_or_fresh c w Hinv) as Hp.
    destruct (loggerImpl.perform c w) as [[] w1]. by apply IH.
Qed.

(** X25: the global logger is made once.  In a program that has made no
    logger yet, the first call of Initialize or Global makes the global
    logger, and whatever is called afterwards, Initialize with other
    writers included, Global returns that logger: the one writing to the
    writers of the first Initialize, or to the standard output when Global
    came first.  Global never returns nil. *)
Theorem global_logger_is_made_once (w : loggerImpl.World) (writers : list loggerImpl.Writer)
    (cs : list loggerImpl.call) :
  loggerImpl.globalLogger w = None ->
  loggerImpl.initOnce w = false ->
  fst (loggerImpl.Global (snd (loggerImpl.run (loggerImpl.CallInitialize writers :: cs) w)))
  = Some (fst (loggerImpl.New writers w))
  /\ fst (loggerImpl.Global (snd (loggerImpl.run (loggerImpl.CallGlobal :: cs) w)))
     = Some (fst (loggerImpl.New [loggerImpl.os_Stdout] w))
  /\ fst (loggerImpl.Global (snd (loggerImpl.run cs w))) <> None.
Proof.
  intros Hg Ho.
  assert (Hinit : forall ws,
            loggerImpl.globalLogger (snd (loggerImpl.Initialize ws w))
            = Some (fst (loggerImpl.New ws w))
            /\ loggerImpl.initOnce (snd (loggerImpl.Initialize ws w)) = true).
  { intros ws. unfold loggerImpl.Initialize. rewrite Ho. done. }
  split; [| split].
  - cbn [loggerImpl.run loggerImpl.perform]. unfold bind.
    destruct (Hinit writers) as [Hg1 Ho1].
    destruct (loggerImpl.Initialize writers w) as [[] w1]. cbn [fst snd] in *.
    destruct (global_settled cs w1 _ Hg1 Ho1) as [Hg2 _].
    unfold loggerImpl.Global. by rewrite Hg2.
  - cbn [loggerImpl.run loggerImpl.perform]. unfold bind, ret, loggerImpl.Global at 2.
    rewrite Hg. destruct (Hinit [loggerImpl.os_Stdout]) as [Hg1 Ho1].
    destruct (loggerImpl.Initialize [loggerImpl.os_Stdout] w) as [[] w1]. cbn [fst snd] in *.
    destruct (global_settled cs w1 _ Hg1 Ho1) as [Hg2 _].
    unfold loggerImpl.Global. by rewrite Hg2.
  - apply made_or_fresh. by intros _.
Qed.

Lemma global_logger_is_made_once_witness :
  fst (loggerImpl.Global
         (snd (loggerImpl.run [loggerImpl.CallGlobal; loggerImpl.CallInitialize [2%nat]]
                 loggerImpl.boot)))
  = Some {| loggerImpl.level := 0; loggerImpl.cores := [loggerImpl.os_Stdout];
            loggerImpl.context := [] |}.
Proof.
  pose proof (global_logger_is_made_once loggerImpl.boot [] [loggerImpl.CallInitialize [2%nat]]
                eq_refl eq_refl) as (_ & H & _).
  exact H.
Defined.
